(** * green_pulse: the ESP32 motor controller page and the plant-health page

    A shallow embedding of the device state synchronisation client
    (the [MotorControl] React component: [toMotorState], [fetchJson],
    [pollStateOnce], the mount/unmount effect, [postCommand],
    [handleSpeedChange], [handleRetry]) and of the retry loop of
    [PlantHealth.analyzeImage], followed by the properties of the
    specification that were checked against them. *)

From Stdlib Require Import ZArith QArith String Ascii List Bool Lia.
From Stdlib Require Import DecimalString.
Import ListNotations.

Local Set Warnings "-register-all".
Local Open Scope string_scope.
Local Open Scope Z_scope.

(* ================================================================== *)
(** ** JavaScript values *)
(* ================================================================== *)

Module Js.

(** A JavaScript [number].  The finite doubles are a subset of the
    rationals; the only arithmetic the component applies to a payload
    number is [Math.min] / [Math.max], which return one of their
    arguments (or [NaN]) and never round, so carrying the finite values
    as [Q] is exact.  The sign of zero is not tracked. *)
Inductive number : Type :=
| Finite (q : Q)
| PosInf
| NegInf
| NaN.

(** [Math.min(a, b)]: [NaN] if either argument is [NaN]. *)
Definition Math_min (a b : number) : number :=
  match a, b with
  | NaN, _ | _, NaN => NaN
  | NegInf, _ | _, NegInf => NegInf
  | PosInf, y => y
  | x, PosInf => x
  | Finite p, Finite q => if Qle_bool p q then Finite p else Finite q
  end.

(** [Math.max(a, b)]: [NaN] if either argument is [NaN]. *)
Definition Math_max (a b : number) : number :=
  match a, b with
  | NaN, _ | _, NaN => NaN
  | PosInf, _ | _, PosInf => PosInf
  | NegInf, y => y
  | x, NegInf => x
  | Finite p, Finite q => if Qle_bool p q then Finite q else Finite p
  end.

Definition isNaN (n : number) : bool :=
  match n with NaN => true | _ => false end.

(** What [res.json()] can hand to the component, plus [undefined] for
    a property that is not there.  An object is its list of own
    properties; a lookup takes the first entry with the key. *)
Inductive value : Type :=
| Undefined
| Null
| Bool (b : bool)
| Number (n : number)
| String (s : string)
| Array (items : list value)
| Object (fields : list (string * value)).

(** An [Error]-like thrown value: the component only reads [name] and
    [message]. *)
Record exn : Type := mkError { name : string; message : string }.

(** [new Error(msg)] *)
Definition Error (msg : string) : exn := mkError "Error" msg.
(** The [TypeError] of a property read on [null] / [undefined]. *)
Definition TypeError (msg : string) : exn := mkError "TypeError" msg.
(** The [DOMException] an aborted [fetch] rejects with. *)
Definition AbortError : exn :=
  mkError "AbortError" "The operation was aborted.".

(** The outcome of evaluating an expression or of an awaited promise. *)
Inductive completion (A : Type) : Type :=
| Normal (a : A)
| Throw (e : exn).
Arguments Normal {A} a.
Arguments Throw {A} e.

Fixpoint lookup (k : string) (fs : list (string * value)) : value :=
  match fs with
  | [] => Undefined
  | (k', v) :: rest => if String.eqb k k' then v else lookup k rest
  end.

(** [v.k] for a property name [k] that no prototype defines (the
    names read here are [power], [direction], [speed], [candidates],
    [content], [parts], [text], [error], [message]): an own property of
    an object, [undefined] on any other non-nullish value, a
    [TypeError] on [null] and [undefined]. *)
Definition get (v : value) (k : string) : completion value :=
  match v with
  | Undefined | Null =>
      Throw (TypeError "Cannot read properties of null or undefined")
  | Object fs => Normal (lookup k fs)
  | _ => Normal Undefined
  end.

(** [typeof v === "number"] *)
Definition is_number (v : value) : bool :=
  match v with Number _ => true | _ => false end.

(** Truthiness, as tested by [if (v)], [v || d] and [v ? a : b]. *)
Definition truthy (v : value) : bool :=
  match v with
  | Undefined | Null => false
  | Bool b => b
  | Number (Finite q) => negb (Qeq_bool q 0)
  | Number NaN => false
  | Number _ => true
  | String s => negb (String.eqb s EmptyString)
  | Array _ | Object _ => true
  end.


(** [c.toLowerCase()] on one code unit.  Strings are carried as byte
    strings; only the ASCII capitals change.  (No code point outside
    ASCII lower-cases to a letter of ["on"] or ["reverse"].) *)
Definition lower_ascii (c : ascii) : ascii :=
  let n := nat_of_ascii c in
  if andb (Nat.leb 65 n) (Nat.leb n 90) then ascii_of_nat (n + 32) else c.

Fixpoint toLowerCase (s : string) : string :=
  match s with
  | EmptyString => EmptyString
  | String.String c rest => String.String (lower_ascii c) (toLowerCase rest)
  end.

End Js.

(* ================================================================== *)
(** ** The motor controller *)
(* ================================================================== *)

Module MotorControl.

Import Js.

(** [interface MotorState] *)
Record MotorState : Type := mkMotorState {
  power : bool;   (* true = ON *)
  dir : Z;        (* 1 = forward, -1 = reverse *)
  speed : number  (* 0-100 *)
}.

Definition POLL_INTERVAL : Z := 3000.
Definition MAX_BACKOFF : Z := 30000.
Definition SPEED_DEBOUNCE_MS : Z := 150.

(** [raw.power === true || (typeof raw.power === "string" &&
    raw.power.toLowerCase() === "on") || raw.power === "ON"] *)
Definition powerVal (p : value) : bool :=
  orb (match p with Bool true => true | _ => false end)
      (orb (match p with
            | String s => String.eqb (toLowerCase s) "on"
            | _ => false
            end)
           (match p with String s => String.eqb s "ON" | _ => false end)).

(** [(typeof raw.direction === "string" &&
     raw.direction.toLowerCase() === "reverse") ? -1 : 1] *)
Definition dirVal (d : value) : Z :=
  match d with
  | String s => if String.eqb (toLowerCase s) "reverse" then -1 else 1
  | _ => 1
  end.

(** [typeof raw.speed === "number"
      ? Math.max(0, Math.min(100, raw.speed)) : (prev?.speed ?? 100)] *)
Definition speedVal (sp : value) (prev : option MotorState) : number :=
  match sp with
  | Number x => Math_max (Finite 0) (Math_min (Finite 100) x)
  | _ => match prev with
         | Some p => speed p
         | None => Finite 100
         end
  end.

(** [toMotorState(raw, prev)].  The three property reads are the only
    operations that can throw. *)
Definition toMotorState (raw : value) (prev : option MotorState)
  : completion MotorState :=
  match get raw "power", get raw "direction", get raw "speed" with
  | Normal p, Normal d, Normal sp =>
      Normal {| power := powerVal p; dir := dirVal d; speed := speedVal sp prev |}
  | Throw e, _, _ | _, Throw e, _ | _, _, Throw e => Throw e
  end.

(** The speed domain [[0,100]] of the data model. *)
Definition in_speed_domain (n : number) : bool :=
  match n with
  | Finite q => andb (Qle_bool 0 q) (Qle_bool q 100)
  | _ => false
  end.

(* ------------------------------------------------------------------ *)
(** *** The component's cells and its environment *)

Inductive Method : Type := GET | POST.

(** A request handed to [fetch]: [body] is the value given to
    [JSON.stringify], [signal] the abort controller it is tied to. *)
Record Request : Type := mkRequest {
  method : Method;
  path : string;
  body : option value;
  signal : option Z
}.

(** The two functions the component hands to [window.setTimeout]. *)
Inductive Callback : Type :=
| CbPoll                       (* pollStateOnce *)
| CbPostSpeed (val : number).  (* () => postCommand("/api/speed", { speed: val }).catch(...) *)

Record Timer : Type := mkTimer {
  tid : Z;
  due : Z;
  callback : Callback
}.

(** The [useState] cells, the [useRef] cells, and what the browser
    keeps for the component: the clock, the pending timers, the abort
    controllers already aborted and the requests issued so far.
    Timer handles are positive integers, so a stored handle is always
    truthy and [if (ref.current)] is the test [ref <> null].  A call of
    a state setter is a write to its cell, before and after unmount:
    the cells record what the component hands to React. *)
Record Client : Type := mkClient {
  state : MotorState;
  loading : bool;
  error : option string;
  connected : bool;
  lastSeen : option Z;
  backoffRef : Z;
  pollTimerRef : option Z;
  speedTimerRef : option Z;
  pollAbortRef : option Z;
  mountedRef : bool;
  clock : Z;
  timers : list Timer;
  nextTimer : Z;
  aborted : list Z;
  nextCtrl : Z;
  sent : list Request
}.

Definition set_state (x : MotorState) (s : Client) : Client :=
  mkClient x (loading s) (error s) (connected s) (lastSeen s) (backoffRef s)
    (pollTimerRef s) (speedTimerRef s) (pollAbortRef s) (mountedRef s)
    (clock s) (timers s) (nextTimer s) (aborted s) (nextCtrl s) (sent s).
Definition set_loading (x : bool) (s : Client) : Client :=
  mkClient (state s) x (error s) (connected s) (lastSeen s) (backoffRef s)
    (pollTimerRef s) (speedTimerRef s) (pollAbortRef s) (mountedRef s)
    (clock s) (timers s) (nextTimer s) (aborted s) (nextCtrl s) (sent s).
Definition set_error (x : option string) (s : Client) : Client :=
  mkClient (state s) (loading s) x (connected s) (lastSeen s) (backoffRef s)
    (pollTimerRef s) (speedTimerRef s) (pollAbortRef s) (mountedRef s)
    (clock s) (timers s) (nextTimer s) (aborted s) (nextCtrl s) (sent s).
Definition set_connected (x : bool) (s : Client) : Client :=
  mkClient (state s) (loading s) (error s) x (lastSeen s) (backoffRef s)
    (pollTimerRef s) (speedTimerRef s) (pollAbortRef s) (mountedRef s)
    (clock s) (timers s) (nextTimer s) (aborted s) (nextCtrl s) (sent s).
Definition set_lastSeen (x : option Z) (s : Client) : Client :=
  mkClient (state s) (loading s) (error s) (connected s) x (backoffRef s)
    (pollTimerRef s) (speedTimerRef s) (pollAbortRef s) (mountedRef s)
    (clock s) (timers s) (nextTimer s) (aborted s) (nextCtrl s) (sent s).
Definition set_backoffRef (x : Z) (s : Client) : Client :=
  mkClient (state s) (loading s) (error s) (connected s) (lastSeen s) x
    (pollTimerRef s) (speedTimerRef s) (pollAbortRef s) (mountedRef s)
    (clock s) (timers s) (nextTimer s) (aborted s) (nextCtrl s) (sent s).
Definition set_pollTimerRef (x : option Z) (s : Client) : Client :=
  mkClient (state s) (loading s) (error s) (connected s) (lastSeen s) (backoffRef s)
    x (speedTimerRef s) (pollAbortRef s) (mountedRef s)
    (clock s) (timers s) (nextTimer s) (aborted s) (nextCtrl s) (sent s).
Definition set_speedTimerRef (x : option Z) (s : Client) : Client :=
  mkClient (state s) (loading s) (error s) (connected s) (lastSeen s) (backoffRef s)
    (pollTimerRef s) x (pollAbortRef s) (mountedRef s)
    (clock s) (timers s) (nextTimer s) (aborted s) (nextCtrl s) (sent s).
Definition set_pollAbortRef (x : option Z) (s : Client) : Client :=
  mkClient (state s) (loading s) (error s) (connected s) (lastSeen s) (backoffRef s)
    (pollTimerRef s) (speedTimerRef s) x (mountedRef s)
    (clock s) (timers s) (nextTimer s) (aborted s) (nextCtrl s) (sent s).
Definition set_mountedRef (x : bool) (s : Client) : Client :=
  mkClient (state s) (loading s) (error s) (connected s) (lastSeen s) (backoffRef s)
    (pollTimerRef s) (speedTimerRef s) (pollAbortRef s) x
    (clock s) (timers s) (nextTimer s) (aborted s) (nextCtrl s) (sent s).
Definition set_clock (x : Z) (s : Client) : Client :=
  mkClient (state s) (loading s) (error s) (connected s) (lastSeen s) (backoffRef s)
    (pollTimerRef s) (speedTimerRef s) (pollAbortRef s) (mountedRef s)
    x (timers s) (nextTimer s) (aborted s) (nextCtrl s) (sent s).
Definition set_timers (x : list Timer) (s : Client) : Client :=
  mkClient (state s) (loading s) (error s) (connected s) (lastSeen s) (backoffRef s)
    (pollTimerRef s) (speedTimerRef s) (pollAbortRef s) (mountedRef s)
    (clock s) x (nextTimer s) (aborted s) (nextCtrl s) (sent s).
Definition set_nextTimer (x : Z) (s : Client) : Client :=
  mkClient (state s) (loading s) (error s) (connected s) (lastSeen s) (backoffRef s)
    (pollTimerRef s) (speedTimerRef s) (pollAbortRef s) (mountedRef s)
    (clock s) (timers s) x (aborted s) (nextCtrl s) (sent s).
Definition set_aborted (x : list Z) (s : Client) : Client :=
  mkClient (state s) (loading s) (error s) (connected s) (lastSeen s) (backoffRef s)
    (pollTimerRef s) (speedTimerRef s) (pollAbortRef s) (mountedRef s)
    (clock s) (timers s) (nextTimer s) x (nextCtrl s) (sent s).
Definition set_nextCtrl (x : Z) (s : Client) : Client :=
  mkClient (state s) (loading s) (error s) (connected s) (lastSeen s) (backoffRef s)
    (pollTimerRef s) (speedTimerRef s) (pollAbortRef s) (mountedRef s)
    (clock s) (timers s) (nextTimer s) (aborted s) x (sent s).
Definition set_sent (x : list Request) (s : Client) : Client :=
  mkClient (state s) (loading s) (error s) (connected s) (lastSeen s) (backoffRef s)
    (pollTimerRef s) (speedTimerRef s) (pollAbortRef s) (mountedRef s)
    (clock s) (timers s) (nextTimer s) (aborted s) (nextCtrl s) x.

(** The component as first rendered, at time [t0]:
    [useState({ power: false, dir: 1, speed: 100 })], [useState(false)],
    [useState(null)], [useState(false)], [useState(null)], [useRef(0)],
    three [useRef(null)] and [useRef(true)]. *)
Definition initial (t0 : Z) : Client :=
  {| state := {| power := false; dir := 1; speed := Finite 100 |};
     loading := false; error := None; connected := false; lastSeen := None;
     backoffRef := 0; pollTimerRef := None; speedTimerRef := None;
     pollAbortRef := None; mountedRef := true;
     clock := t0; timers := []; nextTimer := 1; aborted := []; nextCtrl := 1;
     sent := [] |}.

(** [window.setTimeout(cb, delay)]: a fresh handle, due [delay] from now. *)
Definition setTimeout (cb : Callback) (delay : Z) (s : Client) : Z * Client :=
  let id := nextTimer s in
  (id, set_nextTimer (id + 1)
         (set_timers (timers s ++ [mkTimer id (clock s + delay) cb]) s)).

(** [window.clearTimeout(id)]: nothing happens if no such timer is pending. *)
Definition clearTimeout (id : Z) (s : Client) : Client :=
  set_timers (filter (fun tm => negb (tid tm =? id)) (timers s)) s.

(** [if (ref.current) window.clearTimeout(ref.current)] *)
Definition clearTimeout_if (ref : option Z) (s : Client) : Client :=
  match ref with
  | Some id => clearTimeout id s
  | None => s
  end.

(** [ctrl.abort()] *)
Definition abort (ctrl : Z) (s : Client) : Client :=
  set_aborted (ctrl :: aborted s) s.

(** The call of [fetch] inside [fetchJson]: the request leaves. *)
Definition send (r : Request) (s : Client) : Client :=
  set_sent (sent s ++ [r]) s.

(* ------------------------------------------------------------------ *)
(** *** [fetchJson] *)

(** What the network gives back to one [fetch]: the promise rejects
    (transport failure, or the [AbortError] of a cancelled request), or
    a response arrives.  [text] and [json] are what [res.text()] and
    [res.json()] settle to, [None] when that promise rejects (for
    [json]: a body that does not parse). *)
Record Response : Type := mkResponse {
  status : Z;
  statusText : string;
  text : option string;
  json : option value
}.

Inductive FetchOutcome : Type :=
| Rejected (e : exn)
| Responded (res : Response).

(** [res.ok] *)
Definition ok (res : Response) : bool :=
  andb (200 <=? status res) (status res <=? 299).

(** White space as [String.prototype.trim] sees it: the WhiteSpace and
    LineTerminator code points of ECMAScript.  Strings are carried as
    the bytes of their UTF-8 encoding, so next to the six ASCII ones
    (U+0009 to U+000D, U+0020) the code points U+00A0, U+1680, U+2000
    to U+200A, U+2028, U+2029, U+202F, U+205F, U+3000 and U+FEFF are
    recognised by their two or three bytes. *)
Definition is_space (c : ascii) : bool :=
  let n := nat_of_ascii c in
  orb (Nat.eqb n 32) (andb (Nat.leb 9 n) (Nat.leb n 13)).

(** [C2 A0] is U+00A0. *)
Definition is_space2 (c1 c2 : ascii) : bool :=
  andb (Nat.eqb (nat_of_ascii c1) 194) (Nat.eqb (nat_of_ascii c2) 160).

(** [E1 9A 80] is U+1680; [E2 80 80] to [E2 80 8A] are U+2000 to
    U+200A; [E2 80 A8], [E2 80 A9], [E2 80 AF] are U+2028, U+2029,
    U+202F; [E2 81 9F] is U+205F; [E3 80 80] is U+3000; [EF BB BF] is
    U+FEFF. *)
Definition is_space3 (c1 c2 c3 : ascii) : bool :=
  let n1 := nat_of_ascii c1 in
  let n2 := nat_of_ascii c2 in
  let n3 := nat_of_ascii c3 in
  orb (andb (Nat.eqb n1 225) (andb (Nat.eqb n2 154) (Nat.eqb n3 128)))
 (orb (andb (Nat.eqb n1 226)
        (orb (andb (Nat.eqb n2 128)
                (orb (andb (Nat.leb 128 n3) (Nat.leb n3 138))
                (orb (Nat.eqb n3 168) (orb (Nat.eqb n3 169) (Nat.eqb n3 175)))))
             (andb (Nat.eqb n2 129) (Nat.eqb n3 159))))
 (orb (andb (Nat.eqb n1 227) (andb (Nat.eqb n2 128) (Nat.eqb n3 128)))
      (andb (Nat.eqb n1 239) (andb (Nat.eqb n2 187) (Nat.eqb n3 191))))).

(** The number of bytes of the white-space code point [s] begins with,
    [0] when it begins with none. *)
Definition space_width (s : string) : nat :=
  match s with
  | EmptyString => 0%nat
  | String.String c1 r1 =>
      if is_space c1 then 1%nat
      else
        match r1 with
        | EmptyString => 0%nat
        | String.String c2 r2 =>
            if is_space2 c1 c2 then 2%nat
            else
              match r2 with
              | EmptyString => 0%nat
              | String.String c3 _ => if is_space3 c1 c2 c3 then 3%nat else 0%nat
              end
        end
  end.

(** [s] without its first [skip] bytes and without the white space that
    follows them. *)
Fixpoint drop_spaces (skip : nat) (s : string) : string :=
  match s with
  | EmptyString => EmptyString
  | String.String _ rest =>
      match skip with
      | S k => drop_spaces k rest
      | O =>
          match space_width s with
          | O => s
          | S k => drop_spaces k rest
          end
      end
  end.

Definition trimStart (s : string) : string := drop_spaces 0 s.

(** A byte is kept as long as something other than white space follows
    or begins at it. *)
Fixpoint trimEnd (s : string) : string :=
  match s with
  | EmptyString => EmptyString
  | String.String c rest =>
      match trimStart s with
      | EmptyString => EmptyString
      | _ => String.String c (trimEnd rest)
      end
  end.

(** [s.trim()] *)
Definition trim (s : string) : string := trimEnd (trimStart s).

(** The template literal [`${n}`] of an integer. *)
Definition show_int (n : Z) : string := NilZero.string_of_int (Z.to_int n).

(** The part of [fetchJson] after [await fetch(...)]: a response that
    is not [ok] throws [status statusText text] trimmed, with the empty
    string for a body that cannot be read; an [ok] response yields its
    parsed body, or [null] when parsing fails. *)
Definition fetchJson (o : FetchOutcome) : completion value :=
  match o with
  | Rejected e => Throw e
  | Responded res =>
      if negb (ok res) then
        let txt := match text res with Some t => t | None => EmptyString end in
        Throw (Error (trim (show_int (status res) ++ " " ++ statusText res ++ " " ++ txt)))
      else
        match json res with
        | Some v => Normal v
        | None => Normal Null
        end
  end.

(* ------------------------------------------------------------------ *)
(** *** [pollStateOnce] and the mount effect *)

(** [setState((prev) => ({ ...prev, ...toMotorState(raw, prev) }))]:
    the three fields of the reconciled state overwrite those of [prev].
    Both call sites sit behind [if (raw)], where [toMotorState] cannot
    throw (see [toMotorState_total]). *)
Definition merge_payload (raw : value) (s : Client) : Client :=
  match toMotorState raw (Some (state s)) with
  | Normal m =>
      set_state {| power := power m; dir := dir m; speed := speed m |} s
  | Throw _ => s
  end.

(** [pollStateOnce] up to its [await]: cancel the previous controller,
    install a new one, issue [GET /api/state] under its signal. *)
Definition pollStateOnce_start (s : Client) : Client :=
  let s1 := match pollAbortRef s with
            | Some c => abort c s
            | None => s
            end in
  let ctrl := nextCtrl s1 in
  let s2 := set_pollAbortRef (Some ctrl) (set_nextCtrl (ctrl + 1) s1) in
  send (mkRequest GET "/api/state" None (Some ctrl)) s2.

(** The [finally] block of [pollStateOnce]. *)
Definition poll_finally (s : Client) : Client :=
  if negb (mountedRef s) then s
  else
    let next := if backoffRef s =? 0 then POLL_INTERVAL else backoffRef s in
    let s1 := clearTimeout_if (pollTimerRef s) s in
    let (id, s2) := setTimeout CbPoll next s1 in
    set_pollTimerRef (Some id) s2.

(** [pollStateOnce] from the point where [await fetchJson(...)] settles
    with [r]: the rest of the [try] block or the [catch] block, then the
    [finally] block. *)
Definition pollStateOnce_resume (r : completion value) (s : Client) : Client :=
  let s' :=
    match r with
    | Normal raw =>
        if negb (mountedRef s) then s
        else
          let s1 := if truthy raw then merge_payload raw s else s in
          let s2 := set_connected true s1 in
          let s3 := set_lastSeen (Some (clock s2)) s2 in
          let s4 := set_error None s3 in
          set_backoffRef 0 s4
    | Throw err =>
        if String.eqb (name err) "AbortError" then s   (* aborted - ignore *)
        else
          let s1 := set_connected false s in
          let s2 := set_error (Some "Failed to connect to ESP32") s1 in
          set_backoffRef
            (if backoffRef s2 =? 0 then 1000
             else Z.min (backoffRef s2 * 2) MAX_BACKOFF) s2
    end in
  poll_finally s'.

(** The body of the mount effect. *)
Definition mount (s : Client) : Client :=
  pollStateOnce_start (set_mountedRef true s).

(** The cleanup function the mount effect returns. *)
Definition unmount (s : Client) : Client :=
  let s1 := set_mountedRef false s in
  let s2 := match pollAbortRef s1 with
            | Some c => abort c s1
            | None => s1
            end in
  let s3 := clearTimeout_if (pollTimerRef s2) s2 in
  clearTimeout_if (speedTimerRef s3) s3.

(* ------------------------------------------------------------------ *)
(** *** [postCommand] and the handlers *)

(** [postCommand] up to its [await]; [body ? JSON.stringify(body) :
    undefined] keeps a truthy body only. *)
Definition postCommand_start (endpoint : string) (b : option value)
    (s : Client) : Client :=
  let s1 := set_loading true s in
  let s2 := set_error None s1 in
  let b' := match b with
            | Some v => if truthy v then Some v else None
            | None => None
            end in
  send (mkRequest POST endpoint b' None) s2.

(** [postCommand] from the point where [await fetchJson(...)] settles
    with [r]; the second component is what the returned promise settles
    to. *)
Definition postCommand_resume (r : completion value) (s : Client)
  : Client * completion value :=
  let s' :=
    match r with
    | Normal data =>
        let s1 := if truthy data then merge_payload data s else s in
        let s2 := set_connected true s1 in
        set_lastSeen (Some (clock s2)) s2
    | Throw err =>
        let s1 := set_connected false s in
        set_error
          (Some (if String.eqb (message err) EmptyString
                 then "ESP32 not reachable" else message err)) s1
    end in
  (if mountedRef s' then set_loading false s' else s', r).

Definition handlePower (on : bool) (s : Client) : Client :=
  postCommand_start "/api/power"
    (Some (Object [("power", String (if on then "ON" else "OFF"))])) s.

Definition toggleDirection (s : Client) : Client :=
  let newDir := if dir (state s) =? 1 then -1 else 1 in
  postCommand_start "/api/direction"
    (Some (Object [("direction",
                    String (if newDir =? 1 then "Forward" else "Reverse"))])) s.

(** [handleSpeedChange(val)]: the optimistic update, then the debounce
    timer is cancelled and started again. *)
Definition handleSpeedChange (val : number) (s : Client) : Client :=
  let st := state s in
  let s1 := set_state {| power := power st; dir := dir st; speed := val |} s in
  let s2 := clearTimeout_if (speedTimerRef s1) s1 in
  let (id, s3) := setTimeout (CbPostSpeed val) SPEED_DEBOUNCE_MS s2 in
  set_speedTimerRef (Some id) s3.

Definition handleRetry (s : Client) : Client :=
  let s1 := set_backoffRef 0 s in
  let s2 := clearTimeout_if (pollTimerRef s1) s1 in
  pollStateOnce_start s2.

(* ------------------------------------------------------------------ *)
(** *** The timer queue *)

(** What a timer does when it fires. *)
Definition run_callback (cb : Callback) (s : Client) : Client :=
  match cb with
  | CbPoll => pollStateOnce_start s
  | CbPostSpeed val =>
      postCommand_start "/api/speed" (Some (Object [("speed", Number val)])) s
  end.

Fixpoint insert_by_due (tm : Timer) (l : list Timer) : list Timer :=
  match l with
  | [] => [tm]
  | x :: rest =>
      if due tm <=? due x then tm :: l else x :: insert_by_due tm rest
  end.

Definition sort_by_due (l : list Timer) : list Timer :=
  fold_right insert_by_due [] l.

Definition is_due (t : Z) (tm : Timer) : bool := due tm <=? t.

(** Time passes until [t]: the timers due by then leave the queue and
    fire in the order of their due times, those due at the same time in
    the order they were set.  (No callback of this
    component sets a timer synchronously, so the queue does not grow
    while they run.) *)
Definition advance (t : Z) (s : Client) : Client :=
  let ready := sort_by_due (filter (is_due t) (timers s)) in
  let s1 := set_timers (filter (fun tm => negb (is_due t tm)) (timers s)) s in
  set_clock t (fold_left (fun acc tm => run_callback (callback tm) acc) ready s1).

(** A burst on the speed slider: each entry is the time elapsed since
    the previous event and the value the slider reports. *)
Fixpoint burst (inputs : list (Z * number)) (s : Client) : Client :=
  match inputs with
  | [] => s
  | (gap, v) :: rest =>
      burst rest (handleSpeedChange v (advance (clock s + gap) s))
  end.

(** The commands among the requests issued so far. *)
Definition is_command (r : Request) : bool :=
  match method r with POST => true | GET => false end.
Definition commands (s : Client) : list Request := filter is_command (sent s).

(** The outstanding poll request settles with the network outcome [o]. *)
Definition poll_settles (o : FetchOutcome) (s : Client) : Client :=
  pollStateOnce_resume (fetchJson o) s.

(** The outstanding command request settles with the network outcome [o]. *)
Definition command_settles (o : FetchOutcome) (s : Client)
  : Client * completion value :=
  postCommand_resume (fetchJson o) s.

(** Consecutive poll cycles, each started by the poll callback and
    settled by the given network outcome. *)
Fixpoint poll_cycles (outcomes : list FetchOutcome) (s : Client) : Client :=
  match outcomes with
  | [] => s
  | o :: rest => poll_cycles rest (poll_settles o (pollStateOnce_start s))
  end.

(* ------------------------------------------------------------------ *)
(** *** Runs of the component *)

(** What can happen to the mounted component: time passes, one of its
    requests settles, the operator acts, or the page goes away. *)
Inductive Event : Type :=
| Elapse (t : Z)
| PollSettles (o : FetchOutcome)
| CommandSettles (o : FetchOutcome)
| PressPower (on : bool)
| PressDirection
| MoveSlider (val : number)
| PressRetry
| Unmount.

Definition step (ev : Event) (s : Client) : Client :=
  match ev with
  | Elapse t => advance t s
  | PollSettles o => poll_settles o s
  | CommandSettles o => fst (command_settles o s)
  | PressPower on => handlePower on s
  | PressDirection => toggleDirection s
  | MoveSlider val => handleSpeedChange val s
  | PressRetry => handleRetry s
  | Unmount => unmount s
  end.

(** The component is mounted at time [t0] and the events follow. *)
Definition run (t0 : Z) (evs : list Event) : Client :=
  fold_left (fun s ev => step ev s) evs (mount (initial t0)).

(* ------------------------------------------------------------------ *)
(** *** Vocabulary of the specification *)

(** A string equal to ["on"] when the case of letters is ignored. *)
Definition on_ignoring_case (s : string) : Prop :=
  s = "on" \/ s = "On" \/ s = "oN" \/ s = "ON".

(** The raw power values the specification reads as ON. *)
Definition reads_as_on (p : value) : Prop :=
  p = Bool true \/ exists s, p = String s /\ on_ignoring_case s.

(** The component is mounted, and "retry now" is pressed while the
    first poll is still in flight. *)
Definition retried_while_polling : Client := handleRetry (mount (initial 0)).

(** The component is mounted with its first poll in flight. *)
Definition first_poll_in_flight : Client := mount (initial 0).

(** A 2xx response whose body is not JSON. *)
Definition garbled_200 : FetchOutcome :=
  Responded (mkResponse 200 "OK" (Some "<html>") None).

(** A 2xx response carrying a device state. *)
Definition good_200 : FetchOutcome :=
  Responded (mkResponse 200 "OK" None
               (Some (Object [("power", String "ON");
                              ("direction", String "forward");
                              ("speed", Number (Finite 60))]))).

(** A 500 response whose body cannot be read any more. *)
Definition broken_500 : FetchOutcome :=
  Responded (mkResponse 500 "Internal Server Error" None None).

(** The first poll succeeded, the second one started on the timer, and
    the component was unmounted while that second request was out. *)
Definition torn_down_while_polling : Client :=
  unmount (advance 3000 (poll_settles good_200 (mount (initial 0)))).

(** The component was unmounted while a power command was out. *)
Definition torn_down_while_commanding : Client :=
  unmount (handlePower true (poll_settles good_200 (mount (initial 0)))).

(** The pending debounce timers. *)
Definition is_speed_timer (tm : Timer) : bool :=
  match callback tm with
  | CbPostSpeed _ => true
  | CbPoll => false
  end.
Definition speed_timers (s : Client) : list Timer :=
  filter is_speed_timer (timers s).

(** The request [POST /api/speed] with body [{ speed: v }]. *)
Definition speed_command (v : number) : Request :=
  mkRequest POST "/api/speed" (Some (Object [("speed", Number v)])) None.

(** The command a timer issues when it fires. *)
Definition command_of (tm : Timer) : list Request :=
  match callback tm with
  | CbPostSpeed v => [speed_command v]
  | CbPoll => []
  end.

(** The timers of [l] fire one after the other. *)
Definition fire_all (l : list Timer) (s : Client) : Client :=
  fold_left (fun acc tm => run_callback (callback tm) acc) l s.

(** Exactly one debounce timer is pending: it carries [v], it is due
    one quiet period from now, and [speedTimerRef] holds its handle. *)
Definition debounce_armed (v : number) (s : Client) : Prop :=
  exists id,
    speedTimerRef s = Some id /\
    speed_timers s
      = [mkTimer id (clock s + SPEED_DEBOUNCE_MS) (CbPostSpeed v)].

(** Handles are handed out in increasing order: every pending timer
    has a handle below the next one. *)
Definition timers_fresh (s : Client) : Prop :=
  Forall (fun tm => tid tm < nextTimer s) (timers s).

(** A request that does not come back as a 2xx response. *)
Definition request_fails (o : FetchOutcome) : bool :=
  match o with
  | Rejected _ => true
  | Responded res => negb (ok res)
  end.

(** The first poll is in flight and the slider is moved to 10, then
    50 ms later to 40, then 60 ms later to 75. *)
Definition slider_10_40_75 : list (Z * number) :=
  [(0, Finite 10); (50, Finite 40); (60, Finite 75)].

(** A poll or command outcome that is a failure and not a
    cancellation: the transport rejects with something other than an
    [AbortError], or the response status is outside 2xx. *)
Definition is_failure (o : FetchOutcome) : bool :=
  match o with
  | Rejected e => negb (String.eqb (name e) "AbortError")
  | Responded res => negb (ok res)
  end.

(** A 2xx response whose body does not parse. *)
Definition is_unparseable (o : FetchOutcome) : bool :=
  match o with
  | Rejected _ => false
  | Responded res =>
      andb (ok res) (match json res with None => true | Some _ => false end)
  end.

(** The backoff delay after one more failure: the floor after a delay
    of 0, otherwise the double up to the ceiling. *)
Definition next_backoff (b : Z) : Z :=
  if b =? 0 then 1000 else Z.min (2 * b) 30000.

(** Between [s] and [s'] the next poll was scheduled [delay] ms from
    now: the timer [pollTimerRef] pointed to is cancelled, a new poll
    timer due at [clock s + delay] joins the queue, and [pollTimerRef]
    holds its handle. *)
Definition poll_scheduled_after (delay : Z) (s s' : Client) : Prop :=
  pollTimerRef s' = Some (nextTimer s) /\
  timers s' =
    (timers (clearTimeout_if (pollTimerRef s) s)
       ++ [mkTimer (nextTimer s) (clock s + delay) CbPoll])%list.

(** No poll was scheduled between [s] and [s']. *)
Definition nothing_scheduled (s s' : Client) : Prop :=
  pollTimerRef s' = pollTimerRef s /\ timers s' = timers s /\
  nextTimer s' = nextTimer s.

(** The shared cells a cancelled or dropped cycle must leave alone. *)
Definition cells_unchanged (s s' : Client) : Prop :=
  state s' = state s /\ connected s' = connected s /\ error s' = error s /\
  lastSeen s' = lastSeen s /\ backoffRef s' = backoffRef s.

(** The failure transition of the polling engine, as the specification
    words it. *)
Definition failure_transition (s s' : Client) : Prop :=
  connected s' = false /\
  (exists msg, error s' = Some msg) /\
  backoffRef s' = next_backoff (backoffRef s) /\
  poll_scheduled_after (next_backoff (backoffRef s)) s s'.

(** The success transition of the polling engine. *)
Definition success_transition (s s' : Client) : Prop :=
  connected s' = true /\
  lastSeen s' = Some (clock s) /\
  error s' = None /\
  backoffRef s' = 0 /\
  poll_scheduled_after POLL_INTERVAL s s'.

(* ------------------------------------------------------------------ *)
(** *** Further vocabulary: reconciler, runs, timers, requests *)

(** The capital of an ASCII small letter. *)
Definition upper_ascii (c : ascii) : ascii :=
  let n := nat_of_ascii c in
  if andb (Nat.leb 97 n) (Nat.leb n 122) then ascii_of_nat (n - 32) else c.

Definition is_small_letter (c : ascii) : bool :=
  let n := nat_of_ascii c in andb (Nat.leb 97 n) (Nat.leb n 122).

Fixpoint small_letters (w : string) : bool :=
  match w with
  | EmptyString => true
  | String.String a w' => andb (is_small_letter a) (small_letters w')
  end.

(** [s] spells the word [w] (given in small letters), each letter in
    either case. *)
Fixpoint spells (w s : string) : Prop :=
  match w, s with
  | EmptyString, EmptyString => True
  | String.String a w', String.String c s' =>
      (c = a \/ c = upper_ascii a) /\ spells w' s'
  | _, _ => False
  end.

(** The 256 code units of a byte string. *)
Definition all_ascii : list ascii := map ascii_of_nat (seq 0 256).

(** [lower_ascii c] is the small letter [a] exactly when [c] is [a] or
    its capital, as a test. *)
Definition lower_matches (c a : ascii) : bool :=
  if is_small_letter a then
    Bool.eqb (Ascii.eqb (lower_ascii c) a)
             (orb (Ascii.eqb c a) (Ascii.eqb c (upper_ascii a)))
  else true.

(** The events of [evs] happen to [s], in order. *)
Definition after (evs : list Event) (s : Client) : Client :=
  fold_left (fun acc ev => step ev acc) evs s.

(** What can still happen once the page is gone: time passes and
    outstanding requests settle. *)
Definition is_late (ev : Event) : bool :=
  match ev with
  | Elapse _ | PollSettles _ | CommandSettles _ => true
  | _ => false
  end.

(** The pending poll timers. *)
Definition poll_timers (s : Client) : list Timer :=
  filter (fun tm => negb (is_speed_timer tm)) (timers s).

(** The abort controllers of the poll requests among [l], in the
    order the requests were sent. *)
Definition poll_signals (l : list Request) : list Z :=
  flat_map (fun r => match method r, signal r with
                     | GET, Some c => [c]
                     | _, _ => []
                     end) l.

Definition is_aborted (s : Client) (c : Z) : bool :=
  existsb (Z.eqb c) (aborted s).

(** The poll requests whose controller has not been aborted. *)
Definition live_polls (s : Client) : list Z :=
  filter (fun c => negb (is_aborted s c)) (poll_signals (sent s)).

(** The poll request [pollStateOnce] issues under controller [c]. *)
Definition poll_request (c : Z) : Request :=
  mkRequest GET "/api/state" None (Some c).

(** A device that answers a command with the body it received. *)
Definition echo (r : Request) : FetchOutcome :=
  Responded (mkResponse 200 "OK" None (body r)).

(** A 2xx response whose parsed body is [raw]. *)
Definition answers (raw : value) : FetchOutcome :=
  Responded (mkResponse 200 "OK" None (Some raw)).

(** The payload an outcome delivers carries no [NaN] speed. *)
Definition speed_not_NaN (o : FetchOutcome) : bool :=
  match fetchJson o with
  | Normal raw =>
      match get raw "speed" with
      | Normal (Number NaN) => false
      | _ => true
      end
  | Throw _ => true
  end.

(** An event that keeps the speed inside its domain: the slider
    reports a value of [[0,100]], a response carries no [NaN] speed. *)
Definition keeps_speed_domain (ev : Event) : bool :=
  match ev with
  | MoveSlider val => in_speed_domain val
  | PollSettles o | CommandSettles o => speed_not_NaN o
  | _ => true
  end.

(** The slider values that reach the network: a value is sent when
    the next call comes a full quiet period or more after it, and the
    last value is always sent. *)
Fixpoint flushed (v : number) (rest : list (Z * number)) : list number :=
  match rest with
  | [] => [v]
  | (gap, w) :: rest' =>
      if SPEED_DEBOUNCE_MS <=? gap then v :: flushed w rest'
      else flushed w rest'
  end.

(** Two numbers that are the same number. *)
Definition same_number (a b : number) : Prop :=
  match a, b with
  | Finite p, Finite q => (p == q)%Q
  | PosInf, PosInf | NegInf, NegInf | NaN, NaN => True
  | _, _ => False
  end.

(** A state as the data model wants it. *)
Definition dir_valid (s : Client) : Prop :=
  dir (state s) = 1 \/ dir (state s) = -1.

Definition backoff_in_range (s : Client) : Prop :=
  backoffRef s = 0 \/ 1000 <= backoffRef s <= MAX_BACKOFF.

Definition seen_when_connected (s : Client) : Prop :=
  connected s = true -> exists t, lastSeen s = Some t.

Definition cells_fine (s : Client) : Prop :=
  dir_valid s /\ seen_when_connected s /\ backoff_in_range s.

(** What the network side of the component consists of. *)
Definition wire (s : Client) : list Request * Z * list Z * option Z :=
  (sent s, nextCtrl s, aborted s, pollAbortRef s).

(** The timer queue and the two handles kept in refs. *)
Definition clockwork (s : Client) : list Timer * option Z * option Z :=
  (timers s, pollTimerRef s, speedTimerRef s).

(** Every poll request but the one under the current controller has
    had its controller aborted; controllers are handed out once. *)
Definition single_flight (s : Client) : Prop :=
  Forall (fun c => c < nextCtrl s) (poll_signals (sent s)) /\
  NoDup (poll_signals (sent s)) /\
  forall c, In c (poll_signals (sent s)) ->
            is_aborted s c = true \/ pollAbortRef s = Some c.

(** [dirLabel]: [state.dir === 1 ? "Forward" : "Reverse"]. *)
Definition dirLabel (s : Client) : string :=
  if dir (state s) =? 1 then "Forward" else "Reverse".

(** [powerLabel]: [state.power ? "ON" : "OFF"]. *)
Definition powerLabel (s : Client) : string :=
  if power (state s) then "ON" else "OFF".

(** The caption of the direction button:
    [state.dir === 1 ? "Set Reverse" : "Set Forward"]. *)
Definition toggle_caption (s : Client) : string :=
  if dir (state s) =? 1 then "Set Reverse" else "Set Forward".

(** No white space begins at [c]: [c] is neither an ASCII space nor the
    first byte of a longer one. *)
Definition opens_no_space (c : ascii) : bool :=
  let n := nat_of_ascii c in
  andb (negb (is_space c))
       (negb (orb (Nat.eqb n 194) (orb (Nat.eqb n 225) (orb (Nat.eqb n 226)
             (orb (Nat.eqb n 227) (Nat.eqb n 239)))))).

(** No white space begins anywhere in [s]. *)
Fixpoint has_no_space (s : string) : bool :=
  match s with
  | EmptyString => true
  | String.String c rest => andb (opens_no_space c) (has_no_space rest)
  end.

(** The queue [l] after [if (ref) window.clearTimeout(ref)]. *)
Definition cleared (ref : option Z) (l : list Timer) : list Timer :=
  match ref with
  | Some id => filter (fun tm => negb (tid tm =? id)) l
  | None => l
  end.

(** At most one timer in [l], and then the one [ref] holds. *)
Definition at_most_ref (l : list Timer) (ref : option Z) : Prop :=
  l = [] \/ exists tm, l = [tm] /\ ref = Some (tid tm).

(** At most one poll timer and at most one debounce timer are pending,
    each under the handle its ref holds. *)
Definition timers_tidy (s : Client) : Prop :=
  at_most_ref (poll_timers s) (pollTimerRef s) /\
  at_most_ref (speed_timers s) (speedTimerRef s).

(** A run in which the slider is moved, a poll answers and the page
    is left before the quiet period ends. *)
Definition leave_mid_burst : list Event :=
  [PollSettles good_200; MoveSlider (Finite 30); Elapse 100;
   MoveSlider (Finite 55); Elapse 200].

(** What may still arrive after that. *)
Definition stragglers : list Event :=
  [PollSettles broken_500; Elapse 10000; CommandSettles good_200;
   PollSettles good_200; Elapse 100000].

(** The cells the read path and the write path both write. *)
Definition core (s : Client) : MotorState * bool * option Z * Z :=
  (state s, connected s, lastSeen s, backoffRef s).

(** A slow start of the slider: 10, then 200 ms later 40, then 60 ms
    later 75. *)
Definition slider_slow_then_fast : list (Z * number) :=
  [(0, Finite 10); (200, Finite 40); (60, Finite 75)].

(** A payload without a speed. *)
Definition payload_power_only : value := Object [("power", String "ON")].





End MotorControl.

(* ================================================================== *)
(** ** The plant-health page: [analyzeImage] *)
(* ================================================================== *)

Module PlantHealth.

Import Js.

Section AnalyzeImage.

(** [String(v)], the conversion [new Error(v)] applies to its argument.
    How values other than strings print plays no part below. *)
Variable ToString : value -> string.

Record File : Type := mkFile { mimeType : string; size : Z }.

(** The [useState] cells of the page. *)
Record Page : Type := mkPage {
  imageFile : option File;
  analysis : value;
  loading : bool;
  error : string
}.

(** What the network gives back to one [fetch] of the loop: the
    promise rejects, or a response arrives with a status and with what
    [response.json()] settles to. *)
Inductive Attempt : Type :=
| FetchRejected (e : exn)
| FetchResponded (status : Z) (body : completion value).

(** [response.ok] *)
Definition ok (status : Z) : bool := andb (200 <=? status) (status <=? 299).

(** [v?.k] *)
Definition opt_get (v : value) (k : string) : value :=
  match v with
  | Undefined | Null => Undefined
  | Object fs => lookup k fs
  | _ => Undefined
  end.

(** [v?.[0]] *)
Definition opt_first (v : value) : value :=
  match v with
  | Undefined | Null => Undefined
  | Array (x :: _) => x
  | Array [] => Undefined
  | Object fs => lookup "0" fs
  | String (String.String c _) => String (String.String c EmptyString)
  | _ => Undefined
  end.

(** [result.candidates?.[0]?.content?.parts?.[0]?.text] *)
Definition extract_text (result : value) : completion value :=
  match get result "candidates" with
  | Throw e => Throw e
  | Normal cs =>
      Normal (opt_get (opt_first (opt_get (opt_get (opt_first cs) "content") "parts"))
                      "text")
  end.

(** [err.error?.message || "An error occurred during analysis."] *)
Definition error_message (err : value) : completion string :=
  match get err "error" with
  | Throw e => Throw e
  | Normal er =>
      let m := opt_get er "message" in
      Normal (if truthy m then ToString m
              else "An error occurred during analysis.")
  end.

(** How one pass through the inner [try] block ends: with [return]
    after [setAnalysis(text)], in the 429 branch, or with a throw that
    the inner [catch] receives. *)
Inductive Step : Type :=
| Done (text : value)
| Throttled
| Thrown (e : exn).

Definition try_body (a : Attempt) : Step :=
  match a with
  | FetchRejected e => Thrown e
  | FetchResponded status body =>
      if ok status then
        match body with
        | Throw e => Thrown e
        | Normal result =>
            match extract_text result with
            | Throw e => Thrown e
            | Normal text =>
                if truthy text then Done text
                else Thrown (Error "Invalid response structure from API.")
            end
        end
      else if status =? 429 then Throttled
      else
        match body with
        | Throw e => Thrown e
        | Normal err =>
            match error_message err with
            | Throw e => Thrown e
            | Normal m => Thrown (Error m)
            end
        end
  end.

(** What the loop did: the number of requests made, the delays waited
    in order, and how it ended. *)
Record Run : Type := mkRun {
  attempts : nat;
  waits : list Z;
  outcome : completion value
}.

Definition after_wait (d : Z) (r : Run) : Run :=
  mkRun (S (attempts r)) (d :: waits r) (outcome r).

(** [for (let i = 0; i < 5; i++) { ... }] followed by the final
    [throw]; [fuel] is [5 - i], the number of passes left, and [net]
    gives the outcome of the request of each pass. *)
Fixpoint retry_loop (fuel i : nat) (delay : Z) (net : nat -> Attempt) : Run :=
  match fuel with
  | O => mkRun 0 [] (Throw (Error "API request failed after multiple retries."))
  | S fuel' =>
      match try_body (net i) with
      | Done text => mkRun 1 [] (Normal text)
      | Throttled =>
          after_wait delay (retry_loop fuel' (S i) (delay * 2) net)
      | Thrown e =>
          if Nat.eqb i 4 then mkRun 1 [] (Throw e)
          else after_wait delay (retry_loop fuel' (S i) (delay * 2) net)
      end
  end.

(** The outer [catch]. *)
Definition surface (e : exn) (p : Page) : Page :=
  mkPage (imageFile p) (analysis p) false
    (if String.eqb (message e) EmptyString
     then "Failed to analyze image. Please try again." else message e).

(** [analyzeImage]: [b64] is what [toBase64(imageFile)] settles to (a
    rejection carries the reader's event, which has no message).  The
    second component is the run of the retry loop, if it was reached. *)
Definition analyzeImage (b64 : completion string) (net : nat -> Attempt)
    (p : Page) : Page * option Run :=
  match imageFile p with
  | None =>
      (mkPage (imageFile p) (analysis p) (loading p)
         "Please upload an image first.", None)
  | Some _ =>
      let p1 := mkPage (imageFile p) (String EmptyString) true EmptyString in
      match b64 with
      | Throw e => (surface e p1, None)
      | Normal _ =>
          let r := retry_loop 5 0 1000 net in
          match outcome r with
          | Normal text =>
              (mkPage (imageFile p1) text false (error p1), Some r)
          | Throw e => (surface e p1, Some r)
          end
      end
  end.

End AnalyzeImage.

(** A request that is throttled or does not get through. *)
Definition is_throttled_or_transport (a : Attempt) : bool :=
  match a with
  | FetchRejected _ => true
  | FetchResponded status _ => status =? 429
  end.

(** A page with an image chosen and nothing analysed yet. *)
Definition page_with_image : Page :=
  mkPage (Some (mkFile "image/png" 1000)) (String EmptyString) false EmptyString.

(** Every request is answered with status 429. *)
Definition always_throttled (i : nat) : Attempt :=
  FetchResponded 429 (Throw (Error "unread")).

(** [String(v)] on the values met in the examples. *)
Definition show (v : value) : string :=
  match v with
  | String s => s
  | _ => "[object Object]"
  end.

(** The delay waited after the pass of index [k]. *)
Definition kth_delay (k : nat) : Z := 1000 * 2 ^ Z.of_nat k.

(** The analysis ended without a text: the loop was not reached, or
    it ended with a throw. *)
Definition gave_up (r : option Run) : Prop :=
  match r with
  | None => True
  | Some run => exists e, outcome run = Throw e
  end.

(** The number of requests made. *)
Definition requests (r : option Run) : nat :=
  match r with
  | None => O
  | Some run => attempts run
  end.

(** The delays waited. *)
Definition delays (r : option Run) : list Z :=
  match r with
  | None => []
  | Some run => waits run
  end.

(* ------------------------------------------------------------------ *)
(** *** Choosing an image *)

(** The page together with the preview URL (a [useState] cell that
    starts empty). *)
Record View : Type := mkView {
  cells : Page;
  imageUrl : string
}.

Definition initial_view : View :=
  mkView (mkPage None (String EmptyString) false EmptyString) EmptyString.

(** [handleImageChange(e)]: [files] is [e.target.files], [blob] the
    URL [URL.createObjectURL] mints when it is called. *)
Definition handleImageChange (files : list File) (blob : string) (v : View)
  : View :=
  match files with
  | [] => v
  | file :: _ =>
      if 2 * 1024 * 1024 <? size file then
        mkView (mkPage (imageFile (cells v)) (analysis (cells v))
                  (loading (cells v))
                  "File is too large. Please upload an image under 2MB.")
               (imageUrl v)
      else
        mkView (mkPage (Some file) (String EmptyString) (loading (cells v))
                  EmptyString)
               blob
  end.

(** [handleDrop(e)]: [files] is [e.dataTransfer.files]. *)
Definition handleDrop (files : list File) (blob : string) (v : View) : View :=
  match files with
  | [] => v
  | file :: _ =>
      if String.prefix "image/" (mimeType file) then
        if 2 * 1024 * 1024 <? size file then
          mkView (mkPage (imageFile (cells v)) (analysis (cells v))
                    (loading (cells v))
                    "File is too large. Please upload an image under 2MB.")
                 (imageUrl v)
        else
          mkView (mkPage (Some file) (String EmptyString) (loading (cells v))
                    EmptyString)
                 blob
      else v
  end.

(** What happens on the page: a file is picked, a file is dropped,
    an analysis runs to its end, the error banner is closed. *)
Inductive PageEvent : Type :=
| Pick (files : list File) (blob : string)
| Dropped (files : list File) (blob : string)
| Analyze (b64 : completion string) (net : nat -> Attempt)
| CloseError.

Definition page_step (ToString : value -> string) (ev : PageEvent) (v : View)
  : View :=
  match ev with
  | Pick files blob => handleImageChange files blob v
  | Dropped files blob => handleDrop files blob v
  | Analyze b64 net =>
      mkView (fst (analyzeImage ToString b64 net (cells v))) (imageUrl v)
  | CloseError =>
      mkView (mkPage (imageFile (cells v)) (analysis (cells v))
                (loading (cells v)) EmptyString)
             (imageUrl v)
  end.

Definition page_run (ToString : value -> string) (evs : list PageEvent) : View :=
  fold_left (fun v ev => page_step ToString ev v) evs initial_view.

(** The size limit of the handlers, in bytes. *)
Definition MAX_IMAGE_BYTES : Z := 2097152.

Definition image_within_limit (v : View) : Prop :=
  match imageFile (cells v) with
  | None => True
  | Some f => size f <= MAX_IMAGE_BYTES
  end.

(** [k] delays that start at [delay] and double. *)
Definition delays_from (delay : Z) (k : nat) : list Z :=
  map (fun j => delay * 2 ^ Z.of_nat j) (seq 0 k).

(** The fifth request is refused with status [status] and the API's
    message [m]. *)
Definition api_refusal (status : Z) (m : string) : Attempt :=
  FetchResponded status
    (Normal (Object [("error", Object [("message", String m)])])).

(** The first file of a pick or a drop. *)
Definition offered (ev : PageEvent) : option (File * string) :=
  match ev with
  | Pick (file :: _) blob | Dropped (file :: _) blob => Some (file, blob)
  | _ => None
  end.

(** The delays of the passes [0 .. n-1]. *)
Definition first_delays (n : nat) : list Z := map kth_delay (seq 0 n).

(** The sum of the delays waited. *)
Definition total_wait (r : option Run) : Z := fold_right Z.add 0 (delays r).

(** The first [k] requests fail (throttled or thrown) and request [k]
    brings a text. *)
Definition first_success (ToString : value -> string) (net : nat -> Attempt)
    (k : nat) (t : value) : Prop :=
  try_body ToString (net k) = Done t /\
  forall j, (j < k)%nat -> forall t', try_body ToString (net j) <> Done t'.

(** None of the five requests brings a text. *)
Definition all_fail (ToString : value -> string) (net : nat -> Attempt) : Prop :=
  forall j, (j < 5)%nat -> forall t', try_body ToString (net j) <> Done t'.

(** The first two requests are throttled, the third brings a text. *)
Definition third_time_lucky (i : nat) : Attempt :=
  match i with
  | 2%nat =>
      FetchResponded 200
        (Normal (Object [("candidates",
           Array [Object [("content",
             Object [("parts", Array [Object [("text", String "Healthy")]])])]])]))
  | _ => FetchResponded 429 (Throw (Error "unread"))
  end.

(** Four requests are throttled and the fifth is refused with a
    message of the API. *)
Definition refused_at_last (i : nat) : Attempt :=
  match i with
  | 4%nat =>
      FetchResponded 400
        (Normal (Object [("error", Object [("message", String "Bad image")])]))
  | _ => FetchResponded 429 (Throw (Error "unread"))
  end.

(** [reader.result.split(",")]: the pieces of [s] between commas. *)
Fixpoint split_comma (s : string) : list string :=
  match s with
  | EmptyString => [EmptyString]
  | String.String c rest =>
      if Ascii.eqb c ","%char then EmptyString :: split_comma rest
      else
        match split_comma rest with
        | [] => [String.String c EmptyString]
        | piece :: pieces => String.String c piece :: pieces
        end
  end.

(** What [toBase64] resolves with when the reader loads the data URL
    [dataUrl]: [reader.result.split(",")[1]], [None] for [undefined]. *)
Definition toBase64 (dataUrl : string) : option string :=
  nth_error (split_comma dataUrl) 1.

Fixpoint has_comma (s : string) : bool :=
  match s with
  | EmptyString => false
  | String.String c rest => orb (Ascii.eqb c ","%char) (has_comma rest)
  end.

End PlantHealth.

(* ================================================================== *)
(** ** The navigation drawer *)
(* ================================================================== *)

Module Navigation.

Inductive Icon : Type :=
| LayoutDashboard | FileText | Leaf | Power | Plane | Factory | Settings.

Record NavItem : Type := mkNavItem {
  path : string;
  icon : Icon;
  label : string
}.

Definition navItems : list NavItem :=
  [ mkNavItem "/" LayoutDashboard "Dashboard";
    mkNavItem "/schemes" FileText "Schemes";
    mkNavItem "/crops" Leaf "Crop Advisor";
    mkNavItem "/plant" Leaf "Plant Health";
    mkNavItem "/motor" Power "Motor Control";
    mkNavItem "/services" Plane "Services";
    mkNavItem "/factories" Factory "Factories";
    mkNavItem "/settings" Settings "Settings" ].

(** [location.pathname === item.path] *)
Definition isActive (pathname : string) (item : NavItem) : bool :=
  String.eqb pathname (path item).

(** The links drawn in the active style at [pathname]. *)
Definition active_items (pathname : string) : list NavItem :=
  filter (isActive pathname) navItems.

(** What the operator can do with the drawer: press the hamburger
    button, or press the overlay, the close button, the logo, a link
    or the logout link. *)
Inductive DrawerEvent : Type :=
| Hamburger
| Overlay
| CloseButton
| LogoLink
| ItemLink (item : NavItem)
| LogoutLink.

(** The [onClick] handlers on [isOpen]. *)
Definition drawer_step (ev : DrawerEvent) (isOpen : bool) : bool :=
  match ev with
  | Hamburger => true
  | _ => false
  end.

(** Where a click takes the router: the [to] of the link, or nowhere. *)
Definition navigate (ev : DrawerEvent) (pathname : string) : string :=
  match ev with
  | LogoLink => "/"
  | ItemLink item => path item
  | LogoutLink => "/auth"
  | _ => pathname
  end.

End Navigation.

(* ================================================================== *)
(** ** Properties of the motor controller *)
(* ================================================================== *)

Module MotorControlProofs.

Import Js MotorControl.

(* ------------------------------------------------------------------ *)
(** *** The reconciler *)

Section Reconciler.

Lemma get_nonnullish (raw : value) (k : string) :
  raw <> Undefined -> raw <> Null -> exists v, get raw k = Normal v.
Proof.
  intros Hu Hn; destruct raw; simpl; try (eexists; reflexivity); congruence.
Qed.

Lemma get_normal_all (raw : value) (k k' : string) (v : value) :
  get raw k = Normal v -> exists v', get raw k' = Normal v'.
Proof.
  destruct raw; simpl; intros H; try discriminate; eexists; reflexivity.
Qed.

(** [toMotorState] never throws on a payload other than [null] and
    [undefined]; the component only calls it behind [if (raw)]. *)
Lemma toMotorState_total (raw : value) (prev : option MotorState) :
  raw <> Undefined -> raw <> Null ->
  exists m, toMotorState raw prev = Normal m.
Proof.
  intros Hu Hn. unfold toMotorState.
  destruct (get_nonnullish raw "power" Hu Hn) as [p ->].
  destruct (get_nonnullish raw "direction" Hu Hn) as [d ->].
  destruct (get_nonnullish raw "speed" Hu Hn) as [sp ->].
  eexists; reflexivity.
Qed.

Lemma truthy_nonnullish (raw : value) :
  truthy raw = true -> raw <> Undefined /\ raw <> Null.
Proof. destruct raw; simpl; intros H; split; congruence. Qed.

(** The result of [toMotorState] in terms of the three fields read. *)
Lemma toMotorState_fields (raw p d sp : value) (prev : option MotorState) :
  get raw "power" = Normal p ->
  get raw "direction" = Normal d ->
  get raw "speed" = Normal sp ->
  toMotorState raw prev =
    Normal {| power := powerVal p; dir := dirVal d; speed := speedVal sp prev |}.
Proof. intros Hp Hd Hs; unfold toMotorState; rewrite Hp, Hd, Hs; reflexivity. Qed.

(** The clamp [Math.max(0, Math.min(100, x))] does its work on every
    number but [NaN], the infinities included. *)
Lemma clamp_in_speed_domain (x : number) :
  isNaN x = false ->
  in_speed_domain (Math_max (Finite 0) (Math_min (Finite 100) x)) = true.
Proof.
  destruct x as [q | | |]; simpl; intros HN; try discriminate; try reflexivity.
  destruct (Qle_bool 100 q) eqn:Hhi; simpl.
  - reflexivity.
  - destruct (Qle_bool 0 q) eqn:Hlo; simpl.
    + rewrite Hlo; simpl.
      apply Qle_bool_iff. apply Qlt_le_weak, Qnot_le_lt.
      intros Hc; apply Qle_bool_iff in Hc; congruence.
    + reflexivity.
Qed.

(** [NaN] goes through the clamp untouched. *)
Lemma clamp_NaN : Math_max (Finite 0) (Math_min (Finite 100) NaN) = NaN.
Proof. reflexivity. Qed.

(** With [NaN] set aside and a previous speed inside the domain, the
    reconciled speed is inside the domain. *)
Lemma toMotorState_speed_in_domain (raw sp : value) (prev : option MotorState) :
  get raw "speed" = Normal sp ->
  sp <> Number NaN ->
  (forall p, prev = Some p -> in_speed_domain (speed p) = true) ->
  exists m, toMotorState raw prev = Normal m /\ in_speed_domain (speed m) = true.
Proof.
  intros Hs Hnan Hprev.
  destruct (get_normal_all raw "speed" "power" sp Hs) as [p Hp].
  destruct (get_normal_all raw "speed" "direction" sp Hs) as [d Hd].
  rewrite (toMotorState_fields raw p d sp prev Hp Hd Hs).
  eexists; split; [reflexivity|]. simpl.
  destruct sp as [ | | b | x | t | l | fs ]; simpl;
    try (destruct prev as [q|]; [apply (Hprev q eq_refl) | reflexivity]).
  apply clamp_in_speed_domain. destruct x; try reflexivity. congruence.
Qed.

Lemma lower_ascii_o (c : ascii) :
  lower_ascii c = "o"%char <-> c = "o"%char \/ c = "O"%char.
Proof.
  destruct c as [[] [] [] [] [] [] [] []]; vm_compute;
    (split; [intros H; try discriminate H; auto
            | intros [H | H]; try discriminate H; reflexivity]).
Qed.

Lemma lower_ascii_n (c : ascii) :
  lower_ascii c = "n"%char <-> c = "n"%char \/ c = "N"%char.
Proof.
  destruct c as [[] [] [] [] [] [] [] []]; vm_compute;
    (split; [intros H; try discriminate H; auto
            | intros [H | H]; try discriminate H; reflexivity]).
Qed.

Lemma toLowerCase_on (s : string) :
  toLowerCase s = "on" <-> on_ignoring_case s.
Proof.
  unfold on_ignoring_case. split.
  - destruct s as [| c1 [| c2 [| c3 r]]]; simpl; intros H; try discriminate H.
    injection H as H1 H2.
    apply lower_ascii_o in H1. apply lower_ascii_n in H2.
    destruct H1 as [-> | ->], H2 as [-> | ->]; auto.
  - intros [-> | [-> | [-> | ->]]]; reflexivity.
Qed.

Lemma powerVal_true_iff (p : value) : powerVal p = true <-> reads_as_on p.
Proof.
  unfold powerVal, reads_as_on. split.
  - intros H. apply orb_true_iff in H. destruct H as [H | H].
    + left. destruct p as [ | | [] | | | | ]; try discriminate H; reflexivity.
    + right. apply orb_true_iff in H.
      destruct p as [ | | | | s | | ]; try (destruct H; discriminate).
      exists s; split; [reflexivity|].
      destruct H as [H | H]; apply String.eqb_eq in H.
      * apply toLowerCase_on; exact H.
      * subst s; unfold on_ignoring_case; auto.
  - intros [-> | (s & -> & Hs)]; [reflexivity|].
    apply toLowerCase_on in Hs. rewrite Hs. reflexivity.
Qed.






(** C8.  For every raw payload whose power field reads as [p] and every
    optional previous state, the reconciler returns a state whose power
    is true exactly when [p] is the boolean true or a string equal to
    ["on"] up to case; any other [p], [undefined] included, gives
    false, and the previous state plays no part in it. *)
Theorem power_true_iff_reads_as_on (raw p : value) (prev : option MotorState) :
  get raw "power" = Normal p ->
  exists m,
    toMotorState raw prev = Normal m /\
    (power m = true <-> reads_as_on p) /\
    (~ reads_as_on p -> power m = false) /\
    (forall prev', exists m',
        toMotorState raw prev' = Normal m' /\ power m' = power m).
Proof.
  intros Hp.
  destruct (get_normal_all raw "power" "direction" p Hp) as [d Hd].
  destruct (get_normal_all raw "power" "speed" p Hp) as [sp Hs].
  exists {| power := powerVal p; dir := dirVal d; speed := speedVal sp prev |}.
  split; [apply toMotorState_fields; assumption|]. simpl.
  split; [apply powerVal_true_iff|].
  split.
  - intros Hoff. destruct (powerVal p) eqn:E; [|reflexivity].
    apply powerVal_true_iff in E. contradiction.
  - intros prev'. eexists. split.
    + apply toMotorState_fields; eassumption.
    + reflexivity.
Qed.

Lemma power_true_iff_reads_as_on_witness :
  get (Object [("power", String "oN"); ("speed", Number (Finite 40))]) "power"
    = Normal (String "oN") /\
  exists m,
    toMotorState (Object [("power", String "oN"); ("speed", Number (Finite 40))])
      (Some {| power := false; dir := -1; speed := Finite 7 |}) = Normal m /\
    (power m = true <-> reads_as_on (String "oN")) /\
    (~ reads_as_on (String "oN") -> power m = false) /\
    (forall prev', exists m',
        toMotorState (Object [("power", String "oN"); ("speed", Number (Finite 40))])
          prev' = Normal m' /\ power m' = power m).
Proof.
  split; [reflexivity|].
  apply (power_true_iff_reads_as_on
           (Object [("power", String "oN"); ("speed", Number (Finite 40))])
           (String "oN")).
  reflexivity.
Defined.

(** C9.  For every raw payload whose speed field [sp] is absent or is
    not a number, the reconciled speed is the speed of the previous
    state when there is one, and 100 when there is none. *)
Theorem speed_falls_back_to_previous (raw sp : value) :
  get raw "speed" = Normal sp ->
  is_number sp = false ->
  (forall p, exists m,
      toMotorState raw (Some p) = Normal m /\ speed m = speed p) /\
  (exists m, toMotorState raw None = Normal m /\ speed m = Finite 100).
Proof.
  intros Hs Hnum.
  destruct (get_normal_all raw "speed" "power" sp Hs) as [p Hp].
  destruct (get_normal_all raw "speed" "direction" sp Hs) as [d Hd].
  split; [intros q|];
    (eexists; split; [apply toMotorState_fields; eassumption|]);
    destruct sp; simpl in *; try reflexivity; discriminate.
Qed.

Lemma speed_falls_back_to_previous_witness :
  get (Object [("power", Bool true); ("speed", String "55")]) "speed"
    = Normal (String "55") /\
  is_number (String "55") = false /\
  (forall p, exists m,
      toMotorState (Object [("power", Bool true); ("speed", String "55")]) (Some p)
        = Normal m /\ speed m = speed p) /\
  (exists m,
      toMotorState (Object [("power", Bool true); ("speed", String "55")]) None
        = Normal m /\ speed m = Finite 100).
Proof.
  split; [reflexivity|]. split; [reflexivity|].
  apply (speed_falls_back_to_previous
           (Object [("power", Bool true); ("speed", String "55")]) (String "55"));
    reflexivity.
Defined.

End Reconciler.

(* ------------------------------------------------------------------ *)
(** *** The polling engine *)

Section Polling.

(** What [fetchJson] throws for a response outside 2xx is a plain
    [Error], never a cancellation. *)
Lemma fetchJson_failure (o : FetchOutcome) :
  is_failure o = true ->
  exists e, fetchJson o = Throw e /\ String.eqb (name e) "AbortError" = false.
Proof.
  destruct o as [e | res]; simpl; intros H.
  - exists e; split; [reflexivity|]. now apply negb_true_iff.
  - rewrite H. eexists; split; reflexivity.
Qed.

(** A 2xx response whose body does not parse is handed on as [null]. *)
Lemma fetchJson_unparseable (o : FetchOutcome) :
  is_unparseable o = true -> fetchJson o = Normal Null.
Proof.
  destruct o as [e | res]; simpl; intros H; [discriminate|].
  apply andb_true_iff in H. destruct H as [Hok Hj].
  rewrite Hok; simpl. destruct (json res); [discriminate | reflexivity].
Qed.

(** The code's own backoff update is [next_backoff]. *)
Lemma backoff_update (b : Z) :
  (if b =? 0 then 1000 else Z.min (b * 2) MAX_BACKOFF) = next_backoff b.
Proof.
  unfold next_backoff, MAX_BACKOFF. destruct (b =? 0); [reflexivity|].
  f_equal; lia.
Qed.

Lemma next_backoff_nonzero (b : Z) : next_backoff b <> 0.
Proof.
  unfold next_backoff. destruct (b =? 0) eqn:E; [lia|].
  apply Z.eqb_neq in E. lia.
Qed.

(** The catch branch for an error that is not a cancellation. *)
Lemma resume_failure (e : exn) (s : Client) :
  String.eqb (name e) "AbortError" = false ->
  let s' := pollStateOnce_resume (Throw e) s in
  connected s' = false /\
  error s' = Some "Failed to connect to ESP32" /\
  backoffRef s' = next_backoff (backoffRef s) /\
  state s' = state s /\
  mountedRef s' = mountedRef s /\
  (mountedRef s = true ->
   poll_scheduled_after (next_backoff (backoffRef s)) s s') /\
  (mountedRef s = false -> nothing_scheduled s s').
Proof.
  intros Hn. unfold pollStateOnce_resume. rewrite Hn.
  unfold poll_finally, poll_scheduled_after, nothing_scheduled.
  destruct s as [st ld er cn ls bo pt spt pa mo ck tms nt ab nc sn]; simpl.
  rewrite backoff_update.
  destruct mo; simpl.
  - destruct (next_backoff bo =? 0) eqn:E.
    + apply Z.eqb_eq in E. destruct (next_backoff_nonzero bo E).
    + destruct pt; simpl; repeat split; intros; try discriminate; reflexivity.
  - repeat split; intros; try discriminate; reflexivity.
Qed.

(** The try branch while mounted. *)
Lemma resume_success (raw : value) (s : Client) :
  mountedRef s = true ->
  let s' := pollStateOnce_resume (Normal raw) s in
  success_transition s s' /\
  (truthy raw = false -> state s' = state s) /\
  mountedRef s' = true.
Proof.
  intros Hm. unfold pollStateOnce_resume. rewrite Hm. simpl.
  unfold poll_finally, success_transition, poll_scheduled_after, merge_payload.
  destruct (truthy raw) eqn:Ht.
  - destruct (toMotorState raw (Some (state s))) as [m | e];
    destruct s as [st ld er cn ls bo pt spt pa mo ck tms nt ab nc sn];
    simpl in *; subst mo; simpl; destruct pt; simpl;
    repeat split; intros; try discriminate; reflexivity.
  - destruct s as [st ld er cn ls bo pt spt pa mo ck tms nt ab nc sn];
    simpl in *; subst mo; simpl; destruct pt; simpl;
    repeat split; intros; try discriminate; reflexivity.
Qed.

(** Once torn down, a response that settles normally is dropped. *)
Lemma resume_success_unmounted (raw : value) (s : Client) :
  mountedRef s = false -> pollStateOnce_resume (Normal raw) s = s.
Proof.
  intros Hm. unfold pollStateOnce_resume, poll_finally. rewrite Hm. simpl.
  rewrite Hm. reflexivity.
Qed.

(** The catch branch for a cancellation, and the [finally] block
    after it. *)
Lemma resume_aborted (e : exn) (s : Client) :
  String.eqb (name e) "AbortError" = true ->
  let s' := pollStateOnce_resume (Throw e) s in
  cells_unchanged s s' /\
  (mountedRef s = false -> s' = s) /\
  (mountedRef s = true ->
   poll_scheduled_after
     (if backoffRef s =? 0 then POLL_INTERVAL else backoffRef s) s s').
Proof.
  intros Hn. unfold pollStateOnce_resume. rewrite Hn.
  unfold poll_finally, cells_unchanged, poll_scheduled_after.
  destruct s as [st ld er cn ls bo pt spt pa mo ck tms nt ab nc sn]; simpl.
  destruct mo; simpl.
  - destruct pt; simpl; repeat split; intros; try discriminate; reflexivity.
  - repeat split; intros; try discriminate; reflexivity.
Qed.

Lemma start_keeps_cells (s : Client) :
  backoffRef (pollStateOnce_start s) = backoffRef s /\
  mountedRef (pollStateOnce_start s) = mountedRef s.
Proof.
  unfold pollStateOnce_start. destruct (pollAbortRef s); split; reflexivity.
Qed.

Lemma resume_keeps_mounted (r : completion value) (s : Client) :
  mountedRef (pollStateOnce_resume r s) = mountedRef s.
Proof.
  destruct r as [raw | e].
  - destruct (mountedRef s) eqn:Hm.
    + apply (resume_success raw s Hm).
    + rewrite (resume_success_unmounted raw s Hm). exact Hm.
  - destruct (String.eqb (name e) "AbortError") eqn:Hn.
    + destruct (mountedRef s) eqn:Hm.
      * unfold pollStateOnce_resume, poll_finally. rewrite Hn, Hm. simpl.
        destruct (pollTimerRef s); simpl; exact Hm.
      * destruct (resume_aborted e s Hn) as (_ & Hsame & _).
        rewrite (Hsame Hm). exact Hm.
    + apply (resume_failure e s Hn).
Qed.

Lemma poll_cycles_keep_mounted (outs : list FetchOutcome) (s : Client) :
  mountedRef (poll_cycles outs s) = mountedRef s.
Proof.
  revert s. induction outs as [| o rest IH]; intros s; simpl; [reflexivity|].
  rewrite IH. unfold poll_settles. rewrite resume_keeps_mounted.
  apply start_keeps_cells.
Qed.

(** Every failed cycle applies [next_backoff] once. *)
Lemma poll_cycles_backoff (outs : list FetchOutcome) (s : Client) :
  Forall (fun o => is_failure o = true) outs ->
  backoffRef (poll_cycles outs s)
    = Nat.iter (length outs) next_backoff (backoffRef s).
Proof.
  revert s. induction outs as [| o rest IH]; intros s Hall; simpl; [reflexivity|].
  inversion Hall as [| o' rest' Ho Hrest]; subst.
  rewrite (IH _ Hrest). unfold poll_settles.
  destruct (fetchJson_failure o Ho) as (e & -> & Hn).
  destruct (resume_failure e (pollStateOnce_start s) Hn) as (_ & _ & Hb & _).
  rewrite Hb. destruct (start_keeps_cells s) as [-> _].
  clear. induction (length rest) as [| n IHn]; simpl; [reflexivity|].
  now rewrite IHn.
Qed.

(** The closed form of the delay after [n + 1] failures in a row. *)
Lemma iter_next_backoff (n : nat) :
  Nat.iter (S n) next_backoff 0 = Z.min (1000 * 2 ^ Z.of_nat n) 30000.
Proof.
  induction n as [| n IH].
  - reflexivity.
  - change (Nat.iter (S (S n)) next_backoff 0)
      with (next_backoff (Nat.iter (S n) next_backoff 0)).
    rewrite IH. rewrite Nat2Z.inj_succ, Z.pow_succ_r by lia.
    assert (Hpos : 0 < 2 ^ Z.of_nat n) by (apply Z.pow_pos_nonneg; lia).
    unfold next_backoff.
    destruct (Z.min (1000 * 2 ^ Z.of_nat n) 30000 =? 0) eqn:E.
    + apply Z.eqb_eq in E. lia.
    + lia.
Qed.

(** [fetchJson] passes an [AbortError] on only when [fetch] itself
    rejects with it: once a response has arrived, a body read that
    fails, for whatever reason, ends in a plain [Error] or in [null]. *)
Lemma fetchJson_abort_only_from_fetch (o : FetchOutcome) (e : exn) :
  fetchJson o = Throw e ->
  String.eqb (name e) "AbortError" = true ->
  o = Rejected e.
Proof.
  destruct o as [e' | res]; simpl.
  - intros E _. injection E as ->. reflexivity.
  - destruct (negb (ok res)).
    + intros E. injection E as <-. simpl. discriminate.
    + destruct (json res); discriminate.
Qed.

(** C2.  When the request of a poll cycle is cancelled and the
    cancellation reaches the cycle as an [AbortError], which is when
    [fetch] rejects with it and at no other time, the cycle leaves
    MotorState, connected, lastError, lastSeen and the backoff delay as
    they were and takes no failure response.  Once the engine is torn
    down such a cycle changes nothing at all; while the engine is
    mounted its [finally] block still cancels the pending poll timer
    and schedules the next poll, after the backoff delay, or after the
    base interval when the delay is 0. *)
Theorem cancelled_cycle_keeps_cells (e : exn) (s : Client) :
  String.eqb (name e) "AbortError" = true ->
  (forall o, fetchJson o = Throw e -> o = Rejected e) /\
  cells_unchanged s (poll_settles (Rejected e) s) /\
  (mountedRef s = false -> poll_settles (Rejected e) s = s) /\
  (mountedRef s = true ->
   poll_scheduled_after
     (if backoffRef s =? 0 then POLL_INTERVAL else backoffRef s)
     s (poll_settles (Rejected e) s)).
Proof.
  intros Hn. split.
  - intros o Ho. exact (fetchJson_abort_only_from_fetch o e Ho Hn).
  - apply (resume_aborted e s Hn).
Qed.

Lemma cancelled_cycle_keeps_cells_witness :
  String.eqb (name AbortError) "AbortError" = true /\
  (forall o, fetchJson o = Throw AbortError -> o = Rejected AbortError) /\
  cells_unchanged retried_while_polling
    (poll_settles (Rejected AbortError) retried_while_polling) /\
  (mountedRef retried_while_polling = false ->
   poll_settles (Rejected AbortError) retried_while_polling
     = retried_while_polling) /\
  (mountedRef retried_while_polling = true ->
   poll_scheduled_after
     (if backoffRef retried_while_polling =? 0 then POLL_INTERVAL
      else backoffRef retried_while_polling)
     retried_while_polling
     (poll_settles (Rejected AbortError) retried_while_polling)).
Proof.
  split; [reflexivity|].
  apply (cancelled_cycle_keeps_cells AbortError retried_while_polling).
  reflexivity.
Defined.

(** C2, as stated, fails.  The first poll is in flight and "retry now"
    cancels it and starts a second one.  When the cancelled request
    ends in an [AbortError], its cycle sets a poll timer of its own,
    due 3000 ms later.  When the cancellation lands after a 500
    response has arrived, the body read is cut, [fetchJson] throws a
    plain [Error], and the cancelled cycle takes the failure response:
    lastError is set and the backoff delay goes from 0 to 1000. *)
Lemma cancelled_cycle_still_acts :
  aborted retried_while_polling = [1] /\
  timers retried_while_polling = [] /\
  timers (poll_settles (Rejected AbortError) retried_while_polling)
    = [mkTimer 1 3000 CbPoll] /\
  ~ (cells_unchanged retried_while_polling
       (poll_settles (Rejected AbortError) retried_while_polling) /\
     nothing_scheduled retried_while_polling
       (poll_settles (Rejected AbortError) retried_while_polling)) /\
  fetchJson broken_500 = Throw (Error "500 Internal Server Error") /\
  error retried_while_polling = None /\
  backoffRef retried_while_polling = 0 /\
  error (poll_settles broken_500 retried_while_polling)
    = Some "Failed to connect to ESP32" /\
  backoffRef (poll_settles broken_500 retried_while_polling) = 1000 /\
  ~ cells_unchanged retried_while_polling
      (poll_settles broken_500 retried_while_polling).
Proof.
  do 3 (split; [vm_compute; reflexivity|]).
  split.
  { intros (_ & _ & Ht & _). vm_compute in Ht. discriminate Ht. }
  do 5 (split; [vm_compute; reflexivity|]).
  intros (_ & _ & He & _). vm_compute in He. discriminate He.
Qed.

(** C3.  While the engine is mounted, a poll that fails in transport
    (other than by cancellation) or comes back with a status outside
    2xx takes the failure transition: connected is cleared, lastError is
    set, the backoff delay becomes the floor after 0 and otherwise
    doubles up to the ceiling, and the next cycle is scheduled after the
    new delay.  A 2xx response whose body does not parse is not a
    failure: the cycle takes the success transition and leaves
    MotorState as it was. *)
Theorem poll_failure_and_unparseable_body (o : FetchOutcome) (s : Client) :
  mountedRef s = true ->
  (is_failure o = true ->
   failure_transition s (poll_settles o s) /\
   error (poll_settles o s) = Some "Failed to connect to ESP32") /\
  (is_unparseable o = true ->
   success_transition s (poll_settles o s) /\
   state (poll_settles o s) = state s).
Proof.
  intros Hm. unfold poll_settles. split.
  - intros Hf. destruct (fetchJson_failure o Hf) as (e & -> & Hn).
    destruct (resume_failure e s Hn) as (Hc & He & Hb & _ & _ & Hs & _).
    unfold failure_transition. rewrite Hc, He, Hb.
    split; [|reflexivity].
    split; [reflexivity|]. split; [eexists; reflexivity|].
    split; [reflexivity | exact (Hs Hm)].
  - intros Hu. rewrite (fetchJson_unparseable o Hu).
    destruct (resume_success Null s Hm) as (Hs & Hst & _).
    split; [exact Hs | apply Hst; reflexivity].
Qed.

Lemma poll_failure_and_unparseable_body_witness :
  (mountedRef first_poll_in_flight = true /\
   is_failure broken_500 = true /\
   failure_transition first_poll_in_flight
     (poll_settles broken_500 first_poll_in_flight)) /\
  (is_unparseable garbled_200 = true /\
   success_transition first_poll_in_flight
     (poll_settles garbled_200 first_poll_in_flight)).
Proof.
  split.
  - split; [reflexivity|]. split; [reflexivity|].
    apply (poll_failure_and_unparseable_body broken_500 first_poll_in_flight);
      reflexivity.
  - split; [reflexivity|].
    apply (poll_failure_and_unparseable_body garbled_200 first_poll_in_flight);
      reflexivity.
Defined.

(** C3, as stated, fails: a 200 response with a body that is not JSON
    leaves the engine connected, without error and with a backoff of 0;
    and after teardown a failed poll schedules nothing. *)
Lemma unparseable_body_is_not_a_failure :
  is_unparseable garbled_200 = true /\
  connected (poll_settles garbled_200 first_poll_in_flight) = true /\
  error (poll_settles garbled_200 first_poll_in_flight) = None /\
  backoffRef (poll_settles garbled_200 first_poll_in_flight) = 0 /\
  ~ failure_transition first_poll_in_flight
      (poll_settles garbled_200 first_poll_in_flight) /\
  ~ failure_transition torn_down_while_polling
      (poll_settles broken_500 torn_down_while_polling).
Proof.
  repeat split; try reflexivity.
  - intros (Hc & _). vm_compute in Hc. discriminate Hc.
  - intros (_ & _ & _ & Hp & _). vm_compute in Hp. discriminate Hp.
Qed.

(** C5.  In a mounted engine whose backoff delay is 0, after [N >= 1]
    poll cycles in a row that fail the delay is
    [min(1000 * 2^(N-1), 30000)]; a poll that then succeeds puts it
    back to 0 and schedules the next cycle 3000 ms later. *)
Theorem backoff_after_consecutive_failures
    (outs : list FetchOutcome) (o : FetchOutcome) (raw : value) (s : Client) :
  mountedRef s = true ->
  backoffRef s = 0 ->
  outs <> [] ->
  Forall (fun x => is_failure x = true) outs ->
  fetchJson o = Normal raw ->
  backoffRef (poll_cycles outs s)
    = Z.min (1000 * 2 ^ (Z.of_nat (length outs) - 1)) 30000 /\
  backoffRef (poll_cycles (outs ++ [o]) s) = 0 /\
  poll_scheduled_after POLL_INTERVAL
    (pollStateOnce_start (poll_cycles outs s))
    (poll_cycles (outs ++ [o]) s).
Proof.
  intros Hm Hb Hne Hall Ho.
  split.
  - rewrite (poll_cycles_backoff outs s Hall), Hb.
    destruct outs as [| x rest]; [congruence|].
    change (length (x :: rest)) with (S (length rest)).
    rewrite iter_next_backoff. f_equal. f_equal. f_equal. lia.
  - assert (Happ : poll_cycles (outs ++ [o]) s
                   = poll_settles o (pollStateOnce_start (poll_cycles outs s))).
    { clear. revert s. induction outs as [| x rest IH]; intros s; simpl;
        [reflexivity | apply IH]. }
    rewrite Happ. unfold poll_settles. rewrite Ho.
    assert (Hm' : mountedRef (pollStateOnce_start (poll_cycles outs s)) = true).
    { destruct (start_keeps_cells (poll_cycles outs s)) as [_ ->].
      rewrite poll_cycles_keep_mounted. exact Hm. }
    destruct (resume_success raw _ Hm') as ((_ & _ & _ & Hz & Hs) & _).
    split; assumption.
Qed.

Lemma backoff_after_consecutive_failures_witness :
  mountedRef (initial 0) = true /\
  backoffRef (initial 0) = 0 /\
  backoffRef (poll_cycles (repeat broken_500 6) (initial 0)) = 30000 /\
  backoffRef (poll_cycles (repeat broken_500 6 ++ [good_200]) (initial 0)) = 0.
Proof.
  split; [reflexivity|]. split; [reflexivity|].
  destruct (backoff_after_consecutive_failures
              (repeat broken_500 6) good_200
              (Object [("power", String "ON");
                       ("direction", String "forward");
                       ("speed", Number (Finite 60))])
              (initial 0)) as (H6 & H0 & _).
  - reflexivity.
  - reflexivity.
  - discriminate.
  - repeat constructor.
  - reflexivity.
  - split; [exact H6 | exact H0].
Defined.

(** C6.  After teardown a response that settles normally and a
    cancelled request are dropped, but a poll that fails late is not:
    the catch branch does not look at the mounted flag, so it clears
    connected, sets lastError and raises the backoff delay. *)
Theorem late_failure_after_teardown_is_applied :
  mountedRef torn_down_while_polling = false /\
  connected torn_down_while_polling = true /\
  error torn_down_while_polling = None /\
  backoffRef torn_down_while_polling = 0 /\
  connected (poll_settles broken_500 torn_down_while_polling) = false /\
  error (poll_settles broken_500 torn_down_while_polling)
    = Some "Failed to connect to ESP32" /\
  backoffRef (poll_settles broken_500 torn_down_while_polling) = 1000 /\
  poll_settles good_200 torn_down_while_polling = torn_down_while_polling /\
  poll_settles (Rejected AbortError) torn_down_while_polling
    = torn_down_while_polling.
Proof. do 8 (split; [vm_compute; reflexivity|]). vm_compute; reflexivity. Qed.

End Polling.

(* ------------------------------------------------------------------ *)
(** *** The debounce gate *)

Section Debounce.

Lemma run_callback_frame (cb : Callback) (s : Client) :
  timers (run_callback cb s) = timers s /\
  nextTimer (run_callback cb s) = nextTimer s /\
  speedTimerRef (run_callback cb s) = speedTimerRef s /\
  clock (run_callback cb s) = clock s.
Proof.
  destruct cb as [| v]; simpl.
  - unfold pollStateOnce_start. destruct (pollAbortRef s); repeat split.
  - repeat split.
Qed.

Lemma run_callback_commands (tm : Timer) (s : Client) :
  commands (run_callback (callback tm) s) = (commands s ++ command_of tm)%list.
Proof.
  unfold commands, command_of. destruct (callback tm) as [| v]; simpl.
  - unfold pollStateOnce_start. destruct (pollAbortRef s); simpl;
      rewrite filter_app; simpl; reflexivity.
  - rewrite filter_app. reflexivity.
Qed.

Lemma fire_all_frame (l : list Timer) (s : Client) :
  timers (fire_all l s) = timers s /\
  nextTimer (fire_all l s) = nextTimer s /\
  speedTimerRef (fire_all l s) = speedTimerRef s /\
  clock (fire_all l s) = clock s.
Proof.
  revert s. induction l as [| tm l IH]; intros s; simpl; [repeat split|].
  destruct (IH (run_callback (callback tm) s)) as (-> & -> & -> & ->).
  apply run_callback_frame.
Qed.

Lemma fire_all_commands (l : list Timer) (s : Client) :
  commands (fire_all l s) = (commands s ++ flat_map command_of l)%list.
Proof.
  revert s. induction l as [| tm l IH]; intros s; simpl.
  - now rewrite app_nil_r.
  - rewrite IH, run_callback_commands, <- app_assoc. reflexivity.
Qed.

Lemma commands_of_speed_timers (l : list Timer) :
  flat_map command_of l = flat_map command_of (filter is_speed_timer l).
Proof.
  induction l as [| tm l IH]; simpl; [reflexivity|].
  unfold is_speed_timer, command_of at 1.
  destruct (callback tm) eqn:E; simpl.
  - exact IH.
  - unfold command_of at 2. rewrite E. simpl. now rewrite IH.
Qed.

Lemma filter_insert_skip (p : Timer -> bool) (x : Timer) (l : list Timer) :
  p x = false -> filter p (insert_by_due x l) = filter p l.
Proof.
  intros Hx. induction l as [| a l IH]; simpl.
  - now rewrite Hx.
  - destruct (due x <=? due a); simpl.
    + now rewrite Hx.
    + now rewrite IH.
Qed.

Lemma filter_insert_only (p : Timer -> bool) (x : Timer) (l : list Timer) :
  p x = true -> filter p l = [] -> filter p (insert_by_due x l) = [x].
Proof.
  intros Hx. induction l as [| a l IH]; simpl; intros Hl.
  - now rewrite Hx.
  - destruct (p a) eqn:Ha; [discriminate|].
    destruct (due x <=? due a); simpl.
    + rewrite Hx, Ha, Hl. reflexivity.
    + rewrite Ha. now apply IH.
Qed.

Lemma filter_sort_nil (p : Timer -> bool) (l : list Timer) :
  filter p l = [] -> filter p (sort_by_due l) = [].
Proof.
  induction l as [| a l IH]; simpl; intros Hl; [reflexivity|].
  destruct (p a) eqn:Ha; [discriminate|].
  rewrite filter_insert_skip by assumption. now apply IH.
Qed.

Lemma filter_sort_single (p : Timer -> bool) (l : list Timer) (y : Timer) :
  filter p l = [y] -> filter p (sort_by_due l) = [y].
Proof.
  induction l as [| a l IH]; simpl; intros Hl; [discriminate|].
  destruct (p a) eqn:Ha.
  - injection Hl as -> Hl.
    apply filter_insert_only; [assumption | now apply filter_sort_nil].
  - rewrite filter_insert_skip by assumption. now apply IH.
Qed.

Lemma filter_swap (p q : Timer -> bool) (l : list Timer) :
  filter p (filter q l) = filter q (filter p l).
Proof.
  induction l as [| a l IH]; simpl; [reflexivity|].
  destruct (q a) eqn:Hq, (p a) eqn:Hp; simpl;
    rewrite ?Hq, ?Hp, IH; reflexivity.
Qed.

(** What [advance] does to the clock, the queue and the commands. *)
Lemma advance_frame (t : Z) (s : Client) :
  clock (advance t s) = t /\
  nextTimer (advance t s) = nextTimer s /\
  speedTimerRef (advance t s) = speedTimerRef s /\
  timers (advance t s) = filter (fun tm => negb (is_due t tm)) (timers s) /\
  commands (advance t s)
    = (commands s
         ++ flat_map command_of
              (filter is_speed_timer
                 (sort_by_due (filter (is_due t) (timers s)))))%list.
Proof.
  unfold advance.
  set (ready := sort_by_due (filter (is_due t) (timers s))).
  set (s1 := set_timers _ s).
  fold (fire_all ready s1).
  destruct (fire_all_frame ready s1) as (Ht & Hn & Hr & _).
  split; [reflexivity|]. split; [exact Hn|]. split; [exact Hr|].
  split; [exact Ht|].
  change (commands (set_clock t (fire_all ready s1)))
    with (commands (fire_all ready s1)).
  rewrite fire_all_commands, <- commands_of_speed_timers. reflexivity.
Qed.

Lemma advance_fresh (t : Z) (s : Client) :
  timers_fresh s -> timers_fresh (advance t s).
Proof.
  unfold timers_fresh. intros H.
  destruct (advance_frame t s) as (_ & -> & _ & -> & _).
  apply Forall_forall. intros tm Hin. apply filter_In in Hin.
  destruct Hin as [Hin _]. rewrite Forall_forall in H. now apply H.
Qed.

(** While no debounce timer is due, time passes without a command. *)
Lemma advance_quiet (t : Z) (s : Client) :
  filter (is_due t) (speed_timers s) = [] ->
  commands (advance t s) = commands s /\
  speed_timers (advance t s) = speed_timers s.
Proof.
  intros Hq. destruct (advance_frame t s) as (_ & _ & _ & Ht & Hc).
  split.
  - rewrite Hc. rewrite filter_sort_nil.
    + now rewrite app_nil_r.
    + rewrite filter_swap. exact Hq.
  - unfold speed_timers in *. rewrite Ht, filter_swap.
    clear - Hq. induction (filter is_speed_timer (timers s)) as [| a l IH];
      simpl in *; [reflexivity|].
    destruct (is_due t a); simpl; [discriminate|]. now rewrite IH.
Qed.

(** When the one pending debounce timer is due, it fires. *)
Lemma advance_fires (t : Z) (s : Client) (tm : Timer) :
  speed_timers s = [tm] -> is_due t tm = true ->
  commands (advance t s) = (commands s ++ command_of tm)%list /\
  speed_timers (advance t s) = [].
Proof.
  intros Hs Hd. destruct (advance_frame t s) as (_ & _ & _ & Ht & Hc).
  split.
  - rewrite Hc. rewrite (filter_sort_single _ _ tm).
    + simpl. now rewrite app_nil_r.
    + rewrite filter_swap. fold (speed_timers s). rewrite Hs. simpl.
      now rewrite Hd.
  - unfold speed_timers in *. rewrite Ht, filter_swap, Hs. simpl.
    now rewrite Hd.
Qed.

(** One call of [handleSpeedChange]: no command leaves, the timer the
    ref pointed to is cancelled and a new one, carrying the new value,
    is started. *)
Lemma handleSpeedChange_restarts (v : number) (s : Client) :
  clock (handleSpeedChange v s) = clock s /\
  commands (handleSpeedChange v s) = commands s /\
  speed (state (handleSpeedChange v s)) = v /\
  nextTimer (handleSpeedChange v s) = nextTimer s + 1 /\
  speedTimerRef (handleSpeedChange v s) = Some (nextTimer s) /\
  timers (handleSpeedChange v s)
    = (timers (clearTimeout_if (speedTimerRef s) s)
         ++ [mkTimer (nextTimer s) (clock s + SPEED_DEBOUNCE_MS) (CbPostSpeed v)])%list.
Proof.
  unfold handleSpeedChange.
  destruct s as [st ld er cn ls bo pt spt pa mo ck tms nt ab nc sn]; simpl.
  destruct spt; simpl; repeat split; reflexivity.
Qed.

Lemma filter_tid_speed (id : Z) (s : Client) :
  filter is_speed_timer (timers (clearTimeout id s))
    = filter (fun tm => negb (tid tm =? id)) (speed_timers s).
Proof. unfold clearTimeout, speed_timers. simpl. apply filter_swap. Qed.

(** A call of [handleSpeedChange] leaves exactly one debounce timer,
    whether none was pending or the one the ref points to. *)
Lemma handleSpeedChange_arms (v : number) (s : Client) :
  timers_fresh s ->
  speed_timers s = [] \/
    (exists tm, speedTimerRef s = Some (tid tm) /\ speed_timers s = [tm]) ->
  timers_fresh (handleSpeedChange v s) /\
  debounce_armed v (handleSpeedChange v s).
Proof.
  intros Hf Hs.
  destruct (handleSpeedChange_restarts v s) as (Hc & _ & _ & Hn & Hr & Ht).
  split.
  - unfold timers_fresh. rewrite Hn, Ht. apply Forall_app. split.
    + apply Forall_forall. intros tm Hin.
      assert (Hold : In tm (timers s)).
      { destruct (speedTimerRef s); simpl in Hin; [|exact Hin].
        apply filter_In in Hin. tauto. }
      unfold timers_fresh in Hf. rewrite Forall_forall in Hf.
      specialize (Hf tm Hold). lia.
    + constructor; [simpl; lia | constructor].
  - exists (nextTimer s). split; [exact Hr|].
    unfold speed_timers at 1. rewrite Ht, filter_app, Hc. simpl.
    replace (filter is_speed_timer (timers (clearTimeout_if (speedTimerRef s) s)))
      with (@nil Timer); [reflexivity|].
    destruct Hs as [Hnil | (tm & Hid & Hone)].
    + destruct (speedTimerRef s); unfold clearTimeout_if.
      * rewrite filter_tid_speed, Hnil. reflexivity.
      * symmetry; exact Hnil.
    + rewrite Hid. unfold clearTimeout_if.
      rewrite filter_tid_speed, Hone. simpl.
      now rewrite Z.eqb_refl.
Qed.

(** The burst after its first call: every further call arrives before
    the pending timer is due, so nothing is sent and the timer is
    replaced by one for the newer value. *)
Lemma burst_keeps_armed (rest : list (Z * number)) (v : number) (s : Client) :
  timers_fresh s ->
  debounce_armed v s ->
  Forall (fun gv => 0 <= fst gv < SPEED_DEBOUNCE_MS) rest ->
  timers_fresh (burst rest s) /\
  debounce_armed (last (map snd rest) v) (burst rest s) /\
  commands (burst rest s) = commands s.
Proof.
  revert v s. induction rest as [| [gap w] rest IH]; intros v s Hf Ha Hall.
  - simpl. auto.
  - inversion Hall as [| x l Hgap Hrest]; subst. simpl in Hgap.
    destruct Ha as (id & Hid & Hone).
    assert (Hq : filter (is_due (clock s + gap)) (speed_timers s) = []).
    { rewrite Hone. simpl. unfold is_due. simpl.
      destruct (clock s + SPEED_DEBOUNCE_MS <=? clock s + gap) eqn:E;
        [apply Z.leb_le in E; lia | reflexivity]. }
    destruct (advance_quiet _ s Hq) as (Hc & Hs).
    destruct (advance_frame (clock s + gap) s) as (_ & _ & Hr & _ & _).
    destruct (handleSpeedChange_arms w (advance (clock s + gap) s))
      as (Hf1 & Ha1).
    + now apply advance_fresh.
    + right.
      exists (mkTimer id (clock s + SPEED_DEBOUNCE_MS) (CbPostSpeed v)).
      rewrite Hr, Hs, Hone. split; [exact Hid | reflexivity].
    + destruct (IH w _ Hf1 Ha1 Hrest) as (Hf2 & Ha2 & Hc2).
      destruct (handleSpeedChange_restarts w (advance (clock s + gap) s))
        as (_ & Hc1 & _).
      change (burst ((gap, w) :: rest) s)
        with (burst rest (handleSpeedChange w (advance (clock s + gap) s))).
      split; [exact Hf2|]. split.
      * replace (last (map snd ((gap, w) :: rest)) v)
          with (last (map snd rest) w); [exact Ha2|].
        simpl. destruct (map snd rest) eqn:E; [reflexivity|].
        clear. revert n. induction l as [| a l IHl]; intros n; simpl;
          [reflexivity|]. destruct l; [reflexivity|]. apply (IHl a).
      * rewrite Hc2, Hc1, Hc. reflexivity.
Qed.

(** C7.  A burst of calls of [handleSpeedChange], each less than
    150 ms after the one before, sends nothing while it lasts and leaves
    one pending timer, the one started by the last call; once 150 ms
    have passed after the last call exactly one command has been sent,
    [POST /api/speed] with the final value, and no debounce timer is
    left. *)
Theorem burst_sends_final_value_once
    (s : Client) (g0 : Z) (v0 : number) (rest : list (Z * number)) (t : Z) :
  timers_fresh s ->
  speed_timers s = [] ->
  Forall (fun gv => 0 <= fst gv < SPEED_DEBOUNCE_MS) rest ->
  clock (burst ((g0, v0) :: rest) s) + SPEED_DEBOUNCE_MS <= t ->
  commands (burst ((g0, v0) :: rest) s) = commands s /\
  debounce_armed (last (map snd rest) v0) (burst ((g0, v0) :: rest) s) /\
  commands (advance t (burst ((g0, v0) :: rest) s))
    = (commands s ++ [speed_command (last (map snd rest) v0)])%list /\
  speed_timers (advance t (burst ((g0, v0) :: rest) s)) = [].
Proof.
  intros Hf Hnone Hall Ht.
  change (burst ((g0, v0) :: rest) s)
    with (burst rest (handleSpeedChange v0 (advance (clock s + g0) s))) in *.
  set (s1 := advance (clock s + g0) s) in *.
  assert (Hq : filter (is_due (clock s + g0)) (speed_timers s) = [])
    by (rewrite Hnone; reflexivity).
  destruct (advance_quiet _ s Hq) as (Hc1 & Hs1). fold s1 in Hc1, Hs1.
  destruct (handleSpeedChange_arms v0 s1) as (Hf2 & Ha2).
  { now apply advance_fresh. }
  { left. now rewrite Hs1. }
  destruct (handleSpeedChange_restarts v0 s1) as (_ & Hc2 & _).
  destruct (burst_keeps_armed rest v0 _ Hf2 Ha2 Hall) as (_ & Ha3 & Hc3).
  assert (Hcmd : commands (burst rest (handleSpeedChange v0 s1)) = commands s)
    by (rewrite Hc3, Hc2, Hc1; reflexivity).
  split; [exact Hcmd|]. split; [exact Ha3|].
  destruct Ha3 as (id & _ & Hone).
  destruct (advance_fires t _ _ Hone) as (Hc4 & Hs4).
  { unfold is_due. simpl. apply Z.leb_le. exact Ht. }
  split; [|exact Hs4].
  rewrite Hc4, Hcmd. reflexivity.
Qed.

Lemma burst_sends_final_value_once_witness :
  timers_fresh first_poll_in_flight /\
  speed_timers first_poll_in_flight = [] /\
  commands (advance 260 (burst slider_10_40_75 first_poll_in_flight))
    = [speed_command (Finite 75)].
Proof.
  split; [constructor|]. split; [reflexivity|].
  destruct (burst_sends_final_value_once first_poll_in_flight
              0 (Finite 10) [(50, Finite 40); (60, Finite 75)] 260)
    as (_ & _ & H & _).
  - constructor.
  - reflexivity.
  - repeat constructor; simpl; unfold SPEED_DEBOUNCE_MS; lia.
  - vm_compute. discriminate.
  - exact H.
Defined.

End Debounce.

(* ------------------------------------------------------------------ *)
(** *** The command dispatcher *)

Section Dispatcher.

Lemma fetchJson_request_fails (o : FetchOutcome) :
  request_fails o = true -> exists e, fetchJson o = Throw e.
Proof.
  destruct o as [e | res]; simpl; intros H.
  - exists e; reflexivity.
  - rewrite H. eexists; reflexivity.
Qed.

(** The [finally] block of [postCommand]: the flag is cleared only
    while the component is mounted. *)
Lemma postCommand_resume_loading (r : completion value) (s : Client) :
  mountedRef (fst (postCommand_resume r s)) = mountedRef s /\
  (mountedRef s = true -> loading (fst (postCommand_resume r s)) = false) /\
  (mountedRef s = false -> loading (fst (postCommand_resume r s)) = loading s).
Proof.
  unfold postCommand_resume, merge_payload.
  destruct r as [data | e]; simpl.
  - destruct (truthy data);
      [destruct (toMotorState data (Some (state s)))|];
      destruct s as [st ld er cn ls bo pt spt pa mo ck tms nt ab nc sn];
      simpl; destruct mo; simpl; repeat split; intros; congruence.
  - destruct s as [st ld er cn ls bo pt spt pa mo ck tms nt ab nc sn];
      simpl; destruct mo; simpl; repeat split; intros; congruence.
Qed.

(** C4.  A command whose request fails sets lastError to a non-empty
    message, clears connected, leaves MotorState (and with it the
    optimistic value) as it was and hands the failure to its caller.
    On either exit path the busy flag is cleared while the component is
    mounted; once the component is unmounted the flag is left as it
    is. *)
Theorem command_failure_and_busy_flag (o : FetchOutcome) (s : Client) :
  (request_fails o = true ->
   connected (fst (command_settles o s)) = false /\
   (exists msg, error (fst (command_settles o s)) = Some msg /\
                msg <> EmptyString) /\
   state (fst (command_settles o s)) = state s /\
   (exists e, snd (command_settles o s) = Throw e)) /\
  (mountedRef s = true -> loading (fst (command_settles o s)) = false) /\
  (mountedRef s = false -> loading (fst (command_settles o s)) = loading s).
Proof.
  unfold command_settles. split.
  - intros Hf. destruct (fetchJson_request_fails o Hf) as (e & ->).
    unfold postCommand_resume.
    destruct s as [st ld er cn ls bo pt spt pa mo ck tms nt ab nc sn]; simpl.
    destruct mo; simpl; (split; [reflexivity|]); (split; [|split; eauto]);
      (eexists; split; [reflexivity|]);
      destruct (String.eqb (message e) EmptyString) eqn:E;
      try discriminate; intros Hc; rewrite Hc in E; discriminate.
  - destruct (postCommand_resume_loading (fetchJson o) s) as (_ & H1 & H2).
    split; assumption.
Qed.

Lemma command_failure_and_busy_flag_witness :
  request_fails broken_500 = true /\
  mountedRef (handlePower true first_poll_in_flight) = true /\
  loading (handlePower true first_poll_in_flight) = true /\
  connected (fst (command_settles broken_500
                    (handlePower true first_poll_in_flight))) = false /\
  loading (fst (command_settles broken_500
                  (handlePower true first_poll_in_flight))) = false.
Proof.
  split; [reflexivity|]. split; [reflexivity|]. split; [reflexivity|].
  destruct (command_failure_and_busy_flag broken_500
              (handlePower true first_poll_in_flight)) as (Hf & Hm & _).
  split.
  - apply Hf. reflexivity.
  - apply Hm. reflexivity.
Defined.

(** C4, as stated, fails: a power command is sent, the component is
    unmounted, and the request then fails with status 500; the busy
    flag is still set afterwards. *)
Lemma busy_flag_stays_set_after_unmount :
  request_fails broken_500 = true /\
  mountedRef torn_down_while_commanding = false /\
  loading torn_down_while_commanding = true /\
  loading (fst (command_settles broken_500 torn_down_while_commanding))
    <> false.
Proof.
  do 3 (split; [vm_compute; reflexivity|]).
  vm_compute. discriminate.
Qed.

End Dispatcher.

(* ------------------------------------------------------------------ *)
(** *** Runs: the timer handles stay fresh *)

Section Runs.

Lemma fresh_incl (s s' : Client) :
  incl (timers s') (timers s) ->
  nextTimer s <= nextTimer s' ->
  timers_fresh s -> timers_fresh s'.
Proof.
  unfold timers_fresh. intros Hi Hn Hf. rewrite Forall_forall in *.
  intros tm Hin. specialize (Hf tm (Hi tm Hin)). lia.
Qed.

Lemma fresh_clearTimeout_if (r : option Z) (s : Client) :
  timers_fresh s -> timers_fresh (clearTimeout_if r s).
Proof.
  apply fresh_incl; destruct r; simpl; try apply incl_refl; try lia.
  apply incl_filter.
Qed.

Lemma fresh_setTimeout (cb : Callback) (d : Z) (s : Client) :
  timers_fresh s -> timers_fresh (snd (setTimeout cb d s)).
Proof.
  unfold timers_fresh, setTimeout. simpl. intros Hf.
  apply Forall_app. split.
  - rewrite Forall_forall in *. intros tm Hin. specialize (Hf tm Hin). lia.
  - constructor; [simpl; lia | constructor].
Qed.

Lemma fresh_poll_finally (s : Client) :
  timers_fresh s -> timers_fresh (poll_finally s).
Proof.
  intros Hf. unfold poll_finally. destruct (mountedRef s); simpl; [|exact Hf].
  apply (fresh_setTimeout CbPoll _ (clearTimeout_if (pollTimerRef s) s)).
  now apply fresh_clearTimeout_if.
Qed.

Lemma fresh_poll_settles (o : FetchOutcome) (s : Client) :
  timers_fresh s -> timers_fresh (poll_settles o s).
Proof.
  intros Hf. unfold poll_settles, pollStateOnce_resume.
  apply fresh_poll_finally.
  destruct (fetchJson o) as [raw | e].
  - destruct (mountedRef s); simpl; [|exact Hf].
    destruct (truthy raw); [|exact Hf].
    unfold merge_payload.
    destruct (toMotorState raw (Some (state s))); exact Hf.
  - destruct (String.eqb (name e) "AbortError"); exact Hf.
Qed.

Lemma fresh_command_settles (o : FetchOutcome) (s : Client) :
  timers_fresh s -> timers_fresh (fst (command_settles o s)).
Proof.
  intros Hf. unfold command_settles, postCommand_resume. simpl.
  destruct (fetchJson o) as [data | e]; simpl.
  - destruct (truthy data); simpl.
    + unfold merge_payload.
      destruct (toMotorState data (Some (state s))); simpl;
        destruct (mountedRef s); exact Hf.
    + destruct (mountedRef s); exact Hf.
  - destruct (mountedRef s); exact Hf.
Qed.

Lemma fresh_pollStateOnce_start (s : Client) :
  timers_fresh s -> timers_fresh (pollStateOnce_start s).
Proof.
  unfold pollStateOnce_start. destruct (pollAbortRef s); intros Hf; exact Hf.
Qed.

Lemma fresh_handleSpeedChange (v : number) (s : Client) :
  timers_fresh s -> timers_fresh (handleSpeedChange v s).
Proof.
  intros Hf. unfold handleSpeedChange.
  apply (fresh_setTimeout (CbPostSpeed v) SPEED_DEBOUNCE_MS
           (clearTimeout_if (speedTimerRef s)
              (set_state {| power := power (state s); dir := dir (state s);
                            speed := v |} s))).
  apply fresh_clearTimeout_if. exact Hf.
Qed.

(** Every step of a run keeps the handles of the pending timers below
    the next handle. *)
Lemma step_fresh (ev : Event) (s : Client) :
  timers_fresh s -> timers_fresh (step ev s).
Proof.
  intros Hf. destruct ev as [t | o | o | on | | v | | ]; simpl.
  - now apply advance_fresh.
  - now apply fresh_poll_settles.
  - now apply fresh_command_settles.
  - exact Hf.
  - exact Hf.
  - now apply fresh_handleSpeedChange.
  - unfold handleRetry. apply fresh_pollStateOnce_start.
    apply (fresh_clearTimeout_if _ (set_backoffRef 0 s)). exact Hf.
  - unfold unmount.
    apply fresh_clearTimeout_if. apply fresh_clearTimeout_if.
    destruct (pollAbortRef (set_mountedRef false s)); exact Hf.
Qed.

(** So the freshness the debounce theorem asks for holds in every
    state a run can reach. *)
Lemma run_fresh (t0 : Z) (evs : list Event) : timers_fresh (run t0 evs).
Proof.
  unfold run.
  assert (H0 : timers_fresh (mount (initial t0))) by constructor.
  revert H0. generalize (mount (initial t0)).
  induction evs as [| ev evs IH]; intros s Hs; simpl; [exact Hs|].
  apply IH. now apply step_fresh.
Qed.

(** Behind [if (raw)] the reconciler returns, and the update installs
    what it returns. *)
Lemma merge_payload_truthy (raw : value) (s : Client) :
  truthy raw = true ->
  exists m, toMotorState raw (Some (state s)) = Normal m /\
            state (merge_payload raw s) = m.
Proof.
  intros Ht. destruct (truthy_nonnullish raw Ht) as [Hu Hn].
  destruct (toMotorState_total raw (Some (state s)) Hu Hn) as [m Hm].
  exists m. split; [exact Hm|].
  unfold merge_payload. rewrite Hm. destruct m; reflexivity.
Qed.

End Runs.

End MotorControlProofs.

(* ================================================================== *)
(** ** Properties of the plant-health page *)
(* ================================================================== *)

Module PlantHealthProofs.

Import Js PlantHealth.

Section RetryLoop.

Variable ToString : value -> string.
Variable net : nat -> Attempt.

(** The loop from pass [i] on, with [fuel = 5 - i] passes left and the
    delay at [delay]. *)
Lemma retry_loop_spec (fuel i : nat) (delay : Z) :
  (i + fuel = 5)%nat ->
  (attempts (retry_loop ToString fuel i delay net) <= fuel)%nat /\
  (forall k d,
      nth_error (waits (retry_loop ToString fuel i delay net)) k = Some d ->
      d = delay * 2 ^ Z.of_nat k) /\
  (forall k,
      (k < attempts (retry_loop ToString fuel i delay net))%nat ->
      (i + k < 4)%nat ->
      (forall t, try_body ToString (net (i + k)%nat) <> Done t) ->
      (k < length (waits (retry_loop ToString fuel i delay net)))%nat) /\
  (forall e,
      outcome (retry_loop ToString fuel i delay net) = Throw e ->
      attempts (retry_loop ToString fuel i delay net) = fuel).
Proof.
  revert i delay. induction fuel as [| fuel IH]; intros i delay Hi.
  - simpl. repeat split; try lia.
    intros [| k] d H; discriminate H.
  - assert (Hrec : forall r',
               r' = retry_loop ToString fuel (S i) (delay * 2) net ->
               (try_body ToString (net i) = Throttled \/
                exists e, try_body ToString (net i) = Thrown e) ->
               (i < 4)%nat \/ try_body ToString (net i) = Throttled ->
               (attempts (after_wait delay r') <= S fuel)%nat /\
               (forall k d,
                   nth_error (waits (after_wait delay r')) k = Some d ->
                   d = delay * 2 ^ Z.of_nat k) /\
               (forall k,
                   (k < attempts (after_wait delay r'))%nat ->
                   (i + k < 4)%nat ->
                   (forall t, try_body ToString (net (i + k)%nat) <> Done t) ->
                   (k < length (waits (after_wait delay r')))%nat) /\
               (forall e,
                   outcome (after_wait delay r') = Throw e ->
                   attempts (after_wait delay r') = S fuel)).
    { intros r' -> _ _.
      destruct (IH (S i) (delay * 2)) as (Ha & Hb & Hc & Hd); [lia|].
      simpl. split; [lia|]. split; [|split].
      - intros [| k] d H; simpl in H.
        + injection H as <-. simpl. lia.
        + apply Hb in H. rewrite H, Nat2Z.inj_succ, Z.pow_succ_r by lia. lia.
      - intros [| k] Hk Hlt Hnd; [lia|].
        apply -> Nat.succ_lt_mono. apply Hc; [lia | lia |].
        intros t. replace (S i + k)%nat with (i + S k)%nat by lia. apply Hnd.
      - intros e He. f_equal. now apply (Hd e). }
    simpl. destruct (try_body ToString (net i)) as [text | | e] eqn:Hstep.
    + simpl. split; [lia|]. split; [|split].
      * intros [| k] d H; discriminate H.
      * intros k Hk Hlt Hnd. assert (k = 0)%nat by lia. subst k.
        rewrite Nat.add_0_r in Hnd. destruct (Hnd text Hstep).
      * intros e He. discriminate He.
    + apply (Hrec _ eq_refl); auto.
    + destruct (Nat.eqb i 4) eqn:E.
      * apply Nat.eqb_eq in E. simpl. split; [lia|]. split; [|split].
        -- intros [| k] d H; discriminate H.
        -- intros k Hk Hlt Hnd. lia.
        -- intros e' _. lia.
      * apply Nat.eqb_neq in E. apply (Hrec _ eq_refl); eauto. left. lia.
Qed.

(** A throttled request and a request that did not get through never
    end a pass with [return]. *)
Lemma throttled_or_transport_not_done (a : Attempt) (t : value) :
  is_throttled_or_transport a = true -> try_body ToString a <> Done t.
Proof.
  destruct a as [e | status body]; simpl; intros H; [discriminate|].
  apply Z.eqb_eq in H. subst status. simpl. discriminate.
Qed.

(** What the outer [catch] leaves behind. *)
Lemma surface_shows_error (e : exn) (p : Page) :
  loading (surface e p) = false /\ error (surface e p) <> EmptyString.
Proof.
  unfold surface; simpl. split; [reflexivity|].
  destruct (String.eqb (message e) EmptyString) eqn:E; [discriminate|].
  intros H. rewrite H in E. discriminate E.
Qed.

(** Without an image nothing is requested and only the error cell
    changes. *)
Lemma analyzeImage_without_image (b64 : completion string) (p : Page) :
  imageFile p = None ->
  analyzeImage ToString b64 net p
    = (mkPage None (analysis p) (loading p) "Please upload an image first.",
       None).
Proof. intros H. unfold analyzeImage. rewrite H. reflexivity. Qed.

(** C10.  Once an image is chosen, [analyzeImage] makes at most five
    requests.  The delays it waits are 1000 ms, 2000 ms, 4000 ms, ...
    in this order, and every request before the fifth that is answered
    with 429 or does not get through is followed by the delay of its
    rank.  The loading flag is cleared at the end, and when no request
    produced a text an error message is shown. *)
Theorem analyzeImage_stops_after_five
    (b64 : completion string) (p : Page) (f : File) :
  imageFile p = Some f ->
  (requests (snd (analyzeImage ToString b64 net p)) <= 5)%nat /\
  (forall k d,
      nth_error (delays (snd (analyzeImage ToString b64 net p))) k = Some d ->
      d = kth_delay k) /\
  (forall k,
      (k < requests (snd (analyzeImage ToString b64 net p)))%nat ->
      (k < 4)%nat ->
      is_throttled_or_transport (net k) = true ->
      nth_error (delays (snd (analyzeImage ToString b64 net p))) k
        = Some (kth_delay k)) /\
  loading (fst (analyzeImage ToString b64 net p)) = false /\
  (gave_up (snd (analyzeImage ToString b64 net p)) ->
   error (fst (analyzeImage ToString b64 net p)) <> EmptyString).
Proof.
  intros Hf. unfold analyzeImage. rewrite Hf.
  destruct b64 as [data | e0].
  - destruct (retry_loop_spec 5 0 1000 eq_refl) as (Ha & Hb & Hc & _).
    set (r := retry_loop ToString 5 0 1000 net) in *.
    assert (Hrun : requests (Some r) = attempts r /\ delays (Some r) = waits r)
      by (split; reflexivity).
    assert (Hgoal :
      (attempts r <= 5)%nat /\
      (forall k d, nth_error (waits r) k = Some d -> d = kth_delay k) /\
      (forall k, (k < attempts r)%nat -> (k < 4)%nat ->
                 is_throttled_or_transport (net k) = true ->
                 nth_error (waits r) k = Some (kth_delay k))).
    { split; [exact Ha|]. split; [exact Hb|].
      intros k Hk Hlt Hth.
      assert (Hlen : (k < length (waits r))%nat).
      { apply Hc; [exact Hk | simpl; exact Hlt |].
        intros t. simpl. now apply throttled_or_transport_not_done. }
      destruct (nth_error (waits r) k) as [d |] eqn:E.
      - f_equal. now apply Hb.
      - apply nth_error_None in E. lia. }
    destruct Hgoal as (G1 & G2 & G3).
    destruct (outcome r) as [text | e] eqn:Ho; simpl;
      (split; [exact G1|]); (split; [exact G2|]); (split; [exact G3|]).
    + split; [reflexivity|]. intros (e & He). congruence.
    + split; [reflexivity|]. intros _.
      destruct (String.eqb (message e) EmptyString) eqn:E; [discriminate|].
      intros H. rewrite H in E. discriminate E.
  - simpl. split; [lia|]. split; [intros [| k] d H; discriminate H|].
    split; [intros k Hk; lia|]. split; [reflexivity|]. intros _.
    destruct (String.eqb (message e0) EmptyString) eqn:E; [discriminate|].
    intros H. rewrite H in E. discriminate E.
Qed.

End RetryLoop.

Lemma analyzeImage_stops_after_five_witness :
  imageFile page_with_image = Some (mkFile "image/png" 1000) /\
  requests (snd (analyzeImage show (Normal "aGk=") always_throttled
                   page_with_image)) = 5%nat /\
  delays (snd (analyzeImage show (Normal "aGk=") always_throttled
                 page_with_image)) = [1000; 2000; 4000; 8000; 16000] /\
  loading (fst (analyzeImage show (Normal "aGk=") always_throttled
                  page_with_image)) = false /\
  error (fst (analyzeImage show (Normal "aGk=") always_throttled
                page_with_image)) <> EmptyString.
Proof.
  split; [reflexivity|]. split; [reflexivity|]. split; [reflexivity|].
  destruct (analyzeImage_stops_after_five show always_throttled
              (Normal "aGk=") page_with_image (mkFile "image/png" 1000))
    as (_ & _ & _ & Hl & He).
  - reflexivity.
  - split; [exact Hl|]. apply He. simpl. eexists. reflexivity.
Defined.

End PlantHealthProofs.

(* ================================================================== *)
(** ** Further properties of the motor controller *)
(* ================================================================== *)

Module MotorControlFacts.

Import Js MotorControl MotorControlProofs.

(* ------------------------------------------------------------------ *)
(** *** The reconciler: direction, clamp, repeated payloads *)

Section ReconcilerFacts.

Lemma all_ascii_complete (c : ascii) : In c all_ascii.
Proof.
  unfold all_ascii. rewrite <- (ascii_nat_embedding c).
  apply in_map. apply in_seq. pose proof (nat_ascii_bounded c). lia.
Qed.

Lemma lower_matches_everywhere :
  forallb (fun c => forallb (fun a => lower_matches c a) all_ascii) all_ascii
    = true.
Proof. vm_compute. reflexivity. Qed.

(** Lower-casing gives a small letter exactly for that letter and its
    capital. *)
Lemma lower_ascii_small (c a : ascii) :
  is_small_letter a = true ->
  (lower_ascii c = a <-> c = a \/ c = upper_ascii a).
Proof.
  intros Ha.
  pose proof lower_matches_everywhere as H.
  rewrite forallb_forall in H. specialize (H c (all_ascii_complete c)).
  rewrite forallb_forall in H. specialize (H a (all_ascii_complete a)).
  unfold lower_matches in H. rewrite Ha in H. apply eqb_prop in H.
  split.
  - intros Hl. apply Ascii.eqb_eq in Hl. rewrite Hl in H. symmetry in H.
    apply orb_true_iff in H. destruct H as [H | H]; apply Ascii.eqb_eq in H; auto.
  - intros Hc. apply Ascii.eqb_eq. rewrite H. apply orb_true_iff.
    destruct Hc as [Hc | Hc]; [left | right]; apply Ascii.eqb_eq; exact Hc.
Qed.

Lemma toLowerCase_spells (w : string) :
  small_letters w = true -> forall s, toLowerCase s = w <-> spells w s.
Proof.
  induction w as [| a w IH]; intros Hw s.
  - destruct s; simpl; split; intros H; try reflexivity; try discriminate H;
      try contradiction; exact I.
  - simpl in Hw. apply andb_true_iff in Hw. destruct Hw as [Ha Hw].
    destruct s as [| c s]; simpl.
    + split; [discriminate | contradiction].
    + split.
      * intros H. injection H as Hc Hs. split.
        -- now apply lower_ascii_small.
        -- now apply IH.
      * intros [Hc Hs]. f_equal.
        -- now apply lower_ascii_small.
        -- now apply IH.
Qed.

(** X1.  For every payload whose direction field reads as [d], the
    reconciled direction is -1 exactly when [d] is a string spelling
    "reverse" in any mix of capitals and small letters, and 1 in every
    other case (absent, not a string, another word); the previous
    state plays no part. *)
Theorem direction_reverse_iff_spelled (raw d : value) (prev : option MotorState) :
  get raw "direction" = Normal d ->
  exists m,
    toMotorState raw prev = Normal m /\
    (dir m = -1 <-> exists s, d = String s /\ spells "reverse" s) /\
    (dir m = 1 \/ dir m = -1) /\
    (forall prev', exists m',
        toMotorState raw prev' = Normal m' /\ dir m' = dir m).
Proof.
  intros Hd.
  destruct (get_normal_all raw "direction" "power" d Hd) as [p Hp].
  destruct (get_normal_all raw "direction" "speed" d Hd) as [sp Hs].
  eexists. split; [apply toMotorState_fields; eassumption|]. simpl.
  assert (Hrev : forall s,
             String.eqb (toLowerCase s) "reverse" = true <-> spells "reverse" s).
  { intros s. rewrite String.eqb_eq. now apply toLowerCase_spells. }
  split; [|split].
  - unfold dirVal. split.
    + intros H. destruct d as [ | | | | s | | ]; try discriminate H.
      exists s. split; [reflexivity|]. apply Hrev.
      destruct (String.eqb (toLowerCase s) "reverse"); [reflexivity | discriminate H].
    + intros (s & -> & Hs'). apply Hrev in Hs'. now rewrite Hs'.
  - unfold dirVal. destruct d; auto.
    destruct (String.eqb (toLowerCase s) "reverse"); auto.
  - intros prev'. eexists. split; [apply toMotorState_fields; eassumption|].
    reflexivity.
Qed.

Lemma direction_reverse_iff_spelled_witness :
  get (Object [("direction", String "ReVerSE")]) "direction"
    = Normal (String "ReVerSE") /\
  exists m,
    toMotorState (Object [("direction", String "ReVerSE")]) None = Normal m /\
    (dir m = -1 <-> exists s, String "ReVerSE" = String s /\ spells "reverse" s) /\
    (dir m = 1 \/ dir m = -1) /\
    (forall prev', exists m',
        toMotorState (Object [("direction", String "ReVerSE")]) prev'
          = Normal m' /\ dir m' = dir m).
Proof.
  split; [reflexivity|].
  apply (direction_reverse_iff_spelled
           (Object [("direction", String "ReVerSE")]) (String "ReVerSE") None).
  reflexivity.
Defined.

Lemma speedVal_finite (q : Q) (prev : option MotorState) :
  (exists r, speedVal (Number (Finite q)) prev = Finite r /\
             ((100 <= q -> r == 100) /\
              (q <= 0 -> r == 0) /\
              (0 <= q <= 100 -> r == q)))%Q.
Proof.
  unfold speedVal, Math_min, Math_max.
  destruct (Qle_bool 100 q) eqn:Hhi.
  - apply Qle_bool_iff in Hhi. simpl. exists 100%Q. split; [reflexivity|].
    split; [reflexivity|]. split.
    + intros Hq. exfalso. apply (Qle_not_lt _ _ (Qle_trans _ _ _ Hhi Hq)).
      reflexivity.
    + intros [_ Hq]. now apply Qle_antisym.
  - assert (Hlt : (q < 100)%Q).
    { apply Qnot_le_lt. intros Hc. apply Qle_bool_iff in Hc. congruence. }
    destruct (Qle_bool 0 q) eqn:Hlo.
    + apply Qle_bool_iff in Hlo. exists q. split; [reflexivity|].
      split; [|split].
      * intros Hq. exfalso. now apply (Qle_not_lt _ _ Hq).
      * intros Hq. now apply Qle_antisym.
      * reflexivity.
    + assert (Hneg : (q < 0)%Q).
      { apply Qnot_le_lt. intros Hc. apply Qle_bool_iff in Hc. congruence. }
      exists 0%Q. split; [reflexivity|]. split; [|split].
      * intros Hq. exfalso. apply (Qle_not_lt _ _ Hq).
        apply (Qlt_trans _ 0); [exact Hneg | reflexivity].
      * reflexivity.
      * intros [Hq _]. exfalso. now apply (Qle_not_lt _ _ Hq).
Qed.

(** X2.  A numeric raw speed is clamped: a finite speed of 100 or more
    and [+Infinity] give 100, a finite speed of 0 or less and
    [-Infinity] give 0, and a finite speed between 0 and 100 is kept;
    the previous state plays no part. *)
Theorem numeric_speed_is_clamped (q : Q) (prev : option MotorState) :
  (exists r, speedVal (Number (Finite q)) prev = Finite r /\
             ((100 <= q -> r == 100) /\
              (q <= 0 -> r == 0) /\
              (0 <= q <= 100 -> r == q)))%Q /\
  speedVal (Number PosInf) prev = Finite 100 /\
  speedVal (Number NegInf) prev = Finite 0.
Proof.
  split; [apply speedVal_finite | split; reflexivity].
Qed.

Lemma numeric_speed_is_clamped_witness :
  (exists r, speedVal (Number (Finite 150)) None = Finite r /\ r == 100)%Q /\
  (exists r, speedVal (Number (Finite (-3))) None = Finite r /\ r == 0)%Q /\
  (exists r, speedVal (Number (Finite 42)) None = Finite r /\ r == 42)%Q.
Proof.
  split; [|split].
  - destruct (numeric_speed_is_clamped 150 None) as ((r & Hr & H & _) & _).
    exists r. split; [exact Hr | apply H; discriminate].
  - destruct (numeric_speed_is_clamped (-3) None) as ((r & Hr & _ & H & _) & _).
    exists r. split; [exact Hr | apply H; discriminate].
  - destruct (numeric_speed_is_clamped 42 None) as ((r & Hr & _ & _ & H) & _).
    exists r. split; [exact Hr | apply H; split; discriminate].
Defined.

(** X3.  Reconciling the same payload a second time changes nothing:
    the state obtained from a payload is reproduced when that payload
    is reconciled against it. *)
Theorem same_payload_twice (raw : value) (prev : option MotorState)
    (m : MotorState) :
  toMotorState raw prev = Normal m ->
  toMotorState raw (Some m) = Normal m.
Proof.
  unfold toMotorState.
  destruct (get raw "power") as [p | e]; [|discriminate].
  destruct (get raw "direction") as [d | e]; [|discriminate].
  destruct (get raw "speed") as [sp | e]; [|discriminate].
  intros H. injection H as <-. f_equal. f_equal.
  destruct sp; reflexivity.
Qed.

Lemma same_payload_twice_witness :
  toMotorState payload_power_only
    (Some {| power := false; dir := -1; speed := Finite 35 |})
    = Normal {| power := true; dir := 1; speed := Finite 35 |} /\
  toMotorState payload_power_only
    (Some {| power := true; dir := 1; speed := Finite 35 |})
    = Normal {| power := true; dir := 1; speed := Finite 35 |}.
Proof.
  split; [reflexivity|].
  apply (same_payload_twice payload_power_only
           (Some {| power := false; dir := -1; speed := Finite 35 |})).
  reflexivity.
Defined.

End ReconcilerFacts.

(* ------------------------------------------------------------------ *)
(** *** Invariants of the cells along every run *)

Section CellInvariants.

Lemma run_is_after (t0 : Z) (evs : list Event) :
  run t0 evs = after evs (mount (initial t0)).
Proof. reflexivity. Qed.

Lemma after_app (evs evs' : list Event) (s : Client) :
  after (evs ++ evs') s = after evs' (after evs s).
Proof. unfold after. apply fold_left_app. Qed.

(** A property kept by every step holds after any sequence of events. *)
Lemma after_invariant (P : Client -> Prop) :
  (forall ev s, P s -> P (step ev s)) ->
  forall evs s, P s -> P (after evs s).
Proof.
  intros Hstep evs. induction evs as [| ev evs IH]; intros s Hs; simpl.
  - exact Hs.
  - apply IH. now apply Hstep.
Qed.

Lemma run_callback_core (cb : Callback) (s : Client) :
  core (run_callback cb s) = core s.
Proof.
  destruct cb; simpl; [|reflexivity].
  unfold pollStateOnce_start. destruct (pollAbortRef s); reflexivity.
Qed.

Lemma fire_all_core (l : list Timer) (s : Client) :
  core (fire_all l s) = core s.
Proof.
  revert s. induction l as [| tm l IH]; intros s; simpl; [reflexivity|].
  unfold fire_all in IH. rewrite IH. apply run_callback_core.
Qed.

Lemma advance_core (t : Z) (s : Client) : core (advance t s) = core s.
Proof.
  unfold advance.
  change (core (fire_all (sort_by_due (filter (is_due t) (timers s)))
                  (set_timers (filter (fun tm => negb (is_due t tm)) (timers s)) s))
          = core s).
  now rewrite fire_all_core.
Qed.

Lemma poll_finally_core (s : Client) : core (poll_finally s) = core s.
Proof.
  unfold poll_finally. destruct (mountedRef s); [|reflexivity].
  destruct (pollTimerRef s); reflexivity.
Qed.

Lemma unmount_core (s : Client) : core (unmount s) = core s.
Proof.
  unfold unmount.
  destruct s as [st ld er cn ls bo pt spt pa mo ck tms nt ab nc sn]; simpl.
  destruct pa, pt, spt; reflexivity.
Qed.

Lemma handleRetry_core (s : Client) :
  core (handleRetry s) = (state s, connected s, lastSeen s, 0).
Proof.
  unfold handleRetry, pollStateOnce_start.
  destruct s as [st ld er cn ls bo pt spt pa mo ck tms nt ab nc sn]; simpl.
  destruct pa, pt; reflexivity.
Qed.

Lemma handleSpeedChange_core (v : number) (s : Client) :
  core (handleSpeedChange v s)
    = ({| power := power (state s); dir := dir (state s); speed := v |},
       connected s, lastSeen s, backoffRef s).
Proof.
  unfold handleSpeedChange.
  destruct s as [st ld er cn ls bo pt spt pa mo ck tms nt ab nc sn]; simpl.
  destruct spt; reflexivity.
Qed.

Lemma toMotorState_dir (raw : value) (prev : option MotorState) (m : MotorState) :
  toMotorState raw prev = Normal m -> dir m = 1 \/ dir m = -1.
Proof.
  unfold toMotorState.
  destruct (get raw "power"); [|discriminate].
  destruct (get raw "direction") as [d |]; [|discriminate].
  destruct (get raw "speed"); [|discriminate].
  intros H. injection H as <-. simpl. unfold dirVal.
  destruct d; auto. destruct (String.eqb (toLowerCase s) "reverse"); auto.
Qed.

(** What the update behind [if (raw)] does to the cells. *)
Lemma merge_payload_core (raw : value) (s : Client) :
  (merge_payload raw s = s \/
   exists m, toMotorState raw (Some (state s)) = Normal m /\
             state (merge_payload raw s) = m) /\
  connected (merge_payload raw s) = connected s /\
  lastSeen (merge_payload raw s) = lastSeen s /\
  backoffRef (merge_payload raw s) = backoffRef s.
Proof.
  unfold merge_payload.
  destruct (toMotorState raw (Some (state s))) as [m | e] eqn:E.
  - split; [right; exists m; split; [reflexivity | destruct m; reflexivity]|].
    repeat split.
  - split; [left; reflexivity | repeat split].
Qed.

Lemma next_backoff_in_range (b : Z) :
  b = 0 \/ 1000 <= b <= MAX_BACKOFF ->
  1000 <= next_backoff b <= MAX_BACKOFF.
Proof.
  unfold next_backoff, MAX_BACKOFF. intros [-> | Hb]; [simpl; lia|].
  destruct (b =? 0) eqn:E; lia.
Qed.

(** The cells of [s] after a poll settles, case by case. *)
Lemma poll_settles_core (o : FetchOutcome) (s : Client) :
  core (poll_settles o s) = core s \/
  (exists st, core (poll_settles o s) = (st, true, Some (clock s), 0) /\
              (st = state s \/
               exists raw, toMotorState raw (Some (state s)) = Normal st)) \/
  core (poll_settles o s)
    = (state s, false, lastSeen s, next_backoff (backoffRef s)).
Proof.
  unfold poll_settles, pollStateOnce_resume. rewrite poll_finally_core.
  destruct (fetchJson o) as [raw | e].
  - destruct (mountedRef s); simpl; [|left; reflexivity].
    right; left. destruct (truthy raw).
    + destruct (merge_payload_core raw s) as ([Hsame | (m & Hm & Hst)] & _).
      * rewrite Hsame. eexists; split; [reflexivity | left; reflexivity].
      * exists m. split.
        -- unfold core; simpl. rewrite Hst. unfold merge_payload. rewrite Hm.
           reflexivity.
        -- right. exists raw. exact Hm.
    + eexists; split; [reflexivity | left; reflexivity].
  - destruct (String.eqb (name e) "AbortError"); [left; reflexivity|].
    right; right. unfold core; simpl. rewrite backoff_update. reflexivity.
Qed.

(** The cells of [s] after a command settles, case by case. *)
Lemma command_settles_core (o : FetchOutcome) (s : Client) :
  (exists st, core (fst (command_settles o s))
                = (st, true, Some (clock s), backoffRef s) /\
              (st = state s \/
               exists raw, toMotorState raw (Some (state s)) = Normal st)) \/
  core (fst (command_settles o s))
    = (state s, false, lastSeen s, backoffRef s).
Proof.
  unfold command_settles, postCommand_resume.
  destruct (fetchJson o) as [data | e]; simpl.
  - left. destruct (truthy data).
    + destruct (merge_payload_core data s) as ([Hsame | (m & Hm & Hst)] & _).
      * rewrite Hsame. exists (state s). split; [|left; reflexivity].
        destruct (mountedRef s); reflexivity.
      * exists m. split; [|right; exists data; exact Hm].
        unfold merge_payload. rewrite Hm. simpl.
        destruct (mountedRef s); destruct m; reflexivity.
    + exists (state s). split; [|left; reflexivity].
      destruct (mountedRef s); reflexivity.
  - right. destruct (mountedRef s); reflexivity.
Qed.

Lemma cells_fine_of_core (s s' : Client) :
  core s' = core s -> cells_fine s -> cells_fine s'.
Proof.
  unfold core, cells_fine, dir_valid, seen_when_connected, backoff_in_range.
  intros H. injection H as -> -> -> ->. auto.
Qed.

Lemma cells_fine_intro (s' : Client) (st : MotorState) (cn : bool)
    (ls : option Z) (bo : Z) :
  core s' = (st, cn, ls, bo) ->
  dir st = 1 \/ dir st = -1 ->
  (cn = true -> exists t, ls = Some t) ->
  bo = 0 \/ 1000 <= bo <= MAX_BACKOFF ->
  cells_fine s'.
Proof.
  unfold core, cells_fine, dir_valid, seen_when_connected, backoff_in_range.
  intros H. injection H as -> -> -> ->. auto.
Qed.

Lemma step_cells_fine (ev : Event) (s : Client) :
  cells_fine s -> cells_fine (step ev s).
Proof.
  intros Hs. pose proof Hs as (Hd & Hc & Hb).
  destruct ev as [t | o | o | on | | v | | ]; simpl.
  - apply (cells_fine_of_core s); [apply advance_core | exact Hs].
  - destruct (poll_settles_core o s) as [H | [(st & H & Hst) | H]].
    + now apply (cells_fine_of_core s).
    + apply (cells_fine_intro _ _ _ _ _ H); eauto.
      destruct Hst as [-> | (raw & Hraw)]; [exact Hd|].
      now apply (toMotorState_dir raw (Some (state s))).
    + apply (cells_fine_intro _ _ _ _ _ H); [exact Hd | discriminate |].
      right. now apply next_backoff_in_range.
  - destruct (command_settles_core o s) as [(st & H & Hst) | H].
    + apply (cells_fine_intro _ _ _ _ _ H); eauto.
      destruct Hst as [-> | (raw & Hraw)]; [exact Hd|].
      now apply (toMotorState_dir raw (Some (state s))).
    + apply (cells_fine_intro _ _ _ _ _ H); [exact Hd | discriminate | exact Hb].
  - apply (cells_fine_of_core s); [reflexivity | exact Hs].
  - apply (cells_fine_of_core s); [reflexivity | exact Hs].
  - apply (cells_fine_intro _ _ _ _ _ (handleSpeedChange_core v s)); auto.
  - apply (cells_fine_intro _ _ _ _ _ (handleRetry_core s)); auto.
  - apply (cells_fine_of_core s); [apply unmount_core | exact Hs].
Qed.

Lemma run_cells_fine (t0 : Z) (evs : list Event) : cells_fine (run t0 evs).
Proof.
  rewrite run_is_after. apply (after_invariant cells_fine step_cells_fine).
  unfold cells_fine, dir_valid, seen_when_connected, backoff_in_range.
  split; [left; reflexivity|]. split; [discriminate | left; reflexivity].
Qed.

(** X4.  Whatever happens after mounting, the direction held in
    MotorState is 1 or -1. *)
Theorem direction_always_valid (t0 : Z) (evs : list Event) :
  dir_valid (run t0 evs).
Proof. apply (run_cells_fine t0 evs). Qed.

(** X5.  Whatever happens after mounting, a component that shows
    itself connected has a last-seen time. *)
Theorem connected_has_last_seen (t0 : Z) (evs : list Event) :
  seen_when_connected (run t0 evs).
Proof. apply (run_cells_fine t0 evs). Qed.

(** X6.  Whatever happens after mounting, the backoff delay is 0 or
    lies between the floor of 1000 ms and the ceiling of 30000 ms. *)
Theorem backoff_always_in_range (t0 : Z) (evs : list Event) :
  backoff_in_range (run t0 evs).
Proof. apply (run_cells_fine t0 evs). Qed.

(** The MotorState after a request settles is the old one, or the
    one the reconciler makes of the delivered payload. *)
Lemma poll_settles_state (o : FetchOutcome) (s : Client) :
  state (poll_settles o s) = state s \/
  exists raw, fetchJson o = Normal raw /\
              toMotorState raw (Some (state s))
                = Normal (state (poll_settles o s)).
Proof.
  unfold poll_settles, pollStateOnce_resume.
  assert (Hf : forall x, state (poll_finally x) = state x).
  { intros x. pose proof (poll_finally_core x) as H. unfold core in H.
    now injection H. }
  rewrite Hf.
  destruct (fetchJson o) as [raw | e].
  - destruct (mountedRef s); simpl; [|left; reflexivity].
    destruct (truthy raw); [|left; reflexivity].
    unfold merge_payload.
    destruct (toMotorState raw (Some (state s))) as [m | e] eqn:E;
      [|left; reflexivity].
    right. exists raw. split; [reflexivity|].
    destruct m; simpl; rewrite E; reflexivity.
  - destruct (String.eqb (name e) "AbortError"); left; reflexivity.
Qed.

Lemma command_settles_state (o : FetchOutcome) (s : Client) :
  state (fst (command_settles o s)) = state s \/
  exists raw, fetchJson o = Normal raw /\
              toMotorState raw (Some (state s))
                = Normal (state (fst (command_settles o s))).
Proof.
  unfold command_settles, postCommand_resume.
  destruct (fetchJson o) as [data | e]; simpl.
  - destruct (truthy data).
    + unfold merge_payload.
      destruct (toMotorState data (Some (state s))) as [m | e] eqn:E.
      * right. exists data. split; [reflexivity|].
        destruct m; simpl; destruct (mountedRef s); simpl; rewrite E;
          reflexivity.
      * left. simpl. destruct (mountedRef s); reflexivity.
    + left. destruct (mountedRef s); reflexivity.
  - left. destruct (mountedRef s); reflexivity.
Qed.

Lemma reconciled_speed_in_domain (o : FetchOutcome) (raw : value)
    (prev m : MotorState) :
  speed_not_NaN o = true ->
  fetchJson o = Normal raw ->
  in_speed_domain (speed prev) = true ->
  toMotorState raw (Some prev) = Normal m ->
  in_speed_domain (speed m) = true.
Proof.
  unfold speed_not_NaN. intros Hn Hf Hp Hm. rewrite Hf in Hn.
  destruct (get raw "speed") as [sp | e] eqn:Hs.
  - destruct (toMotorState_speed_in_domain raw sp (Some prev) Hs)
      as (m' & Hm' & Hd).
    + intros Hsp. rewrite Hsp in Hn. discriminate Hn.
    + intros p Hp'. injection Hp' as <-. exact Hp.
    + congruence.
  - unfold toMotorState in Hm. rewrite Hs in Hm.
    destruct (get raw "power"); [|discriminate].
    destruct (get raw "direction"); discriminate.
Qed.

Lemma core_state (s' : Client) (st : MotorState) (cn : bool)
    (ls : option Z) (bo : Z) :
  core s' = (st, cn, ls, bo) -> state s' = st.
Proof. unfold core. intros H. now injection H. Qed.

Lemma step_speed_domain (ev : Event) (s : Client) :
  keeps_speed_domain ev = true ->
  in_speed_domain (speed (state s)) = true ->
  in_speed_domain (speed (state (step ev s))) = true.
Proof.
  intros Hev Hs.
  assert (Hcore : forall s', core s' = core s ->
                    in_speed_domain (speed (state s')) = true).
  { intros s' H. unfold core in H. injection H as -> _ _ _. exact Hs. }
  destruct ev as [t | o | o | on | | v | | ]; unfold step.
  - apply Hcore, advance_core.
  - destruct (poll_settles_state o s) as [H | (raw & Hf & Hm)].
    + rewrite H. exact Hs.
    + exact (reconciled_speed_in_domain o raw _ _ Hev Hf Hs Hm).
  - destruct (command_settles_state o s) as [H | (raw & Hf & Hm)].
    + rewrite H. exact Hs.
    + exact (reconciled_speed_in_domain o raw _ _ Hev Hf Hs Hm).
  - apply Hcore. reflexivity.
  - apply Hcore. reflexivity.
  - rewrite (core_state _ _ _ _ _ (handleSpeedChange_core v s)). exact Hev.
  - rewrite (core_state _ _ _ _ _ (handleRetry_core s)). exact Hs.
  - apply Hcore, unmount_core.
Qed.

(** X7.  As long as the slider reports values of [[0,100]] and no
    response carries a [NaN] speed, the speed held in MotorState stays
    inside [[0,100]], whatever else happens. *)
Theorem speed_stays_in_domain (t0 : Z) (evs : list Event) :
  Forall (fun ev => keeps_speed_domain ev = true) evs ->
  in_speed_domain (speed (state (run t0 evs))) = true.
Proof.
  rewrite run_is_after.
  assert (H0 : in_speed_domain (speed (state (mount (initial t0)))) = true)
    by reflexivity.
  revert H0. generalize (mount (initial t0)).
  induction evs as [| ev evs IH]; intros s Hs Hall; simpl; [exact Hs|].
  inversion Hall as [| x l Hev Hrest]; subst.
  apply IH; [|exact Hrest]. now apply step_speed_domain.
Qed.

Lemma speed_stays_in_domain_witness :
  in_speed_domain
    (speed (state (run 0 [MoveSlider (Finite 40); PollSettles good_200;
                          CommandSettles broken_500; MoveSlider (Finite 100)])))
    = true.
Proof.
  apply (speed_stays_in_domain 0
           [MoveSlider (Finite 40); PollSettles good_200;
            CommandSettles broken_500; MoveSlider (Finite 100)]).
  repeat constructor.
Defined.

End CellInvariants.

(* ------------------------------------------------------------------ *)
(** *** Commands and the reconciler *)

Section Commands.

Lemma fetchJson_answers (raw : value) : fetchJson (answers raw) = Normal raw.
Proof. reflexivity. Qed.

(** X8.  The body [handlePower] sends reads back as the power asked
    for, and the body [toggleDirection] sends reads back as the other
    direction: if the device answers a command with the body it
    received, MotorState holds the power that was asked for,
    respectively the direction opposite to the one it held. *)
Theorem power_and_direction_read_back (on : bool) (s : Client) :
  (exists req,
      sent (handlePower on s) = (sent s ++ [req])%list /\
      power (state (fst (command_settles (echo req) (handlePower on s)))) = on) /\
  (exists req,
      sent (toggleDirection s) = (sent s ++ [req])%list /\
      dir (state (fst (command_settles (echo req) (toggleDirection s))))
        = (if dir (state s) =? 1 then -1 else 1)) /\
  (dir_valid s ->
   exists req,
      sent (toggleDirection s) = (sent s ++ [req])%list /\
      dir (state (fst (command_settles (echo req) (toggleDirection s))))
        = - dir (state s)).
Proof.
  assert (Hdir : exists req,
      sent (toggleDirection s) = (sent s ++ [req])%list /\
      dir (state (fst (command_settles (echo req) (toggleDirection s))))
        = (if dir (state s) =? 1 then -1 else 1)).
  { eexists. split; [reflexivity|].
    destruct s as [st ld er cn ls bo pt spt pa mo ck tms nt ab nc sn]; simpl.
    destruct (dir st =? 1); destruct mo; reflexivity. }
  split; [|split].
  - eexists. split; [reflexivity|].
    destruct s as [st ld er cn ls bo pt spt pa mo ck tms nt ab nc sn]; simpl.
    destruct on; destruct mo; reflexivity.
  - exact Hdir.
  - intros Hv. destruct Hdir as (req & Hs & Hd). exists req.
    split; [exact Hs|]. rewrite Hd.
    destruct Hv as [-> | ->]; reflexivity.
Qed.

Lemma power_and_direction_read_back_witness :
  dir_valid first_poll_in_flight /\
  exists req,
    sent (toggleDirection first_poll_in_flight)
      = (sent first_poll_in_flight ++ [req])%list /\
    dir (state (fst (command_settles (echo req)
                       (toggleDirection first_poll_in_flight))))
      = - dir (state first_poll_in_flight).
Proof.
  split; [left; reflexivity|].
  apply (power_and_direction_read_back true first_poll_in_flight).
  left; reflexivity.
Defined.

(** X9.  The body the debounce timer sends reads back as the slider
    value: for a value of [[0,100]], if the device answers the speed
    command with the body it received, MotorState holds that value. *)
Theorem speed_reads_back (v : number) (s : Client) :
  in_speed_domain v = true ->
  exists req,
    sent (run_callback (CbPostSpeed v) s) = (sent s ++ [req])%list /\
    same_number
      (speed (state (fst (command_settles (echo req)
                            (run_callback (CbPostSpeed v) s)))))
      v.
Proof.
  intros Hv. exists (speed_command v). split; [reflexivity|].
  destruct v as [q | | |]; try discriminate Hv.
  simpl in Hv. apply andb_true_iff in Hv. destruct Hv as [H0 H100].
  apply Qle_bool_iff in H0. apply Qle_bool_iff in H100.
  destruct (speedVal_finite q (Some (state s))) as (r & Hr & _ & _ & Hin).
  assert (Hst : speed (state (fst (command_settles
                  (echo (speed_command (Finite q)))
                  (run_callback (CbPostSpeed (Finite q)) s))))
                = speedVal (Number (Finite q)) (Some (state s))).
  { destruct s as [st ld er cn ls bo pt spt pa mo ck tms nt ab nc sn]; simpl.
    destruct mo; reflexivity. }
  rewrite Hst, Hr. simpl. apply Hin. split; assumption.
Qed.

Lemma speed_reads_back_witness :
  in_speed_domain (Finite 75) = true /\
  exists req,
    sent (run_callback (CbPostSpeed (Finite 75)) first_poll_in_flight)
      = (sent first_poll_in_flight ++ [req])%list /\
    same_number
      (speed (state (fst (command_settles (echo req)
                            (run_callback (CbPostSpeed (Finite 75))
                               first_poll_in_flight)))))
      (Finite 75).
Proof.
  split; [reflexivity|].
  apply (speed_reads_back (Finite 75) first_poll_in_flight). reflexivity.
Defined.

(** X10.  A poll answer without a numeric speed leaves the value the
    slider has just set in place; a poll answer with a numeric speed
    replaces it by that speed, clamped. *)
Theorem slider_value_and_poll_answer (v : number) (raw sp : value) (s : Client) :
  mountedRef s = true ->
  truthy raw = true ->
  get raw "speed" = Normal sp ->
  (is_number sp = false ->
   speed (state (poll_settles (answers raw) (handleSpeedChange v s))) = v) /\
  (forall x, sp = Number x ->
   speed (state (poll_settles (answers raw) (handleSpeedChange v s)))
     = Math_max (Finite 0) (Math_min (Finite 100) x)).
Proof.
  intros Hm Ht Hs.
  destruct (get_normal_all raw "speed" "power" sp Hs) as [p Hp].
  destruct (get_normal_all raw "speed" "direction" sp Hs) as [d Hd].
  assert (Hst : speed (state (poll_settles (answers raw) (handleSpeedChange v s)))
                = speedVal sp (Some {| power := power (state s);
                                       dir := dir (state s); speed := v |})).
  { unfold poll_settles. rewrite fetchJson_answers.
    unfold pollStateOnce_resume.
    assert (Hf : forall x, state (poll_finally x) = state x).
    { intros x. pose proof (poll_finally_core x) as H. unfold core in H.
      now injection H. }
    rewrite Hf.
    assert (Hm' : mountedRef (handleSpeedChange v s) = true).
    { unfold handleSpeedChange.
      destruct s as [st ld er cn ls bo pt spt pa mo ck tms nt ab nc sn];
        simpl in *. destruct spt; exact Hm. }
    rewrite Hm', Ht. simpl. unfold merge_payload.
    rewrite (core_state _ _ _ _ _ (handleSpeedChange_core v s)).
    rewrite (toMotorState_fields raw p d sp _ Hp Hd Hs). reflexivity. }
  rewrite Hst. split.
  - intros Hn. destruct sp; try reflexivity. discriminate Hn.
  - intros x ->. reflexivity.
Qed.

Lemma slider_value_and_poll_answer_witness :
  mountedRef first_poll_in_flight = true /\
  truthy payload_power_only = true /\
  get payload_power_only "speed" = Normal Undefined /\
  speed (state (poll_settles (answers payload_power_only)
                  (handleSpeedChange (Finite 64) first_poll_in_flight)))
    = Finite 64.
Proof.
  split; [reflexivity|]. split; [reflexivity|]. split; [reflexivity|].
  apply (slider_value_and_poll_answer (Finite 64) payload_power_only Undefined
           first_poll_in_flight); reflexivity.
Defined.

(** X11.  A command, from its dispatch to the moment its request
    settles, sends exactly one request, to the endpoint it was given,
    whatever the outcome (there is no retry), and it leaves the backoff
    delay, the timer queue, the timer handles and the poll controller
    as they were. *)
Theorem command_sends_once_and_keeps_schedule
    (endpoint : string) (b : option value) (o : FetchOutcome) (s : Client) :
  (exists req,
      method req = POST /\ path req = endpoint /\
      sent (fst (command_settles o (postCommand_start endpoint b s)))
        = (sent s ++ [req])%list) /\
  backoffRef (fst (command_settles o (postCommand_start endpoint b s)))
    = backoffRef s /\
  clockwork (fst (command_settles o (postCommand_start endpoint b s)))
    = clockwork s /\
  pollAbortRef (fst (command_settles o (postCommand_start endpoint b s)))
    = pollAbortRef s /\
  aborted (fst (command_settles o (postCommand_start endpoint b s)))
    = aborted s.
Proof.
  unfold command_settles, postCommand_resume, postCommand_start, merge_payload,
    clockwork.
  destruct (fetchJson o) as [data | e]; simpl.
  - destruct (truthy data); simpl.
    + destruct (toMotorState data _) as [m | e]; simpl;
        destruct (mountedRef s); simpl;
        (split; [eexists; repeat split; reflexivity | repeat split]).
    + destruct (mountedRef s); simpl;
        (split; [eexists; repeat split; reflexivity | repeat split]).
  - destruct (mountedRef s); simpl;
      (split; [eexists; repeat split; reflexivity | repeat split]).
Qed.

(** X26.  The direction button does what its caption says: the
    direction [toggleDirection] posts is the one named in the caption
    "Set ...", it differs from the direction shown in the read-out, and
    once the device has answered with the body it received the read-out
    shows the direction that was posted. *)
Theorem direction_button_matches_caption (s : Client) :
  exists d,
    sent (toggleDirection s)
      = (sent s ++ [mkRequest POST "/api/direction"
                      (Some (Object [("direction", String d)])) None])%list /\
    toggle_caption s = ("Set " ++ d)%string /\
    d <> dirLabel s /\
    dirLabel (fst (command_settles
                     (echo (mkRequest POST "/api/direction"
                              (Some (Object [("direction", String d)])) None))
                     (toggleDirection s))) = d.
Proof.
  unfold toggleDirection, toggle_caption, dirLabel.
  destruct s as [st ld er cn ls bo pt spt pa mo ck tms nt ab nc sn]; simpl.
  destruct (dir st =? 1); simpl.
  - exists "Reverse". split; [reflexivity|]. split; [reflexivity|].
    split; [discriminate|]. destruct mo; reflexivity.
  - exists "Forward". split; [reflexivity|]. split; [reflexivity|].
    split; [discriminate|]. destruct mo; reflexivity.
Qed.

End Commands.

(* ------------------------------------------------------------------ *)
(** *** Single flight *)

Section SingleFlight.

Lemma poll_signals_app (l l' : list Request) :
  poll_signals (l ++ l') = (poll_signals l ++ poll_signals l')%list.
Proof. unfold poll_signals. apply flat_map_app. Qed.

Lemma single_flight_wire (s s' : Client) :
  wire s' = wire s -> single_flight s -> single_flight s'.
Proof.
  unfold wire, single_flight, is_aborted. intros H.
  injection H as -> -> -> ->. auto.
Qed.

Lemma wire_parts (s' : Client) (a : list Request) (b : Z) (c : list Z)
    (d : option Z) :
  wire s' = (a, b, c, d) ->
  sent s' = a /\ nextCtrl s' = b /\ aborted s' = c /\ pollAbortRef s' = d.
Proof. unfold wire. intros H. injection H as -> -> -> ->. auto. Qed.

Lemma wire_start (s : Client) :
  wire (pollStateOnce_start s)
    = ((sent s ++ [poll_request (nextCtrl s)])%list,
       nextCtrl s + 1,
       match pollAbortRef s with
       | Some c => c :: aborted s
       | None => aborted s
       end,
       Some (nextCtrl s)).
Proof.
  unfold pollStateOnce_start, wire. destruct (pollAbortRef s); reflexivity.
Qed.

(** Starting a poll keeps the flight single: the controller in place
    is aborted, a new one takes over. *)
Lemma single_flight_start (s : Client) :
  single_flight s -> single_flight (pollStateOnce_start s).
Proof.
  intros (Hlt & Hnd & Hone).
  destruct (wire_parts _ _ _ _ _ (wire_start s)) as (Hs & Hn & Ha & Hr).
  unfold single_flight, is_aborted. rewrite Hs, Hn, Ha, Hr.
  rewrite poll_signals_app. simpl.
  rewrite Forall_forall in Hlt.
  split; [|split].
  - apply Forall_app. split.
    + apply Forall_forall. intros c Hc. specialize (Hlt c Hc). lia.
    + constructor; [lia | constructor].
  - apply NoDup_app; [exact Hnd | repeat constructor; intros [] |].
    intros c Hc [<- | []]. specialize (Hlt _ Hc). lia.
  - intros c Hc. apply in_app_or in Hc. destruct Hc as [Hc | [<- | []]].
    + left. destruct (Hone c Hc) as [Hab | Href].
      * unfold is_aborted in Hab. destruct (pollAbortRef s); simpl;
          rewrite ?Hab, ?orb_true_r; reflexivity.
      * rewrite Href. simpl. now rewrite Z.eqb_refl.
    + right. reflexivity.
Qed.

Lemma single_flight_post (endpoint : string) (b : option value) (s : Client) :
  single_flight s -> single_flight (postCommand_start endpoint b s).
Proof.
  unfold single_flight, is_aborted, postCommand_start. simpl.
  rewrite poll_signals_app. simpl. rewrite app_nil_r. auto.
Qed.

Lemma single_flight_fire_all (l : list Timer) (s : Client) :
  single_flight s -> single_flight (fire_all l s).
Proof.
  revert s. induction l as [| tm l IH]; intros s Hs; simpl; [exact Hs|].
  apply IH. destruct (callback tm); simpl.
  - now apply single_flight_start.
  - now apply single_flight_post.
Qed.

Lemma single_flight_advance (t : Z) (s : Client) :
  single_flight s -> single_flight (advance t s).
Proof.
  intros Hs. unfold advance.
  apply (single_flight_wire
           (fire_all (sort_by_due (filter (is_due t) (timers s)))
              (set_timers (filter (fun tm => negb (is_due t tm)) (timers s)) s)));
    [reflexivity|].
  apply single_flight_fire_all.
  apply (single_flight_wire s); [reflexivity | exact Hs].
Qed.

Lemma wire_poll_settles (o : FetchOutcome) (s : Client) :
  wire (poll_settles o s) = wire s.
Proof.
  unfold poll_settles, pollStateOnce_resume.
  assert (Hf : forall x, wire (poll_finally x) = wire x).
  { intros x. unfold poll_finally. destruct (mountedRef x); [|reflexivity].
    destruct (pollTimerRef x); reflexivity. }
  rewrite Hf. destruct (fetchJson o) as [raw | e].
  - destruct (mountedRef s); simpl; [|reflexivity].
    destruct (truthy raw); [|reflexivity].
    unfold merge_payload. destruct (toMotorState raw _); reflexivity.
  - destruct (String.eqb (name e) "AbortError"); reflexivity.
Qed.

Lemma wire_command_settles (o : FetchOutcome) (s : Client) :
  wire (fst (command_settles o s)) = wire s.
Proof.
  unfold command_settles, postCommand_resume, merge_payload.
  destruct (fetchJson o) as [data | e]; simpl.
  - destruct (truthy data); simpl.
    + destruct (toMotorState data _); simpl; destruct (mountedRef s); reflexivity.
    + destruct (mountedRef s); reflexivity.
  - destruct (mountedRef s); reflexivity.
Qed.

Lemma wire_handleSpeedChange (v : number) (s : Client) :
  wire (handleSpeedChange v s) = wire s.
Proof.
  unfold handleSpeedChange.
  destruct s as [st ld er cn ls bo pt spt pa mo ck tms nt ab nc sn]; simpl.
  destruct spt; reflexivity.
Qed.

Lemma single_flight_unmount (s : Client) :
  single_flight s -> single_flight (unmount s).
Proof.
  intros (Hlt & Hnd & Hone).
  assert (Hw : wire (unmount s)
               = (sent s, nextCtrl s,
                  match pollAbortRef s with
                  | Some c => c :: aborted s
                  | None => aborted s
                  end, pollAbortRef s)).
  { unfold unmount.
    destruct s as [st ld er cn ls bo pt spt pa mo ck tms nt ab nc sn]; simpl.
    destruct pa, pt, spt; reflexivity. }
  destruct (wire_parts _ _ _ _ _ Hw) as (Hs & Hn & Ha & Hr).
  unfold single_flight, is_aborted. rewrite Hs, Hn, Ha, Hr.
  split; [exact Hlt|]. split; [exact Hnd|].
  intros c Hc. destruct (Hone c Hc) as [Hab | Href].
  - left. unfold is_aborted in Hab. destruct (pollAbortRef s); simpl;
      rewrite ?Hab, ?orb_true_r; reflexivity.
  - now right.
Qed.

Lemma step_single_flight (ev : Event) (s : Client) :
  single_flight s -> single_flight (step ev s).
Proof.
  intros Hs. destruct ev as [t | o | o | on | | v | | ]; unfold step.
  - now apply single_flight_advance.
  - apply (single_flight_wire s); [apply wire_poll_settles | exact Hs].
  - apply (single_flight_wire s); [apply wire_command_settles | exact Hs].
  - now apply single_flight_post.
  - now apply single_flight_post.
  - apply (single_flight_wire s); [apply wire_handleSpeedChange | exact Hs].
  - unfold handleRetry. apply single_flight_start.
    apply (single_flight_wire s); [|exact Hs].
    destruct s as [st ld er cn ls bo pt spt pa mo ck tms nt ab nc sn]; simpl.
    destruct pt; reflexivity.
  - now apply single_flight_unmount.
Qed.

Lemma run_single_flight (t0 : Z) (evs : list Event) :
  single_flight (run t0 evs).
Proof.
  rewrite run_is_after. apply (after_invariant single_flight step_single_flight).
  apply (single_flight_start (set_mountedRef true (initial t0))).
  unfold single_flight. simpl. repeat split; [constructor | constructor|].
  intros c [].
Qed.

Lemma all_equal_nodup (l : list Z) (x : Z) :
  NoDup l -> (forall c, In c l -> c = x) -> (length l <= 1)%nat.
Proof.
  intros Hnd Hall. destruct l as [| a [| b l]]; simpl; try lia.
  exfalso. inversion Hnd as [| ? ? Hnot _]; subst. apply Hnot.
  rewrite (Hall a), (Hall b); simpl; auto.
Qed.

(** X12.  Whatever happens after mounting, at most one poll request
    has a controller that has not been aborted, and it is the one sent
    under the controller held in [pollAbortRef]: every earlier poll
    request was cancelled before or when the next one was issued. *)
Theorem at_most_one_live_poll (t0 : Z) (evs : list Event) :
  (length (live_polls (run t0 evs)) <= 1)%nat /\
  forall c, In c (live_polls (run t0 evs)) ->
            pollAbortRef (run t0 evs) = Some c.
Proof.
  destruct (run_single_flight t0 evs) as (_ & Hnd & Hone).
  assert (Href : forall c, In c (live_polls (run t0 evs)) ->
                           pollAbortRef (run t0 evs) = Some c).
  { intros c Hc. unfold live_polls in Hc. apply filter_In in Hc.
    destruct Hc as [Hin Hlive]. destruct (Hone c Hin) as [Hab | Hr]; [|exact Hr].
    rewrite Hab in Hlive. discriminate Hlive. }
  split; [|exact Href].
  destruct (pollAbortRef (run t0 evs)) as [c0 |] eqn:E.
  - apply (all_equal_nodup _ c0).
    + unfold live_polls. now apply NoDup_filter.
    + intros c Hc. specialize (Href c Hc). congruence.
  - destruct (live_polls (run t0 evs)) as [| c l]; simpl; [lia|].
    specialize (Href c (or_introl eq_refl)). discriminate Href.
Qed.

End SingleFlight.

(* ------------------------------------------------------------------ *)
(** *** The timer queue along a run, teardown, retry *)

Section Timers.

Lemma clockwork_parts (s' : Client) (a : list Timer) (b c : option Z) :
  clockwork s' = (a, b, c) ->
  timers s' = a /\ pollTimerRef s' = b /\ speedTimerRef s' = c.
Proof. unfold clockwork. intros H. injection H as -> -> ->. auto. Qed.

Lemma timers_clearTimeout_if (ref : option Z) (s : Client) :
  timers (clearTimeout_if ref s) = cleared ref (timers s).
Proof. destruct ref; reflexivity. Qed.

Lemma filter_cleared (p : Timer -> bool) (ref : option Z) (l : list Timer) :
  filter p (cleared ref l) = cleared ref (filter p l).
Proof. destruct ref; simpl; [apply filter_swap | reflexivity]. Qed.

Lemma at_most_ref_filter (f : Timer -> bool) (l : list Timer) (r : option Z) :
  at_most_ref l r -> at_most_ref (filter f l) r.
Proof.
  intros [-> | (tm & -> & Hr)]; [left; reflexivity|].
  simpl. destruct (f tm); [right; exists tm; auto | left; reflexivity].
Qed.

Lemma at_most_ref_cleared (r' : option Z) (l : list Timer) (r : option Z) :
  at_most_ref l r -> at_most_ref (cleared r' l) r.
Proof. destruct r'; simpl; [apply at_most_ref_filter | auto]. Qed.

(** Clearing the handle in the ref empties a queue that holds at most
    the timer of that handle. *)
Lemma cleared_own (l : list Timer) (r : option Z) :
  at_most_ref l r -> cleared r l = [].
Proof.
  intros [-> | (tm & -> & ->)]; [destruct r; reflexivity|].
  simpl. now rewrite Z.eqb_refl.
Qed.

Lemma tidy_parts (s' : Client) (l : list Timer) (pr sr : option Z) :
  clockwork s' = (l, pr, sr) ->
  at_most_ref (filter (fun tm => negb (is_speed_timer tm)) l) pr ->
  at_most_ref (filter is_speed_timer l) sr ->
  timers_tidy s'.
Proof.
  intros H. destruct (clockwork_parts _ _ _ _ H) as (Ht & Hp & Hs).
  unfold timers_tidy, poll_timers, speed_timers. rewrite Ht, Hp, Hs. auto.
Qed.

Lemma tidy_same (s s' : Client) :
  clockwork s' = clockwork s -> timers_tidy s -> timers_tidy s'.
Proof. intros H [Hp Hs]. apply (tidy_parts _ _ _ _ H); assumption. Qed.

Lemma run_callback_clockwork (cb : Callback) (s : Client) :
  clockwork (run_callback cb s) = clockwork s.
Proof.
  destruct cb; simpl; [|reflexivity].
  unfold pollStateOnce_start. destruct (pollAbortRef s); reflexivity.
Qed.

Lemma fire_all_clockwork (l : list Timer) (s : Client) :
  clockwork (fire_all l s) = clockwork s.
Proof.
  revert s. induction l as [| tm l IH]; intros s; simpl; [reflexivity|].
  unfold fire_all in IH. rewrite IH. apply run_callback_clockwork.
Qed.

Lemma advance_clockwork (t : Z) (s : Client) :
  clockwork (advance t s)
    = (filter (fun tm => negb (is_due t tm)) (timers s),
       pollTimerRef s, speedTimerRef s).
Proof.
  unfold advance.
  change (clockwork (fire_all (sort_by_due (filter (is_due t) (timers s)))
                       (set_timers (filter (fun tm => negb (is_due t tm))
                                      (timers s)) s))
          = (filter (fun tm => negb (is_due t tm)) (timers s),
             pollTimerRef s, speedTimerRef s)).
  now rewrite fire_all_clockwork.
Qed.

Lemma poll_finally_clockwork (s : Client) :
  clockwork (poll_finally s) = clockwork s \/
  (mountedRef s = true /\
   exists d,
     clockwork (poll_finally s)
       = ((cleared (pollTimerRef s) (timers s)
             ++ [mkTimer (nextTimer s) d CbPoll])%list,
          Some (nextTimer s), speedTimerRef s)).
Proof.
  unfold poll_finally. destruct (mountedRef s); [|left; reflexivity].
  right. split; [reflexivity|].
  exists (clock s + (if backoffRef s =? 0 then POLL_INTERVAL else backoffRef s)).
  destruct s as [st ld er cn ls bo pt spt pa mo ck tms nt ab nc sn]; simpl.
  destruct pt; reflexivity.
Qed.

Lemma poll_settles_clockwork (o : FetchOutcome) (s : Client) :
  clockwork (poll_settles o s) = clockwork s \/
  (mountedRef s = true /\
   exists d,
     clockwork (poll_settles o s)
       = ((cleared (pollTimerRef s) (timers s)
             ++ [mkTimer (nextTimer s) d CbPoll])%list,
          Some (nextTimer s), speedTimerRef s)).
Proof.
  unfold poll_settles, pollStateOnce_resume.
  set (body := match fetchJson o with Normal _ => _ | Throw _ => _ end).
  assert (Hb : clockwork body = clockwork s /\ mountedRef body = mountedRef s
               /\ nextTimer body = nextTimer s).
  { unfold body. destruct (fetchJson o) as [raw | e].
    - destruct (mountedRef s) eqn:Hm; simpl; [|auto].
      destruct (truthy raw); [|auto].
      unfold merge_payload. destruct (toMotorState raw _); auto.
    - destruct (String.eqb (name e) "AbortError"); auto. }
  destruct Hb as (Hc & Hm & Hn).
  destruct (poll_finally_clockwork body) as [H | (Hmb & d & H)].
  - left. congruence.
  - right. split; [congruence|]. exists d. rewrite H.
    destruct (clockwork_parts _ _ _ _ Hc) as (-> & -> & ->). now rewrite Hn.
Qed.

Lemma clockwork_command_settles (o : FetchOutcome) (s : Client) :
  clockwork (fst (command_settles o s)) = clockwork s.
Proof.
  unfold command_settles, postCommand_resume, merge_payload.
  destruct (fetchJson o) as [data | e]; simpl.
  - destruct (truthy data); simpl.
    + destruct (toMotorState data _); simpl; destruct (mountedRef s); reflexivity.
    + destruct (mountedRef s); reflexivity.
  - destruct (mountedRef s); reflexivity.
Qed.

Lemma handleSpeedChange_clockwork (v : number) (s : Client) :
  clockwork (handleSpeedChange v s)
    = ((cleared (speedTimerRef s) (timers s)
          ++ [mkTimer (nextTimer s) (clock s + SPEED_DEBOUNCE_MS)
                (CbPostSpeed v)])%list,
       pollTimerRef s, Some (nextTimer s)).
Proof.
  unfold handleSpeedChange.
  destruct s as [st ld er cn ls bo pt spt pa mo ck tms nt ab nc sn]; simpl.
  destruct spt; reflexivity.
Qed.

Lemma handleRetry_clockwork (s : Client) :
  clockwork (handleRetry s)
    = (cleared (pollTimerRef s) (timers s), pollTimerRef s, speedTimerRef s).
Proof.
  unfold handleRetry, pollStateOnce_start.
  destruct s as [st ld er cn ls bo pt spt pa mo ck tms nt ab nc sn]; simpl.
  destruct pt, pa; reflexivity.
Qed.

Lemma unmount_clockwork (s : Client) :
  clockwork (unmount s)
    = (cleared (speedTimerRef s) (cleared (pollTimerRef s) (timers s)),
       pollTimerRef s, speedTimerRef s).
Proof.
  unfold unmount.
  destruct s as [st ld er cn ls bo pt spt pa mo ck tms nt ab nc sn]; simpl.
  destruct pa, pt, spt; reflexivity.
Qed.

Lemma step_tidy (ev : Event) (s : Client) :
  timers_tidy s -> timers_tidy (step ev s).
Proof.
  intros Hs. pose proof Hs as [Hp Hsp]. unfold poll_timers, speed_timers in *.
  destruct ev as [t | o | o | on | | v | | ]; unfold step.
  - apply (tidy_parts _ _ _ _ (advance_clockwork t s));
      rewrite filter_swap; now apply at_most_ref_filter.
  - destruct (poll_settles_clockwork o s) as [H | (_ & d & H)].
    + now apply (tidy_same s).
    + apply (tidy_parts _ _ _ _ H); rewrite filter_app, filter_cleared; simpl.
      * rewrite (cleared_own _ _ Hp). right. eexists. split; reflexivity.
      * rewrite app_nil_r. now apply at_most_ref_cleared.
  - apply (tidy_same s); [apply clockwork_command_settles | exact Hs].
  - apply (tidy_same s); [reflexivity | exact Hs].
  - apply (tidy_same s); [reflexivity | exact Hs].
  - apply (tidy_parts _ _ _ _ (handleSpeedChange_clockwork v s));
      rewrite filter_app, filter_cleared; simpl.
    + rewrite app_nil_r. now apply at_most_ref_cleared.
    + rewrite (cleared_own _ _ Hsp). right. eexists. split; reflexivity.
  - apply (tidy_parts _ _ _ _ (handleRetry_clockwork s));
      rewrite filter_cleared; now apply at_most_ref_cleared.
  - apply (tidy_parts _ _ _ _ (unmount_clockwork s));
      rewrite !filter_cleared; now do 2 apply at_most_ref_cleared.
Qed.

Lemma run_tidy (t0 : Z) (evs : list Event) : timers_tidy (run t0 evs).
Proof.
  rewrite run_is_after. apply (after_invariant timers_tidy step_tidy).
  split; left; reflexivity.
Qed.

Lemma at_most_ref_length (l : list Timer) (r : option Z) :
  at_most_ref l r -> (length l <= 1)%nat.
Proof. intros [-> | (tm & -> & _)]; simpl; lia. Qed.

(** X13.  Whatever happens after mounting, at most one poll timer and
    at most one debounce timer are pending, and a pending timer is the
    one whose handle its ref holds. *)
Theorem one_timer_of_each_kind (t0 : Z) (evs : list Event) :
  (length (poll_timers (run t0 evs)) <= 1)%nat /\
  (length (speed_timers (run t0 evs)) <= 1)%nat /\
  (forall tm, In tm (poll_timers (run t0 evs)) ->
              pollTimerRef (run t0 evs) = Some (tid tm)) /\
  (forall tm, In tm (speed_timers (run t0 evs)) ->
              speedTimerRef (run t0 evs) = Some (tid tm)).
Proof.
  destruct (run_tidy t0 evs) as [Hp Hs].
  split; [exact (at_most_ref_length _ _ Hp)|].
  split; [exact (at_most_ref_length _ _ Hs)|].
  split; intros tm Hin.
  - destruct Hp as [Hp | (tm' & Hp & Hr)]; rewrite Hp in Hin;
      [destruct Hin | destruct Hin as [<- | []]; exact Hr].
  - destruct Hs as [Hs | (tm' & Hs & Hr)]; rewrite Hs in Hin;
      [destruct Hin | destruct Hin as [<- | []]; exact Hr].
Qed.

Lemma no_timers_of_either_kind (l : list Timer) :
  filter (fun tm => negb (is_speed_timer tm)) l = [] ->
  filter is_speed_timer l = [] -> l = [].
Proof.
  destruct l as [| tm l]; [reflexivity|]. simpl.
  destruct (is_speed_timer tm); simpl; intros H1 H2; discriminate.
Qed.

Lemma unmount_empties_queue (s : Client) :
  timers_tidy s -> timers (unmount s) = [] /\ mountedRef (unmount s) = false.
Proof.
  intros [Hp Hs]. unfold poll_timers, speed_timers in *.
  destruct (clockwork_parts _ _ _ _ (unmount_clockwork s)) as (Ht & _ & _).
  split.
  - rewrite Ht. apply no_timers_of_either_kind; rewrite !filter_cleared.
    + now rewrite (cleared_own _ _ Hp); destruct (speedTimerRef s).
    + apply cleared_own. now apply at_most_ref_cleared.
  - unfold unmount.
    destruct s as [st ld er cn ls bo pt spt pa mo ck tms nt ab nc sn]; simpl.
    destruct pa, pt, spt; reflexivity.
Qed.

(** With the page gone and the queue empty, time and late responses
    send nothing and set no timer. *)
Lemma late_step_sends_nothing (ev : Event) (s : Client) :
  is_late ev = true ->
  mountedRef s = false -> timers s = [] ->
  sent (step ev s) = sent s /\
  mountedRef (step ev s) = false /\
  timers (step ev s) = [].
Proof.
  intros Hl Hm Ht. destruct ev as [t | o | o | on | | v | | ];
    try discriminate Hl; unfold step.
  - unfold advance. rewrite Ht. simpl. auto.
  - destruct (wire_parts _ _ _ _ _ (wire_poll_settles o s)) as (Hs & _).
    split; [exact Hs|]. split.
    + unfold poll_settles. now rewrite resume_keeps_mounted.
    + destruct (poll_settles_clockwork o s) as [H | (Hm' & _)]; [|congruence].
      destruct (clockwork_parts _ _ _ _ H) as (-> & _). exact Ht.
  - destruct (wire_parts _ _ _ _ _ (wire_command_settles o s)) as (Hs & _).
    split; [exact Hs|]. split.
    + unfold command_settles.
      destruct (postCommand_resume_loading (fetchJson o) s) as (-> & _).
      exact Hm.
    + destruct (clockwork_parts _ _ _ _ (clockwork_command_settles o s))
        as (-> & _). exact Ht.
Qed.

(** X14.  Unmounting leaves no timer pending, and from then on
    neither the passing of time nor any late response makes the
    component send a request or set a timer. *)
Theorem nothing_happens_after_unmount
    (t0 : Z) (evs late : list Event) :
  forallb is_late late = true ->
  timers (unmount (run t0 evs)) = [] /\
  sent (after late (unmount (run t0 evs))) = sent (run t0 evs) /\
  timers (after late (unmount (run t0 evs))) = [].
Proof.
  intros Hlate.
  destruct (unmount_empties_queue _ (run_tidy t0 evs)) as (Ht & Hm).
  split; [exact Ht|].
  assert (Hsent : sent (unmount (run t0 evs)) = sent (run t0 evs)).
  { destruct (run t0 evs) as [st ld er cn ls bo pt spt pa mo ck tms nt ab nc sn].
    unfold unmount; simpl. destruct pa, pt, spt; reflexivity. }
  rewrite <- Hsent. revert Ht Hm. generalize (unmount (run t0 evs)).
  induction late as [| ev late IH]; intros s Ht Hm; simpl; [auto|].
  simpl in Hlate. apply andb_true_iff in Hlate. destruct Hlate as [Hev Hlate].
  destruct (late_step_sends_nothing ev s Hev Hm Ht) as (Hs1 & Hm1 & Ht1).
  destruct (IH Hlate (step ev s) Ht1 Hm1) as (Hs2 & Ht2).
  split; [congruence | exact Ht2].
Qed.

Lemma nothing_happens_after_unmount_witness :
  forallb is_late stragglers = true /\
  timers (run 0 leave_mid_burst) <> [] /\
  timers (unmount (run 0 leave_mid_burst)) = [] /\
  sent (after stragglers (unmount (run 0 leave_mid_burst)))
    = sent (run 0 leave_mid_burst).
Proof.
  split; [reflexivity|]. split; [vm_compute; discriminate|].
  destruct (nothing_happens_after_unmount 0 leave_mid_burst stragglers)
    as (H1 & H2 & _).
  - reflexivity.
  - split; [exact H1 | exact H2].
Defined.

(** X15.  "Retry now", in any state a run can reach: the backoff
    delay is back at 0, no poll timer is pending any more, the poll in
    flight (if any) is cancelled and exactly one new poll request is
    sent at once; a failure of that poll starts the backoff again from
    the floor of 1000 ms. *)
Theorem retry_now_restarts_polling (t0 : Z) (evs : list Event) :
  backoffRef (handleRetry (run t0 evs)) = 0 /\
  poll_timers (handleRetry (run t0 evs)) = [] /\
  sent (handleRetry (run t0 evs))
    = (sent (run t0 evs) ++ [poll_request (nextCtrl (run t0 evs))])%list /\
  pollAbortRef (handleRetry (run t0 evs)) = Some (nextCtrl (run t0 evs)) /\
  (forall c, pollAbortRef (run t0 evs) = Some c ->
             In c (aborted (handleRetry (run t0 evs)))) /\
  (forall o, is_failure o = true ->
             backoffRef (poll_settles o (handleRetry (run t0 evs))) = 1000).
Proof.
  destruct (run_tidy t0 evs) as [Hp _].
  generalize dependent (run t0 evs). intros s Hp.
  assert (Hb : backoffRef (handleRetry s) = 0).
  { pose proof (handleRetry_core s) as H. unfold core in H. now injection H. }
  split; [exact Hb|]. split; [|split; [|split; [|split]]].
  - unfold poll_timers in *.
    destruct (clockwork_parts _ _ _ _ (handleRetry_clockwork s)) as (-> & _).
    rewrite filter_cleared. now apply cleared_own.
  - unfold handleRetry, pollStateOnce_start.
    destruct s as [st ld er cn ls bo pt spt pa mo ck tms nt ab nc sn]; simpl.
    destruct pt, pa; reflexivity.
  - unfold handleRetry, pollStateOnce_start.
    destruct s as [st ld er cn ls bo pt spt pa mo ck tms nt ab nc sn]; simpl.
    destruct pt, pa; reflexivity.
  - intros c Hc. unfold handleRetry, pollStateOnce_start.
    destruct s as [st ld er cn ls bo pt spt pa mo ck tms nt ab nc sn];
      simpl in *. subst pa. destruct pt; simpl; auto.
  - intros o Ho. unfold poll_settles.
    destruct (fetchJson_failure o Ho) as (e & -> & Hn).
    destruct (resume_failure e (handleRetry s) Hn) as (_ & _ & H & _).
    rewrite H, Hb. reflexivity.
Qed.

End Timers.

(* ------------------------------------------------------------------ *)
(** *** The debounce gate in general *)

Section DebounceInGeneral.

Lemma burst_flushes (rest : list (Z * number)) (v : number) (s : Client) (t : Z) :
  timers_fresh s ->
  debounce_armed v s ->
  clock (burst rest s) + SPEED_DEBOUNCE_MS <= t ->
  commands (advance t (burst rest s))
    = (commands s ++ map speed_command (flushed v rest))%list.
Proof.
  revert v s. induction rest as [| [gap w] rest IH]; intros v s Hf Ha Ht.
  - simpl in *. destruct Ha as (id & _ & Hone).
    destruct (advance_fires t s _ Hone) as (Hc & _).
    + unfold is_due. simpl. now apply Z.leb_le.
    + exact Hc.
  - destruct Ha as (id & Hid & Hone).
    change (burst ((gap, w) :: rest) s)
      with (burst rest (handleSpeedChange w (advance (clock s + gap) s))) in *.
    destruct (handleSpeedChange_restarts w (advance (clock s + gap) s))
      as (_ & Hc2 & _).
    simpl flushed. destruct (SPEED_DEBOUNCE_MS <=? gap) eqn:E.
    + apply Z.leb_le in E.
      destruct (advance_fires (clock s + gap) s _ Hone) as (Hc1 & Hs1).
      { unfold is_due. simpl. apply Z.leb_le. lia. }
      destruct (handleSpeedChange_arms w (advance (clock s + gap) s))
        as (Hf2 & Ha2).
      { now apply advance_fresh. }
      { left. exact Hs1. }
      rewrite (IH w _ Hf2 Ha2 Ht), Hc2, Hc1. simpl.
      now rewrite <- app_assoc.
    + apply Z.leb_gt in E.
      assert (Hq : filter (is_due (clock s + gap)) (speed_timers s) = []).
      { rewrite Hone. simpl. unfold is_due. simpl.
        destruct (clock s + SPEED_DEBOUNCE_MS <=? clock s + gap) eqn:E';
          [apply Z.leb_le in E'; lia | reflexivity]. }
      destruct (advance_quiet _ s Hq) as (Hc1 & Hs1).
      destruct (advance_frame (clock s + gap) s) as (_ & _ & Hr & _ & _).
      destruct (handleSpeedChange_arms w (advance (clock s + gap) s))
        as (Hf2 & Ha2).
      { now apply advance_fresh. }
      { right.
        exists (mkTimer id (clock s + SPEED_DEBOUNCE_MS) (CbPostSpeed v)).
        rewrite Hr, Hs1, Hone. split; [exact Hid | reflexivity]. }
      rewrite (IH w _ Hf2 Ha2 Ht), Hc2, Hc1. reflexivity.
Qed.

Lemma burst_state (rest : list (Z * number)) (v : number) (s : Client) :
  speed (state s) = v ->
  speed (state (burst rest s)) = last (map snd rest) v.
Proof.
  revert v s. induction rest as [| [gap w] rest IH]; intros v s Hs.
  - exact Hs.
  - change (burst ((gap, w) :: rest) s)
      with (burst rest (handleSpeedChange w (advance (clock s + gap) s))).
    rewrite (IH w).
    + simpl. destruct (map snd rest) eqn:E; [reflexivity|].
      clear. revert n. induction l as [| a l IHl]; intros n; simpl;
        [reflexivity|]. destruct l; [reflexivity|]. apply (IHl a).
    + now rewrite (core_state _ _ _ _ _ (handleSpeedChange_core w _)).
Qed.

(** X16.  For any movement of the slider, the values sent once it has
    rested for 150 ms are, in order, those that were followed by a
    pause of 150 ms or more, and the last one; each is sent once, as
    [POST /api/speed].  Meanwhile MotorState shows the last value. *)
Theorem slider_values_sent
    (s : Client) (g0 : Z) (v0 : number) (rest : list (Z * number)) (t : Z) :
  timers_fresh s ->
  speed_timers s = [] ->
  clock (burst ((g0, v0) :: rest) s) + SPEED_DEBOUNCE_MS <= t ->
  commands (advance t (burst ((g0, v0) :: rest) s))
    = (commands s ++ map speed_command (flushed v0 rest))%list /\
  speed (state (burst ((g0, v0) :: rest) s)) = last (map snd rest) v0.
Proof.
  intros Hf Hnone Ht.
  change (burst ((g0, v0) :: rest) s)
    with (burst rest (handleSpeedChange v0 (advance (clock s + g0) s))) in *.
  split.
  - assert (Hq : filter (is_due (clock s + g0)) (speed_timers s) = [])
      by (rewrite Hnone; reflexivity).
    destruct (advance_quiet _ s Hq) as (Hc1 & Hs1).
    destruct (handleSpeedChange_arms v0 (advance (clock s + g0) s))
      as (Hf2 & Ha2).
    { now apply advance_fresh. }
    { left. now rewrite Hs1. }
    destruct (handleSpeedChange_restarts v0 (advance (clock s + g0) s))
      as (_ & Hc2 & _).
    rewrite (burst_flushes rest v0 _ t Hf2 Ha2 Ht), Hc2, Hc1. reflexivity.
  - apply burst_state.
    now rewrite (core_state _ _ _ _ _ (handleSpeedChange_core v0 _)).
Qed.

Lemma slider_values_sent_witness :
  timers_fresh first_poll_in_flight /\
  speed_timers first_poll_in_flight = [] /\
  commands (advance 410 (burst slider_slow_then_fast first_poll_in_flight))
    = [speed_command (Finite 10); speed_command (Finite 75)] /\
  speed (state (burst slider_slow_then_fast first_poll_in_flight)) = Finite 75.
Proof.
  split; [constructor|]. split; [reflexivity|].
  apply (slider_values_sent first_poll_in_flight 0 (Finite 10)
           [(200, Finite 40); (60, Finite 75)] 410).
  - constructor.
  - reflexivity.
  - vm_compute. discriminate.
Defined.

End DebounceInGeneral.

(* ------------------------------------------------------------------ *)
(** *** The message of an HTTP failure *)

Section HttpFailure.

Lemma digits_no_space (d : Decimal.uint) :
  has_no_space (NilEmpty.string_of_uint d) = true.
Proof. induction d; simpl; try reflexivity; exact IHd. Qed.

Lemma show_int_shape (n : Z) :
  has_no_space (show_int n) = true /\ show_int n <> EmptyString.
Proof.
  unfold show_int, NilZero.string_of_int, NilZero.string_of_uint.
  destruct (Z.to_int n) as [d | d]; destruct d; simpl;
    (split; [try reflexivity; apply digits_no_space | discriminate]).
Qed.

Lemma space_width_none (c : ascii) (r : string) :
  opens_no_space c = true -> space_width (String.String c r) = 0%nat.
Proof.
  unfold opens_no_space. intros H.
  apply andb_true_iff in H. destruct H as [H1 H2].
  apply negb_true_iff in H1. apply negb_true_iff in H2.
  repeat (apply orb_false_iff in H2; destruct H2 as [? H2]).
  unfold space_width. rewrite H1.
  destruct r as [| c2 r2].
  - reflexivity.
  - unfold is_space2.
    replace (Nat.eqb (nat_of_ascii c) 194) with false by congruence.
    simpl. destruct r2 as [| c3 r3]; [reflexivity|].
    unfold is_space3.
    replace (Nat.eqb (nat_of_ascii c) 225) with false by congruence.
    replace (Nat.eqb (nat_of_ascii c) 226) with false by congruence.
    replace (Nat.eqb (nat_of_ascii c) 227) with false by congruence.
    replace (Nat.eqb (nat_of_ascii c) 239) with false by congruence.
    reflexivity.
Qed.

Lemma trimStart_plain (c : ascii) (r : string) :
  opens_no_space c = true -> trimStart (String.String c r) = String.String c r.
Proof.
  intros H. unfold trimStart.
  change (drop_spaces 0 (String.String c r))
    with (match space_width (String.String c r) with
          | O => String.String c r
          | S k => drop_spaces k r
          end).
  now rewrite (space_width_none c r H).
Qed.

Lemma trimStart_keeps (a b : string) :
  has_no_space a = true -> a <> EmptyString ->
  trimStart (a ++ b) = (a ++ b)%string.
Proof.
  destruct a as [| c a]; [congruence|]. simpl has_no_space. intros H _.
  apply andb_true_iff in H. destruct H as [Hc _].
  exact (trimStart_plain c (a ++ b) Hc).
Qed.

Lemma prefix_nonempty (a s : string) :
  a <> EmptyString -> String.prefix a s = true -> s <> EmptyString.
Proof. destruct a; [congruence|]. destruct s; [discriminate|]. discriminate. Qed.

Lemma trimEnd_plain (a b : string) :
  has_no_space a = true -> trimEnd (a ++ b) = (a ++ trimEnd b)%string.
Proof.
  induction a as [| c a IH]; [reflexivity|]. simpl has_no_space. intros H.
  apply andb_true_iff in H. destruct H as [Hc Ha].
  change ((String.String c a ++ b)%string) with (String.String c (a ++ b)).
  change (trimEnd (String.String c (a ++ b)))
    with (match trimStart (String.String c (a ++ b)) with
          | EmptyString => EmptyString
          | _ => String.String c (trimEnd (a ++ b))
          end).
  rewrite (trimStart_plain c (a ++ b) Hc), (IH Ha). reflexivity.
Qed.

Lemma prefix_append (a b : string) : String.prefix a (a ++ b) = true.
Proof.
  induction a as [| c a IH]; [destruct b; reflexivity|]. simpl.
  destruct (ascii_dec c c); [exact IH | congruence].
Qed.

Lemma trimEnd_keeps_prefix (a b : string) :
  has_no_space a = true -> a <> EmptyString ->
  String.prefix a (trimEnd (a ++ b)) = true.
Proof.
  intros H _. rewrite (trimEnd_plain a b H). apply prefix_append.
Qed.

(** X17.  A response outside 2xx makes [fetchJson] throw an [Error]
    whose message is never empty and begins with the status code; a
    command that fails this way shows exactly that message as
    lastError, never the fallback text. *)
Theorem http_failure_message (res : Response) :
  ok res = false ->
  exists msg,
    fetchJson (Responded res) = Throw (Error msg) /\
    msg <> EmptyString /\
    String.prefix (show_int (status res)) msg = true /\
    forall s, error (fst (command_settles (Responded res) s)) = Some msg.
Proof.
  intros Hok.
  destruct (show_int_shape (status res)) as (Hns & Hne).
  set (tail := (" " ++ statusText res ++ " "
                  ++ match text res with Some t => t | None => EmptyString end)%string).
  set (msg := trim (show_int (status res) ++ tail)).
  assert (Hfetch : fetchJson (Responded res) = Throw (Error msg)).
  { unfold fetchJson. rewrite Hok. reflexivity. }
  assert (Hp : String.prefix (show_int (status res)) msg = true).
  { unfold msg, trim. rewrite (trimStart_keeps _ _ Hns Hne).
    now apply trimEnd_keeps_prefix. }
  assert (Hmsg : msg <> EmptyString) by exact (prefix_nonempty _ _ Hne Hp).
  clearbody msg. exists msg.
  split; [exact Hfetch|]. split; [exact Hmsg|]. split; [exact Hp|].
  intros s. unfold command_settles. rewrite Hfetch.
  unfold postCommand_resume. simpl.
  destruct (String.eqb msg EmptyString) eqn:E.
  - apply String.eqb_eq in E. contradiction.
  - destruct (mountedRef s); reflexivity.
Qed.

Lemma http_failure_message_witness :
  ok (mkResponse 404 "Not Found" (Some " no such route ") None) = false /\
  exists msg,
    fetchJson (Responded (mkResponse 404 "Not Found" (Some " no such route ") None))
      = Throw (Error msg) /\
    msg <> EmptyString /\
    String.prefix "404" msg = true.
Proof.
  split; [reflexivity|].
  destruct (http_failure_message
              (mkResponse 404 "Not Found" (Some " no such route ") None))
    as (msg & H1 & H2 & H3 & _).
  - reflexivity.
  - exists msg. split; [exact H1|]. split; [exact H2 | exact H3].
Defined.

End HttpFailure.

End MotorControlFacts.

(* ================================================================== *)
(** ** Further properties of the plant-health page *)
(* ================================================================== *)

Module PlantHealthFacts.

Import Js PlantHealth.

Section RetryLoopFacts.

Variable ToString : value -> string.
Variable net : nat -> Attempt.

Lemma delays_from_succ (delay : Z) (k : nat) :
  delays_from delay (S k) = delay :: delays_from (delay * 2) k.
Proof.
  unfold delays_from. simpl. f_equal; [lia|].
  rewrite <- seq_shift, map_map. apply map_ext. intros j.
  rewrite Nat2Z.inj_succ, Z.pow_succ_r by lia. lia.
Qed.

(** [k] passes without a text, none of them the fifth: the loop waits
    [k] doubling delays and goes on with pass [i + k]. *)
Lemma retry_loop_skips (k fuel i : nat) (delay : Z) :
  (i + k <= 4)%nat ->
  (forall j, (j < k)%nat ->
             forall t', try_body ToString (net (i + j)%nat) <> Done t') ->
  retry_loop ToString (k + fuel) i delay net
    = mkRun (k + attempts (retry_loop ToString fuel (i + k)
                             (delay * 2 ^ Z.of_nat k) net))
            (delays_from delay k
               ++ waits (retry_loop ToString fuel (i + k)
                           (delay * 2 ^ Z.of_nat k) net))
            (outcome (retry_loop ToString fuel (i + k)
                        (delay * 2 ^ Z.of_nat k) net)).
Proof.
  revert i delay. induction k as [| k IH]; intros i delay Hik Hfail.
  - simpl. rewrite Nat.add_0_r, Z.mul_1_r.
    destruct (retry_loop ToString fuel i delay net); reflexivity.
  - assert (Hrest : retry_loop ToString (k + fuel) (S i) (delay * 2) net
                    = mkRun (k + attempts (retry_loop ToString fuel (i + S k)
                                             (delay * 2 ^ Z.of_nat (S k)) net))
                        (delays_from (delay * 2) k
                           ++ waits (retry_loop ToString fuel (i + S k)
                                       (delay * 2 ^ Z.of_nat (S k)) net))
                        (outcome (retry_loop ToString fuel (i + S k)
                                    (delay * 2 ^ Z.of_nat (S k)) net))).
    { rewrite (IH (S i) (delay * 2)).
      - replace (S i + k)%nat with (i + S k)%nat by lia.
        replace (delay * 2 * 2 ^ Z.of_nat k) with (delay * 2 ^ Z.of_nat (S k));
          [reflexivity|].
        rewrite Nat2Z.inj_succ, Z.pow_succ_r by lia. lia.
      - lia.
      - intros j Hj t'. replace (S i + j)%nat with (i + S j)%nat by lia.
        apply Hfail. lia. }
    change (S k + fuel)%nat with (S (k + fuel)). simpl retry_loop.
    pose proof (Hfail 0%nat ltac:(lia)) as H0. rewrite Nat.add_0_r in H0.
    rewrite delays_from_succ.
    destruct (try_body ToString (net i)) as [t | | e].
    + destruct (H0 t eq_refl).
    + rewrite Hrest. reflexivity.
    + destruct (Nat.eqb i 4) eqn:E; [apply Nat.eqb_eq in E; lia|].
      rewrite Hrest. reflexivity.
Qed.

(** X18.  With an image chosen, the analysis stops at the first
    request that brings a text: if requests 0 .. k-1 fail in any way
    and request k < 5 brings the text [t], exactly k+1 requests are
    made, the k delays 1000, 2000, ... are waited, [t] is shown, the
    loading flag is cleared and no error is shown. *)
Theorem analysis_stops_at_first_text
    (data : string) (p : Page) (f : File) (k : nat) (t : value) :
  imageFile p = Some f ->
  (k < 5)%nat ->
  first_success ToString net k t ->
  analyzeImage ToString (Normal data) net p
    = (mkPage (Some f) t false EmptyString,
       Some (mkRun (S k) (first_delays k) (Normal t))).
Proof.
  intros Hf Hk (Hdone & Hfail).
  unfold analyzeImage. rewrite Hf.
  assert (Hloop : retry_loop ToString 5 0 1000 net
                  = mkRun (S k) (first_delays k) (Normal t)).
  { replace 5%nat with (k + S (4 - k))%nat by lia.
    rewrite (retry_loop_skips k (S (4 - k)) 0 1000); [|lia | exact Hfail].
    simpl retry_loop. rewrite Hdone. simpl.
    rewrite app_nil_r, Nat.add_1_r. reflexivity. }
  rewrite Hloop. reflexivity.
Qed.

(** The loop when no request brings a text. *)
Lemma retry_loop_all_fail :
  all_fail ToString net ->
  (try_body ToString (net 4%nat) = Throttled /\
   retry_loop ToString 5 0 1000 net
     = mkRun 5 (first_delays 5)
         (Throw (Error "API request failed after multiple retries."))) \/
  (exists e,
     try_body ToString (net 4%nat) = Thrown e /\
     retry_loop ToString 5 0 1000 net = mkRun 5 (first_delays 4) (Throw e)).
Proof.
  intros Hall.
  assert (Hloop := retry_loop_skips 4 1 0 1000 ltac:(lia)
                     (fun j Hj => Hall j ltac:(lia))).
  change (4 + 1)%nat with 5%nat in Hloop. rewrite Hloop. simpl retry_loop.
  destruct (try_body ToString (net 4%nat)) as [t | | e] eqn:E.
  - destruct (Hall 4%nat ltac:(lia) t E).
  - left. split; reflexivity.
  - right. exists e. split; reflexivity.
Qed.

Lemma analysis_all_fail_error (data : string) (p : Page) (f : File) :
  imageFile p = Some f ->
  all_fail ToString net ->
  (try_body ToString (net 4%nat) = Throttled /\
   error (fst (analyzeImage ToString (Normal data) net p))
     = "API request failed after multiple retries.") \/
  (exists e,
     try_body ToString (net 4%nat) = Thrown e /\
     error (fst (analyzeImage ToString (Normal data) net p))
       = (if String.eqb (message e) EmptyString
          then "Failed to analyze image. Please try again."
          else message e)).
Proof.
  intros Hf Hall. unfold analyzeImage. rewrite Hf.
  destruct (retry_loop_all_fail Hall) as [(H4 & ->) | (e & H4 & ->)]; simpl.
  - left. split; [exact H4 | reflexivity].
  - right. exists e. split; [exact H4 | reflexivity].
Qed.

(** X19.  With an image chosen, when none of the five requests brings
    a text, whatever the kind of each failure, exactly five requests
    are made, the previous analysis is cleared and loading ends.  If
    the fifth request was throttled the page has waited 31000 ms in all
    (16000 of them after the last request) and shows "API request
    failed after multiple retries."; if the fifth pass threw, it has
    waited 15000 ms and shows the message of that last error alone (or
    the stock message when it has none). *)
Theorem analysis_gives_up_after_five
    (data : string) (p : Page) (f : File) :
  imageFile p = Some f ->
  all_fail ToString net ->
  requests (snd (analyzeImage ToString (Normal data) net p)) = 5%nat /\
  analysis (fst (analyzeImage ToString (Normal data) net p))
    = String EmptyString /\
  loading (fst (analyzeImage ToString (Normal data) net p)) = false /\
  imageFile (fst (analyzeImage ToString (Normal data) net p)) = Some f /\
  ((try_body ToString (net 4%nat) = Throttled /\
    total_wait (snd (analyzeImage ToString (Normal data) net p)) = 31000 /\
    error (fst (analyzeImage ToString (Normal data) net p))
      = "API request failed after multiple retries.") \/
   (exists e,
      try_body ToString (net 4%nat) = Thrown e /\
      total_wait (snd (analyzeImage ToString (Normal data) net p)) = 15000 /\
      error (fst (analyzeImage ToString (Normal data) net p))
        = (if String.eqb (message e) EmptyString
           then "Failed to analyze image. Please try again."
           else message e))).
Proof.
  intros Hf Hall. unfold analyzeImage. rewrite Hf.
  destruct (retry_loop_all_fail Hall) as [(H4 & ->) | (e & H4 & ->)]; simpl.
  - repeat (split; [reflexivity|]). left. repeat split. exact H4.
  - repeat (split; [reflexivity|]). right. exists e. repeat split. exact H4.
Qed.

(** X20.  With an image chosen, when the first four requests fail and
    the fifth is refused by the API with a status outside 2xx other
    than 429 and a non-empty message, that message is what the page
    shows; the errors of the earlier requests are never shown. *)
Theorem api_message_is_shown
    (data : string) (p : Page) (f : File) (status : Z) (m : string) :
  imageFile p = Some f ->
  (forall j, (j < 4)%nat -> forall t', try_body ToString (net j) <> Done t') ->
  net 4%nat = api_refusal status m ->
  ok status = false ->
  status <> 429 ->
  m <> EmptyString ->
  ToString (String m) = m ->
  error (fst (analyzeImage ToString (Normal data) net p)) = m.
Proof.
  intros Hf Hfail H4 Hok Hst Hm HTo.
  assert (Hbody : try_body ToString (net 4%nat) = Thrown (Error m)).
  { rewrite H4. unfold api_refusal, try_body. rewrite Hok.
    destruct (status =? 429) eqn:E; [apply Z.eqb_eq in E; contradiction|].
    unfold error_message. simpl.
    destruct (String.eqb m EmptyString) eqn:Em;
      [apply String.eqb_eq in Em; contradiction|].
    simpl. now rewrite HTo. }
  assert (Hall : all_fail ToString net).
  { intros j Hj t'. destruct (Nat.eq_dec j 4) as [-> | Hne].
    - rewrite Hbody. discriminate.
    - apply Hfail. lia. }
  destruct (analysis_all_fail_error data p f Hf Hall) as [(Hth & _) | (e & He & ->)].
  - rewrite Hbody in Hth. discriminate Hth.
  - rewrite Hbody in He. injection He as <-. simpl.
    destruct (String.eqb m EmptyString) eqn:Em;
      [apply String.eqb_eq in Em; contradiction | reflexivity].
Qed.

End RetryLoopFacts.

Lemma analysis_stops_at_first_text_witness :
  analyzeImage show (Normal "aGk=") third_time_lucky page_with_image
    = (mkPage (Some (mkFile "image/png" 1000)) (String "Healthy") false
         EmptyString,
       Some (mkRun 3 [1000; 2000] (Normal (String "Healthy")))).
Proof.
  apply (analysis_stops_at_first_text show third_time_lucky "aGk="
           page_with_image (mkFile "image/png" 1000) 2 (String "Healthy")).
  - reflexivity.
  - lia.
  - split; [reflexivity|].
    intros [| [| j]] Hj t'; [discriminate | discriminate | lia].
Defined.

Lemma analysis_gives_up_after_five_witness :
  requests (snd (analyzeImage show (Normal "aGk=") always_throttled
                   page_with_image)) = 5%nat /\
  total_wait (snd (analyzeImage show (Normal "aGk=") always_throttled
                     page_with_image)) = 31000.
Proof.
  destruct (analysis_gives_up_after_five show always_throttled "aGk="
              page_with_image (mkFile "image/png" 1000))
    as (H5 & _ & _ & _ & [(_ & Hw & _) | (e & He & _)]).
  - reflexivity.
  - intros j Hj t'. discriminate.
  - split; [exact H5 | exact Hw].
  - discriminate He.
Defined.

Lemma api_message_is_shown_witness :
  error (fst (analyzeImage show (Normal "aGk=") refused_at_last page_with_image))
    = "Bad image".
Proof.
  apply (api_message_is_shown show refused_at_last "aGk=" page_with_image
           (mkFile "image/png" 1000) 400 "Bad image").
  - reflexivity.
  - intros [| [| [| [| j]]]] Hj t'; try discriminate; lia.
  - reflexivity.
  - reflexivity.
  - discriminate.
  - discriminate.
  - reflexivity.
Defined.

(* ------------------------------------------------------------------ *)
(** *** Choosing an image *)

Section Upload.

Variable ToString : value -> string.

Lemma analyzeImage_keeps_image (b64 : completion string)
    (net : nat -> Attempt) (p : Page) :
  imageFile (fst (analyzeImage ToString b64 net p)) = imageFile p.
Proof.
  unfold analyzeImage. destruct (imageFile p); [|reflexivity].
  destruct b64; [|reflexivity].
  cbv zeta. destruct (outcome (retry_loop ToString 5 0 1000 net)); reflexivity.
Qed.

Lemma step_within_limit (ev : PageEvent) (v : View) :
  image_within_limit v -> image_within_limit (page_step ToString ev v).
Proof.
  unfold image_within_limit, MAX_IMAGE_BYTES. intros Hv.
  destruct ev as [files blob | files blob | b64 net | ]; simpl.
  - destruct files as [| file more]; simpl; [exact Hv|].
    destruct (2097152 <? size file) eqn:E; simpl; [exact Hv|].
    apply Z.ltb_ge in E. lia.
  - destruct files as [| file more]; simpl; [exact Hv|].
    destruct (String.prefix "image/" (mimeType file)); [|exact Hv].
    destruct (2097152 <? size file) eqn:E; simpl; [exact Hv|].
    apply Z.ltb_ge in E. lia.
  - rewrite analyzeImage_keeps_image. exact Hv.
  - exact Hv.
Qed.

(** X21.  Whatever is picked, dropped, analysed or dismissed, the
    image the page holds is never larger than 2 MB (2097152 bytes). *)
Theorem image_never_over_limit (evs : list PageEvent) :
  image_within_limit (page_run ToString evs).
Proof.
  unfold page_run.
  assert (H0 : image_within_limit initial_view) by exact I.
  revert H0. generalize initial_view.
  induction evs as [| ev evs IH]; intros v Hv; simpl; [exact Hv|].
  apply IH. now apply step_within_limit.
Qed.

(** X22.  A pick or a drop either takes the offered file, and then
    the page holds that file with its preview URL, an empty analysis
    and no error, or it refuses it, and then the image, its preview URL
    and the analysis are exactly as before.  A picked file is taken
    exactly when it is at most 2 MB, whatever its type; a dropped file
    is taken exactly when, besides, its type begins with "image/". *)
Theorem offered_file_taken_or_refused
    (ev : PageEvent) (file : File) (blob : string) (v : View) :
  offered ev = Some (file, blob) ->
  (page_step ToString ev v
     = mkView (mkPage (Some file) (String EmptyString) (loading (cells v))
                 EmptyString) blob
   \/
   (imageFile (cells (page_step ToString ev v)) = imageFile (cells v) /\
    imageUrl (page_step ToString ev v) = imageUrl v /\
    analysis (cells (page_step ToString ev v)) = analysis (cells v))) /\
  (forall files b, ev = Pick files b ->
     (page_step ToString ev v
        = mkView (mkPage (Some file) (String EmptyString) (loading (cells v))
                    EmptyString) blob
      <-> size file <= MAX_IMAGE_BYTES)) /\
  (forall files b, ev = Dropped files b ->
     size file <= MAX_IMAGE_BYTES ->
     String.prefix "image/" (mimeType file) = true ->
     page_step ToString ev v
       = mkView (mkPage (Some file) (String EmptyString) (loading (cells v))
                   EmptyString) blob) /\
  (forall files b, ev = Dropped files b ->
     String.prefix "image/" (mimeType file) = false ->
     page_step ToString ev v = v).
Proof.
  unfold MAX_IMAGE_BYTES. intros Hoff.
  destruct ev as [files blob' | files blob' | b64 net | ];
    try discriminate Hoff;
    destruct files as [| file' more]; try discriminate Hoff;
    simpl in Hoff; injection Hoff as -> ->; simpl.
  - destruct (2097152 <? size file) eqn:E; simpl.
    + apply Z.ltb_lt in E. split; [right; auto|].
      split; [|split; intros; discriminate].
      intros files b _. split; [|lia].
      intros H. exfalso.
      assert (Herr : error (cells (mkView
                 (mkPage (imageFile (cells v)) (analysis (cells v))
                    (loading (cells v))
                    "File is too large. Please upload an image under 2MB.")
                 (imageUrl v))) = EmptyString) by (rewrite H; reflexivity).
      discriminate Herr.
    + apply Z.ltb_ge in E. split; [left; reflexivity|].
      split; [|split; intros; discriminate].
      intros files b _. split; [lia | reflexivity].
  - split; [|split; [intros; discriminate|split]].
    + destruct (String.prefix "image/" (mimeType file)); [|right; auto].
      destruct (2097152 <? size file); simpl;
        [right; auto | left; reflexivity].
    + intros files b _ Hsize Hty. rewrite Hty.
      destruct (2097152 <? size file) eqn:E; [|reflexivity].
      apply Z.ltb_lt in E. lia.
    + intros files b _ Hty. rewrite Hty. reflexivity.
Qed.

End Upload.

Lemma offered_file_taken_or_refused_witness :
  offered (Dropped [mkFile "text/plain" 10] "blob:1")
    = Some (mkFile "text/plain" 10, "blob:1") /\
  page_step show (Dropped [mkFile "text/plain" 10] "blob:1") initial_view
    = initial_view.
Proof.
  split; [reflexivity|].
  destruct (offered_file_taken_or_refused show
              (Dropped [mkFile "text/plain" 10] "blob:1")
              (mkFile "text/plain" 10) "blob:1" initial_view eq_refl)
    as (_ & _ & _ & H).
  apply (H [mkFile "text/plain" 10] "blob:1"); reflexivity.
Defined.

(* ------------------------------------------------------------------ *)
(** *** [toBase64] *)

Section Base64.

Lemma split_comma_plain (s : string) :
  has_comma s = false -> split_comma s = [s].
Proof.
  induction s as [| c s IH]; simpl; intros H; [reflexivity|].
  apply orb_false_iff in H. destruct H as [Hc Hs].
  rewrite Hc, (IH Hs). reflexivity.
Qed.

Lemma split_comma_head (head rest : string) :
  has_comma head = false ->
  split_comma (head ++ String.String ","%char rest) = head :: split_comma rest.
Proof.
  induction head as [| c head IH]; simpl; intros H; [reflexivity|].
  apply orb_false_iff in H. destruct H as [Hc Hs].
  rewrite Hc, (IH Hs). reflexivity.
Qed.

(** X23.  [toBase64] resolves with what follows the first comma of
    the data URL, up to the next comma: for a URL [head,payload] in
    which neither part has a comma it is [payload]; for a string
    without a comma it is [undefined]. *)
Theorem toBase64_takes_payload (head payload : string) :
  has_comma head = false ->
  (has_comma payload = false ->
   toBase64 (head ++ String.String ","%char payload) = Some payload) /\
  (forall more, has_comma payload = false ->
   toBase64 (head ++ String.String ","%char
               (payload ++ String.String ","%char more)) = Some payload) /\
  toBase64 head = None.
Proof.
  intros Hh. unfold toBase64. split; [|split].
  - intros Hp. rewrite (split_comma_head _ _ Hh), (split_comma_plain _ Hp).
    reflexivity.
  - intros more Hp.
    rewrite (split_comma_head _ _ Hh), (split_comma_head _ _ Hp). reflexivity.
  - rewrite (split_comma_plain _ Hh). reflexivity.
Qed.

Lemma toBase64_takes_payload_witness :
  has_comma "data:image/png;base64" = false /\
  toBase64 "data:image/png;base64,iVBORw0KGgo=" = Some "iVBORw0KGgo=".
Proof.
  split; [reflexivity|].
  destruct (toBase64_takes_payload "data:image/png;base64" "iVBORw0KGgo="
              eq_refl) as (H & _).
  apply H. reflexivity.
Defined.

End Base64.

End PlantHealthFacts.

(* ================================================================== *)
(** ** Properties of the navigation drawer *)
(* ================================================================== *)

Module NavigationFacts.

Import Navigation.

Lemma paths_distinct : NoDup (map path navItems).
Proof.
  repeat constructor; simpl; intros H;
    repeat (destruct H as [H | H]; [discriminate H|]); exact H.
Qed.

Lemma active_among (pathname : string) (l : list NavItem) :
  NoDup (map path l) ->
  (length (filter (isActive pathname) l) <= 1)%nat /\
  (forall item, In item l -> path item = pathname ->
                filter (isActive pathname) l = [item]) /\
  (~ In pathname (map path l) -> filter (isActive pathname) l = []).
Proof.
  induction l as [| x l IH]; simpl; intros Hnd.
  - repeat split; auto. intros item [].
  - inversion Hnd as [| ? ? Hnot Hnd']; subst.
    destruct (IH Hnd') as (Hlen & Hone & Hnone).
    destruct (isActive pathname x) eqn:E; unfold isActive in E.
    + apply String.eqb_eq in E. subst pathname.
      rewrite (Hnone Hnot). simpl. split; [lia|]. split.
      * intros item [<- | Hin] Hp; [reflexivity|].
        exfalso. apply Hnot. rewrite <- Hp. now apply in_map.
      * intros H. exfalso. apply H. now left.
    + apply String.eqb_neq in E. split; [exact Hlen|]. split.
      * intros item [<- | Hin] Hp; [congruence | now apply Hone].
      * intros H. apply Hnone. intros Hin. apply H. now right.
Qed.

(** X24.  At every location at most one link of the drawer is drawn
    as active, and none is when the location is not one of the eight
    paths of the table (as on "/auth" or "/motor/"). *)
Theorem at_most_one_active_link (pathname : string) :
  (length (active_items pathname) <= 1)%nat /\
  (~ In pathname (map path navItems) -> active_items pathname = []).
Proof.
  destruct (active_among pathname navItems paths_distinct) as (H1 & _ & H3).
  split; assumption.
Qed.

Lemma at_most_one_active_link_witness :
  ~ In "/motor/" (map path navItems) /\ active_items "/motor/" = [].
Proof.
  assert (H : ~ In "/motor/" (map path navItems)).
  { simpl. intros H.
    repeat (destruct H as [H | H]; [discriminate H|]). exact H. }
  split; [exact H|].
  apply (at_most_one_active_link "/motor/"). exact H.
Defined.

(** X25.  A click on a link of the table closes the drawer and takes
    the router to a location where exactly that link is active; only
    the hamburger button opens the drawer. *)
Theorem link_click_closes_and_activates
    (item : NavItem) (pathname : string) (isOpen : bool) :
  In item navItems ->
  drawer_step (ItemLink item) isOpen = false /\
  active_items (navigate (ItemLink item) pathname) = [item] /\
  (forall ev, drawer_step ev isOpen = true -> ev = Hamburger).
Proof.
  intros Hin. split; [reflexivity|]. split.
  - destruct (active_among (path item) navItems paths_distinct) as (_ & H & _).
    now apply H.
  - intros ev H. destruct ev; try discriminate H. reflexivity.
Qed.

Lemma link_click_closes_and_activates_witness :
  In (mkNavItem "/plant" Leaf "Plant Health") navItems /\
  active_items (navigate (ItemLink (mkNavItem "/plant" Leaf "Plant Health")) "/")
    = [mkNavItem "/plant" Leaf "Plant Health"].
Proof.
  assert (H : In (mkNavItem "/plant" Leaf "Plant Health") navItems)
    by (simpl; auto).
  split; [exact H|].
  apply (link_click_closes_and_activates
           (mkNavItem "/plant" Leaf "Plant Health") "/" true H).
Defined.

End NavigationFacts.
